(** * comic_to_sparql: a shallow embedding of the streaming converter

    The development follows [infra/blazegraph/scripts/comic_to_sparql.py]:
    the escaping utilities, the heuristic helpers, the entity triple
    generators, the streaming array scanner and the pipeline driver.

    Modelling conventions.
    - A Python [str] is a Rocq [string]; one [ascii] stands for one
      character, so the model covers the characters U+0000 .. U+00FF.
    - A decoded JSON value is a [json]; a [dict] is an association list in
      insertion order with distinct keys.
    - Python integers are [Z].  A Python float is an IEEE 754 binary64
      number, a [spec_float] of the standard library with precision 53 and
      maximal exponent 1024; every operation rounds to nearest, ties to even,
      as the hardware does.
    - A raised exception is a value of [exn]; code that can raise returns a
      [result].
    - The built-ins whose full behaviour is not spelled out here
      ([json.loads], [repr] of floats and containers, fixed-point float
      formatting) are the fields of the class [PyRuntime]; every theorem
      holds for every runtime, and [ref_runtime] is an executable one. *)

From Stdlib Require Import List String Ascii ZArith Bool Lia.
From Stdlib Require Import DecimalString SpecFloat.
Import ListNotations.
Open Scope string_scope.
Set Warnings "-register-all".

(** ** Characters and strings *)

Definition DQ : string := String (ascii_of_nat 34) "".
Definition NL : string := String (ascii_of_nat 10) "".
Definition CR : string := String (ascii_of_nat 13) "".
Definition dquote_char : ascii := ascii_of_nat 34.
Definition newline_char : ascii := ascii_of_nat 10.
Definition return_char : ascii := ascii_of_nat 13.
Definition backslash_char : ascii := "\"%char.

Definition is_empty (s : string) : bool :=
  match s with
  | EmptyString => true
  | String _ _ => false
  end.

(** [s.replace(c, by)] for a one-character pattern [c]. *)
Fixpoint replace_char (c : ascii) (by_ : string) (s : string) : string :=
  match s with
  | EmptyString => EmptyString
  | String a s' =>
      if Ascii.eqb a c then by_ ++ replace_char c by_ s'
      else String a (replace_char c by_ s')
  end.

(** [str.isspace] on the characters below U+0100. *)
Definition is_space (c : ascii) : bool :=
  let n := nat_of_ascii c in
  ((9 <=? n) && (n <=? 13) || (28 <=? n) && (n <=? 32)
   || (n =? 133) || (n =? 160))%nat.

Fixpoint lstrip (s : string) : string :=
  match s with
  | EmptyString => EmptyString
  | String c s' => if is_space c then lstrip s' else s
  end.

(** [s.rstrip(chars)]: the trailing characters satisfying [p] are removed. *)
Fixpoint rstrip_with (p : ascii -> bool) (s : string) : string :=
  match s with
  | EmptyString => EmptyString
  | String c s' =>
      let r := rstrip_with p s' in
      if is_empty r && p c then EmptyString else String c r
  end.

Definition rstrip (s : string) : string := rstrip_with is_space s.

Definition strip (s : string) : string := lstrip (rstrip s).

Definition is_comma (c : ascii) : bool := Ascii.eqb c ","%char.

Definition startswith (s p : string) : bool := prefix p s.

Fixpoint endswith (s suf : string) : bool :=
  String.eqb s suf ||
  match s with
  | EmptyString => false
  | String _ s' => endswith s' suf
  end.

(** [sub in s] on strings. *)
Fixpoint contains (sub s : string) : bool :=
  prefix sub s ||
  match s with
  | EmptyString => false
  | String _ s' => contains sub s'
  end.

(** [s[:-1]] *)
Fixpoint drop_last (s : string) : string :=
  match s with
  | EmptyString => EmptyString
  | String c EmptyString => EmptyString
  | String c s' => String c (drop_last s')
  end.

(** [str.lower] on the characters below U+0100: the ASCII capitals and the
    Latin-1 capitals U+00C0 .. U+00DE (the multiplication sign excepted). *)
Definition lower_char (c : ascii) : ascii :=
  let n := nat_of_ascii c in
  if ((65 <=? n) && (n <=? 90)
      || (192 <=? n) && (n <=? 222) && negb (n =? 215))%nat
  then ascii_of_nat (n + 32) else c.

Fixpoint lower (s : string) : string :=
  match s with
  | EmptyString => EmptyString
  | String c s' => String (lower_char c) (lower s')
  end.

(** [any(word in text for word in words)] *)
Definition any_in (words : list string) (text : string) : bool :=
  existsb (fun word => contains word text) words.

(** ** [urllib.parse.quote(s, safe='')] *)

(** The characters [quote] never escapes: letters, digits and [_.-~]. *)
Definition is_unreserved (c : ascii) : bool :=
  let n := nat_of_ascii c in
  ((65 <=? n) && (n <=? 90) || (97 <=? n) && (n <=? 122)
   || (48 <=? n) && (n <=? 57)
   || (n =? 95) || (n =? 46) || (n =? 45) || (n =? 126))%nat.

Definition hex_digit (n : nat) : ascii :=
  if (n <? 10)%nat then ascii_of_nat (48 + n) else ascii_of_nat (55 + n).

Definition pct_byte (n : nat) : string :=
  String "%"%char (String (hex_digit (n / 16)) (String (hex_digit (n mod 16)) "")).

(** The UTF-8 encoding of a character below U+0100. *)
Definition utf8_bytes (c : ascii) : list nat :=
  let n := nat_of_ascii c in
  if (n <? 128)%nat then [n] else [192 + n / 64; 128 + n mod 64]%nat.

Definition quote_char (c : ascii) : string :=
  if is_unreserved c then String c ""
  else String.concat "" (map pct_byte (utf8_bytes c)).

Fixpoint quote (s : string) : string :=
  match s with
  | EmptyString => EmptyString
  | String c s' => quote_char c ++ quote s'
  end.

(** [safe_uri]: the argument is the text [str(s)]; callers that hold a decoded
    value pass [py_str] of it. *)
Definition safe_uri (s : string) : string :=
  quote (replace_char ":"%char "_"
          (replace_char "/"%char "_" (replace_char " "%char "_" s))).

(** ** Binary floating point *)

(** A Python [float]: a binary64 number. *)
Definition float : Type := spec_float.

Definition prec : Z := 53.
Definition emax : Z := 1024.

(** The float nearest to an integer (ties to even); it is infinite when the
    integer is too large. *)
Definition float_of_Z (z : Z) : float := binary_normalize prec emax z 0 false.

Definition fadd : float -> float -> float := SFadd prec emax.
Definition fsub : float -> float -> float := SFsub prec emax.
Definition fmul : float -> float -> float := SFmul prec emax.
Definition fdiv : float -> float -> float := SFdiv prec emax.

(** [a < b] on floats; false when either is not a number. *)
Definition flt (a b : float) : bool := SFltb a b.
(** [a <= b] on floats. *)
Definition fle (a b : float) : bool := SFleb a b.

(** [min(a, b)] and [max(a, b)] on floats: the first argument unless the
    second is strictly smaller (larger). *)
Definition fmin (a b : float) : float := if flt b a then b else a.
Definition fmax (a b : float) : float := if flt a b then b else a.

(** The float literals of the script.  A decimal literal denotes the float
    nearest to it; [0.7] and [0.85] are the correctly rounded quotients of
    integers that floats hold exactly. *)
Definition f_0 : float := float_of_Z 0.
Definition f_1 : float := float_of_Z 1.
Definition f_2 : float := float_of_Z 2.
Definition f_20 : float := float_of_Z 20.
Definition f_50 : float := float_of_Z 50.
Definition f_100 : float := float_of_Z 100.
Definition f_500 : float := float_of_Z 500.
Definition f_0_7 : float := fdiv (float_of_Z 7) (float_of_Z 10).
Definition f_0_85 : float := fdiv (float_of_Z 85) (float_of_Z 100).

(** The order of a float and an integer, by value. *)
Definition float_compare_Z (f : float) (z : Z) : option comparison :=
  match f with
  | S754_nan => None
  | S754_infinity s => Some (if s then Lt else Gt)
  | S754_zero _ => Some (0 ?= z)%Z
  | S754_finite s m e =>
      let n := if s then Zneg m else Zpos m in
      Some (if (0 <=? e)%Z then (n * 2 ^ e ?= z)%Z
            else (n ?= z * 2 ^ (- e))%Z)
  end.

(** ** Decoded JSON values, exceptions *)

Inductive json : Type :=
| JNull
| JBool (b : bool)
| JInt (n : Z)
| JFloat (f : float)
| JStr (s : string)
| JArr (items : list json)
| JObj (fields : list (string * json)).

Inductive exn : Type :=
| KeyError (key : string)
| TypeError
| AttributeError
| ValueError (msg : string)
| OverflowError
| RecursionError.

Inductive result (A : Type) : Type :=
| Ok (a : A)
| Raise (e : exn).

Arguments Ok {A} a.
Arguments Raise {A} e.

Definition bind {A B : Type} (m : result A) (k : A -> result B) : result B :=
  match m with
  | Ok a => k a
  | Raise e => Raise e
  end.

Notation "x <- m ;; k" := (bind m (fun x => k))
  (at level 61, m at next level, right associativity).

(** [for x in xs: acc.extend(f(x))] with a body that may raise. *)
Fixpoint flat_mapM {A B : Type} (f : A -> result (list B)) (xs : list A)
  : result (list B) :=
  match xs with
  | [] => Ok []
  | x :: xs' => ys <- f x ;; zs <- flat_mapM f xs' ;; Ok (ys ++ zs)%list
  end.

Fixpoint mapM {A B : Type} (f : A -> result B) (xs : list A) : result (list B) :=
  match xs with
  | [] => Ok []
  | x :: xs' => y <- f x ;; ys <- mapM f xs' ;; Ok (y :: ys)
  end.

(** The result of [json.loads]: a value, a [JSONDecodeError] with its text, or
    another exception ([RecursionError] on a text nested too deeply,
    [ValueError] on an integer literal with too many digits), which
    [except json.JSONDecodeError] does not catch. *)
Inductive decoded : Type :=
| Decoded (v : json)
| DecodeError (msg : string)
| DecodeRaise (e : exn).

(** The Python built-ins the script relies on and that the model leaves open. *)
Class PyRuntime : Type := {
  json_loads : string -> decoded;
  (** [repr] of a float, a list or a dict *)
  py_repr : json -> string;
  (** [format(x, '.<digits>f')] of a float *)
  format_fixed : nat -> float -> string;
  format_fixed_070 : format_fixed 2 f_0_7 = "0.70";
  format_fixed_085 : format_fixed 2 f_0_85 = "0.85"
}.

Definition Z_to_string (z : Z) : string := NilZero.string_of_int (Z.to_int z).

(** ** Python operations on decoded values *)

Fixpoint lookup (k : string) (fields : list (string * json)) : option json :=
  match fields with
  | [] => None
  | (k', v) :: rest => if String.eqb k' k then Some v else lookup k rest
  end.

(** Truth value testing: [if v:] *)
Definition truthy (v : json) : bool :=
  match v with
  | JNull => false
  | JBool b => b
  | JInt n => negb (n =? 0)%Z
  | JFloat f => match f with S754_zero _ => false | _ => true end
  | JStr s => negb (is_empty s)
  | JArr items => match items with [] => false | _ :: _ => true end
  | JObj fields => match fields with [] => false | _ :: _ => true end
  end.

(** [v[k]] with a string key [k]: only a dict supports it. *)
Definition subscript (v : json) (k : string) : result json :=
  match v with
  | JObj fields =>
      match lookup k fields with
      | Some x => Ok x
      | None => Raise (KeyError k)
      end
  | _ => Raise TypeError
  end.

(** [v.get(k, d)]: only a dict has the method. *)
Definition get_default (v : json) (k : string) (d : json) : result json :=
  match v with
  | JObj fields =>
      match lookup k fields with
      | Some x => Ok x
      | None => Ok d
      end
  | _ => Raise AttributeError
  end.

(** [v.get(k)] *)
Definition get (v : json) (k : string) : result json := get_default v k JNull.

Definition is_str (s : string) (v : json) : bool :=
  match v with
  | JStr s' => String.eqb s' s
  | _ => false
  end.

(** [k in v] with a string [k] *)
Definition has_key (k : string) (v : json) : result bool :=
  match v with
  | JObj fields =>
      Ok (match lookup k fields with Some _ => true | None => false end)
  | JArr items => Ok (existsb (is_str k) items)
  | JStr s => Ok (contains k s)
  | _ => Raise TypeError
  end.

Fixpoint chars_of (s : string) : list json :=
  match s with
  | EmptyString => []
  | String c s' => JStr (String c "") :: chars_of s'
  end.

(** [for x in v]: the elements of a list, the keys of a dict, the characters
    of a string. *)
Definition py_iter (v : json) : result (list json) :=
  match v with
  | JArr items => Ok items
  | JObj fields => Ok (map (fun kv => JStr (fst kv)) fields)
  | JStr s => Ok (chars_of s)
  | _ => Raise TypeError
  end.

(** [v[:n]]; a dict accepts no slice (a [TypeError] before Python 3.12). *)
Definition slice_prefix (n : nat) (v : json) : result json :=
  match v with
  | JStr s => Ok (JStr (substring 0 n s))
  | JArr items => Ok (JArr (firstn n items))
  | _ => Raise TypeError
  end.

(** [v.lower()] *)
Definition str_lower (v : json) : result string :=
  match v with
  | JStr s => Ok (lower s)
  | _ => Raise AttributeError
  end.

(** A number: an [int] or a [float]. *)
Inductive num : Type :=
| NInt (n : Z)
| NFloat (f : float).

(** A value used as an arithmetic operand; [bool] is a subtype of [int]. *)
Definition as_number (v : json) : result num :=
  match v with
  | JInt n => Ok (NInt n)
  | JFloat f => Ok (NFloat f)
  | JBool b => Ok (NInt (if b then 1 else 0))
  | _ => Raise TypeError
  end.

(** [float(n)] for an [int]: [OverflowError] when it is too large. *)
Definition float_of_int (n : Z) : result float :=
  match float_of_Z n with
  | S754_infinity _ => Raise OverflowError
  | f => Ok f
  end.

(** The float operand an arithmetic operation with a float makes of a
    number. *)
Definition to_float (x : num) : result float :=
  match x with
  | NInt n => float_of_int n
  | NFloat f => Ok f
  end.

(** [a - b] *)
Definition num_sub (a b : num) : result num :=
  match a, b with
  | NInt x, NInt y => Ok (NInt (x - y))
  | _, _ => fa <- to_float a ;; fb <- to_float b ;; Ok (NFloat (fsub fa fb))
  end.

(** [a / d] with a float [d] that is not zero *)
Definition num_div (a : num) (d : float) : result float :=
  fa <- to_float a ;; Ok (fdiv fa d).

(** [a > b]: numbers are compared by value. *)
Definition num_gt (a b : num) : bool :=
  match a, b with
  | NInt x, NInt y => (y <? x)%Z
  | NFloat f, NInt y =>
      match float_compare_Z f y with Some Gt => true | _ => false end
  | NInt x, NFloat g =>
      match float_compare_Z g x with Some Lt => true | _ => false end
  | NFloat f, NFloat g => flt g f
  end.

(** [max(a, b)]: the first argument unless the second is strictly larger. *)
Definition py_max (a b : num) : num := if num_gt b a then b else a.

Section Model.

Context {R : PyRuntime}.

(** [str(v)], as an f-string interpolates a value. *)
Definition py_str (v : json) : string :=
  match v with
  | JNull => "None"
  | JBool true => "True"
  | JBool false => "False"
  | JInt n => Z_to_string n
  | JStr s => s
  | _ => py_repr v
  end.

Definition escape_sparql_string (s : json) : string :=
  match s with
  | JNull => ""
  | _ =>
      replace_char return_char "\r"
        (replace_char newline_char "\n"
          (replace_char dquote_char (String backslash_char DQ)
            (replace_char backslash_char "\\" (py_str s))))
  end.

(** ** Triples as text *)

Definition NAMESPACE : string := "http://knowledge.graph/ontology/narrative#".
Definition BASE_URI : string := "http://knowledge.graph/data/".
Definition RDFS_LABEL : string := "<http://www.w3.org/2000/01/rdf-schema#label>".
Definition XSD : string := "http://www.w3.org/2001/XMLSchema#".

(** [f'{s} {p} {o} .'] *)
Definition triple (s p o : string) : string := s ++ " " ++ p ++ " " ++ o ++ " .".
(** [<{NAMESPACE}name>] *)
Definition ns (name : string) : string := "<" ++ NAMESPACE ++ name ++ ">".
(** [<{BASE_URI}path>] *)
Definition data (path : string) : string := "<" ++ BASE_URI ++ path ++ ">".
(** A quoted literal, and one with a datatype. *)
Definition lit (body : string) : string := DQ ++ body ++ DQ.
Definition typed_lit (body ty : string) : string :=
  DQ ++ body ++ DQ ++ "^^<" ++ XSD ++ ty ++ ">".

(** [if d.get(k): triples.append(mk(d[k]))] *)
Definition opt_field (d : json) (k : string) (mk : json -> string)
  : result (list string) :=
  v <- get d k ;;
  Ok (if truthy v then [mk v] else []).

(** [if d.get(k): x = escape_sparql_string(d[k][:n]); triples.append(mk(x))] *)
Definition opt_text (d : json) (k : string) (n : nat) (mk : string -> string)
  : result (list string) :=
  v <- get d k ;;
  if truthy v then
    cut <- slice_prefix n v ;;
    Ok [mk (escape_sparql_string cut)]
  else Ok [].

(** ** Entity triple generators *)

Definition generate_person_triples (creator_id creator_name : json) : list string :=
  let person_uri := data ("person/" ++ py_str creator_id) in
  [ triple person_uri "a" (ns "Person");
    triple person_uri RDFS_LABEL (lit (escape_sparql_string creator_name));
    triple person_uri (ns "knownAs") (lit (escape_sparql_string creator_name)) ].

Definition generate_org_triples (org_id org_name : json) (org_type : string)
  : list string :=
  let org_uri := data ("org/" ++ py_str org_id) in
  [ triple org_uri "a" (ns "Org");
    triple org_uri RDFS_LABEL (lit (escape_sparql_string org_name));
    triple org_uri (ns "legalName") (lit (escape_sparql_string org_name));
    triple org_uri (ns "orgType") (lit org_type) ].

Definition dark_words : list string := ["dark"; "noir"; "grim"; "gritty"; "shadow"].
Definition comedic_words : list string :=
  ["funny"; "comedy"; "humor"; "laugh"; "silly"].
Definition wholesome_words : list string := ["adventure"; "fun"; "family"; "friends"].
Definition horror_words : list string := ["horror"; "terror"; "fear"].

(** [g.get("name", "").lower()] *)
Definition genre_name_lower (g : json) : result string :=
  n <- get_default g "name" (JStr "") ;; str_lower n.

Definition infer_tone (series_data : json) : result string :=
  n <- get_default series_data "name" (JStr "") ;;
  name <- str_lower n ;;
  d <- get_default series_data "desc" (JStr "") ;;
  desc <- str_lower d ;;
  gs <- get_default series_data "genres" (JArr []) ;;
  gl <- py_iter gs ;;
  genres <- mapM genre_name_lower gl ;;
  if any_in dark_words (name ++ desc) then Ok "Dark"
  else if any_in comedic_words (name ++ desc) then Ok "Comedic"
  else if any_in wholesome_words (name ++ desc) then Ok "Wholesome"
  else if existsb (String.eqb "horror") genres
          || any_in horror_words (name ++ desc) then Ok "Dark"
  else Ok "Dramatic".

(** One entry of [series_data["genres"]] in [generate_series_triples]. *)
Definition genre_triples (work_uri : string) (genre : json) : result (list string) :=
  genre_name <- subscript genre "name" ;;
  let genre_uri := data ("genre/" ++ safe_uri (py_str genre_name)) in
  Ok [ triple genre_uri "a" (ns "Genre");
       triple genre_uri RDFS_LABEL (lit (escape_sparql_string genre_name));
       triple work_uri (ns "hasGenre") genre_uri;
       triple work_uri (ns "genre") (lit (escape_sparql_string genre_name)) ].

Record scores : Type := {
  popularity : float;
  trending : float;
  completion_rate : float;
  engagement : float
}.

(** The ranking features of [generate_series_triples] (the values that are
    formatted into the four score literals), computed as the source does:
    [current_year - year_began] is an integer subtraction when the year is
    an integer, every division has a float divisor, so its other operand is
    converted to a float, and every product, sum and difference after it is a
    float operation. *)
Definition series_scores (series_data : json) : result scores :=
  issue_count <- get_default series_data "count_of_issues" (JInt 1) ;;
  year_began <- get_default series_data "year_began" (JInt 2000) ;;
  let current_year := NInt 2025 in
  (* years_active = max(1, current_year - year_began) *)
  yb <- as_number year_began ;;
  age <- num_sub current_year yb ;;
  let years_active := py_max (NInt 1) age in
  (* popularity = min(1.0, (issue_count / 500.0) * (years_active / 20.0)) *)
  ic <- as_number issue_count ;;
  per_500 <- num_div ic f_500 ;;
  per_20 <- num_div years_active f_20 ;;
  let popularity := fmin f_1 (fmul per_500 per_20) in
  (* recency_factor = max(0.0, 1.0 - (current_year - year_began) / 50.0) *)
  per_50 <- num_div age f_50 ;;
  let recency_factor := fmax f_0 (fsub f_1 per_50) in
  (* trending = min(1.0, recency_factor * (issue_count / 100.0)) *)
  per_100 <- num_div ic f_100 ;;
  let trending := fmin f_1 (fmul recency_factor per_100) in
  year_ended <- get series_data "year_ended" ;;
  let completion_rate := if truthy year_ended then f_0_85 else f_0_7 in
  (* engagement = min(1.0, (popularity + trending) / 2.0) *)
  let engagement := fmin f_1 (fdiv (fadd popularity trending) f_2) in
  Ok {| popularity := popularity; trending := trending;
        completion_rate := completion_rate; engagement := engagement |}.

Definition score_triples (work_uri : string) (sc : scores) : list string :=
  [ triple work_uri (ns "popularityScore")
      (typed_lit (format_fixed 3 (popularity sc)) "float");
    triple work_uri (ns "trendingScore")
      (typed_lit (format_fixed 3 (trending sc)) "float");
    triple work_uri (ns "completionRate")
      (typed_lit (format_fixed 2 (completion_rate sc)) "float");
    triple work_uri (ns "engagementScore")
      (typed_lit (format_fixed 3 (engagement sc)) "float") ].

Definition genre_to_theme : list (string * string) :=
  [ ("superhero", "Heroism"); ("fantasy", "Magic"); ("sci-fi", "Technology");
    ("horror", "Survival"); ("crime", "Justice"); ("romance", "Love") ].

Definition theme_triples (work_uri : string) (genre : json) : result (list string) :=
  genre_lower <- genre_name_lower genre ;;
  Ok (flat_map
        (fun kt =>
           if contains (fst kt) genre_lower then
             let theme_uri := data ("theme/" ++ safe_uri (snd kt)) in
             [ triple theme_uri "a" (ns "Theme");
               triple theme_uri RDFS_LABEL (lit (snd kt));
               triple work_uri (ns "hasTheme") theme_uri ]
           else [])
        genre_to_theme).

Definition generate_series_triples (series_id : json) (series_data : json)
  : result (list string) :=
  let work_uri := data ("work/series_" ++ py_str series_id) in
  name <- subscript series_data "name" ;;
  let triples :=
    [ triple work_uri "a" (ns "StoryWork");
      triple work_uri RDFS_LABEL (lit (escape_sparql_string name));
      triple work_uri (ns "seriesName") (lit (escape_sparql_string name)) ] in
  sort_name <- opt_field series_data "sort_name"
    (fun v => triple work_uri (ns "sortName") (lit (escape_sparql_string v))) ;;
  volume <- opt_field series_data "volume"
    (fun v => triple work_uri (ns "volume") (typed_lit (py_str v) "int")) ;;
  year_began <- opt_field series_data "year_began"
    (fun v => triple work_uri (ns "yearBegan") (typed_lit (py_str v) "int")) ;;
  year_ended <- opt_field series_data "year_ended"
    (fun v => triple work_uri (ns "yearEnded") (typed_lit (py_str v) "int")) ;;
  issue_count <- opt_field series_data "count_of_issues"
    (fun v => triple work_uri (ns "issueCount") (typed_lit (py_str v) "int")) ;;
  series_type <-
    (has <- has_key "series_type" series_data ;;
     if has then
       st <- subscript series_data "series_type" ;;
       if truthy st then
         n <- subscript st "name" ;;
         Ok [triple work_uri (ns "seriesType") (lit (escape_sparql_string n))]
       else Ok []
     else Ok []) ;;
  genres <-
    (has <- has_key "genres" series_data ;;
     if has then
       gs <- subscript series_data "genres" ;;
       gl <- py_iter gs ;;
       flat_mapM (genre_triples work_uri) gl
     else Ok []) ;;
  publisher <-
    (p <- get series_data "publisher" ;;
     if truthy p then
       pid <- subscript p "id" ;;
       Ok [triple work_uri (ns "publishedBy") (data ("org/" ++ py_str pid))]
     else Ok []) ;;
  synopsis <- opt_text series_data "desc" 1000
    (fun d => triple work_uri (ns "synopsis") (lit d)) ;;
  sc <- series_scores series_data ;;
  tone_value <- infer_tone series_data ;;
  let tone_uri := data ("tone/" ++ safe_uri tone_value) in
  let tone :=
    [ triple tone_uri "a" (ns "Tone");
      triple tone_uri RDFS_LABEL (lit tone_value);
      triple work_uri (ns "hasTone") tone_uri ] in
  gs <- get_default series_data "genres" (JArr []) ;;
  gl <- py_iter gs ;;
  themes <- flat_mapM (theme_triples work_uri) gl ;;
  Ok (triples ++ sort_name ++ volume ++ year_began ++ year_ended ++ issue_count
        ++ series_type ++ genres ++ publisher ++ synopsis
        ++ score_triples work_uri sc ++ tone ++ themes)%list.

(** [page_count > 100] *)
Definition gt_100 (v : json) : result bool :=
  n <- as_number v ;; Ok (num_gt n (NInt 100)).

Definition infer_format_class (issue_data : json) : result string :=
  series <- get_default issue_data "series" (JObj []) ;;
  st <- get_default series "series_type" (JObj []) ;;
  n <- get_default st "name" (JStr "") ;;
  series_type <- str_lower n ;;
  pc <- get issue_data "page_count" ;;
  let page_count := if truthy pc then pc else JInt 0 in
  if contains "trade paperback" series_type || contains "tpb" series_type
  then Ok "TradePaperback"
  else if contains "hardcover" series_type || contains "hc" series_type
  then Ok "Hardcover"
  else if contains "digital" series_type then Ok "DigitalChapter"
  else if contains "graphic novel" series_type then Ok "GraphicNovel"
  else if truthy page_count then
    big <- gt_100 page_count ;;
    Ok (if big then "CollectedEdition" else "SingleIssue")
  else Ok "SingleIssue".

Definition generate_issue_triples (issue_data : json) : result (list string) :=
  issue_id <- subscript issue_data "id" ;;
  let expr_uri := data ("expression/issue_" ++ py_str issue_id) in
  let triples := [ triple expr_uri "a" (ns "StoryExpression") ] in
  issue_name <-
    (v <- get issue_data "issue_name" ;;
     Ok (if truthy v then
           [ triple expr_uri RDFS_LABEL (lit (escape_sparql_string v));
             triple expr_uri (ns "issueTitle") (lit (escape_sparql_string v)) ]
         else [])) ;;
  number <- opt_field issue_data "number"
    (fun v => triple expr_uri (ns "issueNumber") (lit (escape_sparql_string v))) ;;
  cover_date <- opt_field issue_data "cover_date"
    (fun v => triple expr_uri (ns "coverDate") (typed_lit (py_str v) "date")) ;;
  store_date <- opt_field issue_data "store_date"
    (fun v => triple expr_uri (ns "storeDate") (typed_lit (py_str v) "date")) ;;
  price <- opt_field issue_data "price"
    (fun v => triple expr_uri (ns "msrp") (typed_lit (py_str v) "decimal")) ;;
  page_count <- opt_field issue_data "page_count"
    (fun v => triple expr_uri (ns "pageCount") (typed_lit (py_str v) "int")) ;;
  desc <- opt_text issue_data "desc" 1000
    (fun d => triple expr_uri (ns "description") (lit d)) ;;
  sku <- opt_field issue_data "sku"
    (fun v => triple expr_uri (ns "sku") (lit (escape_sparql_string v))) ;;
  upc <- opt_field issue_data "upc"
    (fun v => triple expr_uri (ns "upc") (lit (escape_sparql_string v))) ;;
  image <- opt_field issue_data "image"
    (fun v => triple expr_uri (ns "coverImage")
                (typed_lit (escape_sparql_string v) "anyURI")) ;;
  isbn <- opt_field issue_data "isbn"
    (fun v => triple expr_uri (ns "isbn") (lit (escape_sparql_string v))) ;;
  series <-
    (has <- has_key "series" issue_data ;;
     if has then
       s <- subscript issue_data "series" ;;
       if truthy s then
         sid <- subscript s "id" ;;
         let work_uri := data ("work/series_" ++ py_str sid) in
         Ok [ triple expr_uri (ns "expressionOf") work_uri;
              triple work_uri (ns "hasExpression") expr_uri ]
       else Ok []
     else Ok []) ;;
  publisher <-
    (has <- has_key "publisher" issue_data ;;
     if has then
       p <- subscript issue_data "publisher" ;;
       if truthy p then
         pid <- subscript p "id" ;;
         Ok [triple expr_uri (ns "publishedBy") (data ("org/" ++ py_str pid))]
       else Ok []
     else Ok []) ;;
  let manif_uri := data ("manifestation/issue_" ++ py_str issue_id) in
  let manifestation :=
    [ triple manif_uri "a" (ns "Manifestation");
      triple expr_uri (ns "hasManifestation") manif_uri;
      triple manif_uri (ns "manifestationOf") expr_uri ] in
  format_class <- infer_format_class issue_data ;;
  let format_uri := data ("format/" ++ safe_uri format_class) in
  let format :=
    [ triple format_uri "a" (ns "FormatClass");
      triple format_uri RDFS_LABEL (lit format_class);
      triple manif_uri (ns "hasFormatClass") format_uri ] in
  Ok (triples ++ issue_name ++ number ++ cover_date ++ store_date ++ price
        ++ page_count ++ desc ++ sku ++ upc ++ image ++ isbn ++ series
        ++ publisher ++ manifestation ++ format)%list.

(** One entry of [credit.get("role", [])]. *)
Definition role_triples (credit_uri : string) (role_data : json)
  : result (list string) :=
  role_name <- subscript role_data "name" ;;
  let role_uri := "<" ++ NAMESPACE ++ safe_uri (py_str role_name) ++ ">" in
  Ok [ triple credit_uri (ns "creditRole") role_uri;
       triple credit_uri ("<" ++ BASE_URI ++ "roleName>")
         (lit (escape_sparql_string role_name)) ].

Definition generate_credit_triples (issue_id : json) (credit : json)
    (credit_index : nat) : result (list string) :=
  cid <- subscript credit "id" ;;
  let credit_uri :=
    data ("credit/" ++ py_str issue_id ++ "_" ++ py_str cid ++ "_"
            ++ Z_to_string (Z.of_nat credit_index)) in
  let person_uri := data ("person/" ++ py_str cid) in
  let expr_uri := data ("expression/issue_" ++ py_str issue_id) in
  creator <- subscript credit "creator" ;;
  let triples :=
    [ triple credit_uri "a" (ns "CreditRelationship");
      triple person_uri (ns "hasCreditRelationship") credit_uri;
      triple credit_uri (ns "creditsExpression") expr_uri;
      triple credit_uri (ns "creditedName") (lit (escape_sparql_string creator));
      triple credit_uri (ns "billingOrder")
        (typed_lit (Z_to_string (Z.of_nat credit_index)) "int") ] in
  rs <- get_default credit "role" (JArr []) ;;
  rl <- py_iter rs ;;
  roles <- flat_mapM (role_triples credit_uri) rl ;;
  Ok (triples ++ roles)%list.

(** The theme tags read off a character's lower-cased name. *)
Definition character_themes (char_name_lower : string) : list string :=
  ((if any_in ["spider"; "web"; "arachnid"] char_name_lower
    then ["Spider-Powers"] else [])
   ++ (if any_in ["dark"; "shadow"; "night"] char_name_lower
       then ["Dark-Vigilante"] else [])
   ++ (if any_in ["super"; "man"; "woman"; "girl"; "boy"] char_name_lower
       then ["Superhero"] else []))%list.

Definition generate_character_triples (char_data : json) (series_id : json)
    (issue_id : json) : result (list string) :=
  cid <- get_default char_data "id" (JStr "") ;;
  char_id <-
    (if truthy cid then Ok (py_str cid)
     else n <- subscript char_data "name" ;; Ok (safe_uri (py_str n))) ;;
  let char_uri := data ("character/" ++ char_id) in
  name <- subscript char_data "name" ;;
  let triples :=
    [ triple char_uri "a" (ns "Character");
      triple char_uri RDFS_LABEL (lit (escape_sparql_string name));
      triple char_uri (ns "characterName") (lit (escape_sparql_string name)) ] in
  real_name <- opt_field char_data "real_name"
    (fun v => triple char_uri (ns "realName") (lit (escape_sparql_string v))) ;;
  al <- get char_data "aliases" ;;
  let aliases :=
    if truthy al then
      match al with
      | JStr _ => [triple char_uri (ns "aliases") (lit (escape_sparql_string al))]
      | JArr items =>
          map (fun alias =>
                 triple char_uri (ns "aliases") (lit (escape_sparql_string alias)))
              items
      | _ => []
      end
    else [] in
  origin <- opt_text char_data "origin" 500
    (fun d => triple char_uri (ns "origin") (lit d)) ;;
  powers <- opt_text char_data "powers" 1000
    (fun d => triple char_uri (ns "powers") (lit d)) ;;
  bio <- opt_text char_data "desc" 1000
    (fun d => triple char_uri (ns "bio") (lit d)) ;;
  first_appearance <-
    (if truthy issue_id then
       fa <- get char_data "first_appeared_in_issue" ;;
       if truthy fa then
         fid <- get fa "id" ;;
         if String.eqb (py_str fid) (py_str issue_id) then
           let expr_uri := data ("expression/issue_" ++ py_str issue_id) in
           Ok [ triple char_uri (ns "firstAppearanceIn") expr_uri;
                triple expr_uri (ns "firstAppearance") char_uri ]
         else Ok []
       else Ok []
     else Ok []) ;;
  let franchise :=
    if truthy series_id then
      [ triple char_uri (ns "belongsToFranchise")
          (data ("work/series_" ++ py_str series_id)) ]
    else [] in
  char_name_lower <- str_lower name ;;
  let tags :=
    flat_map
      (fun theme_name =>
         let tag_uri := data ("tag/" ++ safe_uri theme_name) in
         [ triple tag_uri "a" (ns "Tag");
           triple tag_uri RDFS_LABEL (lit theme_name) ])
      (character_themes char_name_lower) in
  Ok (triples ++ real_name ++ aliases ++ origin ++ powers ++ bio
        ++ first_appearance ++ franchise ++ tags)%list.

Definition generate_group_triples (team_data : json) : result (list string) :=
  (* the method [team_data.get] is looked up before its arguments are evaluated *)
  _ <- get team_data "id" ;;
  name <- subscript team_data "name" ;;
  tid <- get_default team_data "id" (JStr (safe_uri (py_str name))) ;;
  let team_uri := data ("group/" ++ py_str tid) in
  let triples :=
    [ triple team_uri "a" (ns "Group");
      triple team_uri RDFS_LABEL (lit (escape_sparql_string name));
      triple team_uri (ns "groupName") (lit (escape_sparql_string name));
      triple team_uri (ns "groupType") (lit "Hero Team") ] in
  purpose <- opt_text team_data "desc" 1000
    (fun d => triple team_uri (ns "purpose") (lit d)) ;;
  Ok (triples ++ purpose)%list.

Definition generate_universe_triples (universe_data : json)
  : result (list string) :=
  n0 <- get_default universe_data "name" (JStr "") ;;
  univ_id <- get_default universe_data "id" (JStr (safe_uri (py_str n0))) ;;
  n <- get universe_data "name" ;;
  if negb (truthy univ_id) || negb (truthy n) then Ok []
  else
    let univ_uri := data ("universe/" ++ py_str univ_id) in
    name <- subscript universe_data "name" ;;
    let triples :=
      [ triple univ_uri "a" (ns "Universe");
        triple univ_uri RDFS_LABEL (lit (escape_sparql_string name));
        triple univ_uri (ns "universeName") (lit (escape_sparql_string name)) ] in
    name_lower <- str_lower name ;;
    let designation :=
      if contains "earth" name_lower || contains "universe" name_lower
      then [triple univ_uri (ns "designation") (lit (escape_sparql_string name))]
      else [] in
    description <- opt_text universe_data "desc" 1000
      (fun d => triple univ_uri (ns "universeDescription") (lit d)) ;;
    Ok (triples ++ designation ++ description)%list.

(** ** One issue: the full generator chain and its update block *)

(** [if k in issue and issue[k]: ...] for a publisher or an imprint. *)
Definition org_of (issue : json) (k : string) (org_type : string)
  : result (list string) :=
  has <- has_key k issue ;;
  if has then
    org <- subscript issue k ;;
    if truthy org then
      oid <- subscript org "id" ;;
      oname <- subscript org "name" ;;
      Ok (generate_org_triples oid oname org_type)
    else Ok []
  else Ok [].

(** [issue["series"]] when present and true, [None] otherwise. *)
Definition series_of (issue : json) : result (option json) :=
  has <- has_key "series" issue ;;
  if has then
    s <- subscript issue "series" ;;
    Ok (if truthy s then Some s else None)
  else Ok None.

(** [for idx, x in enumerate(xs): acc.extend(f(idx, x))] *)
Fixpoint flat_mapM_idx {A B : Type} (f : nat -> A -> result (list B))
    (idx : nat) (xs : list A) : result (list B) :=
  match xs with
  | [] => Ok []
  | x :: xs' =>
      ys <- f idx x ;; zs <- flat_mapM_idx f (S idx) xs' ;; Ok (ys ++ zs)%list
  end.

Definition all_triples_of (issue : json) : result (list string) :=
  issue_id <- subscript issue "id" ;;
  publisher <- org_of issue "publisher" "Publisher" ;;
  imprint <- org_of issue "imprint" "Imprint" ;;
  series <-
    (s <- series_of issue ;;
     match s with
     | Some sd => sid <- subscript sd "id" ;; generate_series_triples sid sd
     | None => Ok []
     end) ;;
  expression <- generate_issue_triples issue ;;
  cs <- get_default issue "credits" (JArr []) ;;
  cl <- py_iter cs ;;
  credits <-
    flat_mapM_idx
      (fun idx credit =>
         cid <- subscript credit "id" ;;
         creator <- subscript credit "creator" ;;
         ct <- generate_credit_triples issue_id credit idx ;;
         Ok (generate_person_triples cid creator ++ ct)%list)
      0 cl ;;
  chs <- get_default issue "characters" (JArr []) ;;
  chl <- py_iter chs ;;
  characters <-
    flat_mapM
      (fun char =>
         s <- series_of issue ;;
         series_id <-
           match s with
           | Some sd => subscript sd "id"
           | None => Ok JNull
           end ;;
         generate_character_triples char series_id issue_id)
      chl ;;
  ts <- get_default issue "teams" (JArr []) ;;
  tl <- py_iter ts ;;
  teams <- flat_mapM generate_group_triples tl ;;
  us <- get_default issue "universes" (JArr []) ;;
  ul <- py_iter us ;;
  universes <- flat_mapM generate_universe_triples ul ;;
  Ok (publisher ++ imprint ++ series ++ expression ++ credits ++ characters
        ++ teams ++ universes)%list.

Definition block_open : string := "INSERT DATA {" ++ NL.
Definition triple_line (t : string) : string := "  " ++ t ++ NL.
Definition block_close : string := "} ;" ++ NL ++ NL.

(** [process_issue]: the lines of the update block of one issue. *)
Definition process_issue (issue : json) : result (list string) :=
  all_triples <- all_triples_of issue ;;
  match all_triples with
  | [] => Ok []
  | _ :: _ =>
      Ok (block_open :: (map triple_line all_triples ++ [block_close]))%list
  end.

(** ** The streaming array scanner *)

(** What the generator [stream_json_array] does, in order: it yields a decoded
    element, or prints a warning on [sys.stderr] and goes on, or raises an
    exception that [json.loads] raised, which ends it. *)
Inductive event : Type :=
| Yield (obj : json)
| Warning (msg : string)
| Abort (e : exn).

Record scan_state : Type := {
  buffer : string;
  brace_depth : Z;
  in_string : bool;
  escape_next : bool;
  count : Z
}.

Definition initial_state : scan_state :=
  {| buffer := ""; brace_depth := 0; in_string := false; escape_next := false;
     count := 0 |}.

(** [buffer += char] *)
Definition push (s : string) (c : ascii) : string := s ++ String c "".

(** [limit and count >= limit] *)
Definition limit_reached (limit : option Z) (count : Z) : bool :=
  match limit with
  | Some l => negb (l =? 0)%Z && (l <=? count)%Z
  | None => false
  end.

(** The loop over the characters that follow the first line. *)
Fixpoint scan (limit : option Z) (chars : string) (st : scan_state) : list event :=
  match chars with
  | EmptyString => []
  | String char rest =>
      if escape_next st then
        scan limit rest
          {| buffer := push (buffer st) char; brace_depth := brace_depth st;
             in_string := in_string st; escape_next := false; count := count st |}
      else if Ascii.eqb char backslash_char && in_string st then
        scan limit rest
          {| buffer := push (buffer st) char; brace_depth := brace_depth st;
             in_string := in_string st; escape_next := true; count := count st |}
      else
        let in_string' :=
          if Ascii.eqb char dquote_char then negb (in_string st) else in_string st in
        let depth' :=
          if in_string' then brace_depth st
          else if Ascii.eqb char "{"%char then (brace_depth st + 1)%Z
          else if Ascii.eqb char "}"%char then (brace_depth st - 1)%Z
          else brace_depth st in
        let buffer' := push (buffer st) char in
        if (depth' =? 0)%Z && negb (is_empty (strip buffer')) && negb in_string' then
          let obj_str := rstrip_with is_comma (strip buffer') in
          let reset n :=
            {| buffer := ""; brace_depth := depth'; in_string := in_string';
               escape_next := false; count := n |} in
          if negb (is_empty obj_str) && negb (String.eqb obj_str "]") then
            match json_loads obj_str with
            | Decoded obj =>
                Yield obj ::
                  (if limit_reached limit (count st + 1) then []
                   else scan limit rest (reset (count st + 1)%Z))
            | DecodeError e => Warning e :: scan limit rest (reset (count st))
            | DecodeRaise e => [Abort e]
            end
          else scan limit rest (reset (count st))
        else
          scan limit rest
            {| buffer := buffer'; brace_depth := depth'; in_string := in_string';
               escape_next := false; count := count st |}
  end.

(** [file_handle.readline()]: the first line with its newline, and the rest. *)
Fixpoint readline (s : string) : string * string :=
  match s with
  | EmptyString => (EmptyString, EmptyString)
  | String c s' =>
      if Ascii.eqb c newline_char then (String c "", s')
      else let (line, rest) := readline s' in (String c line, rest)
  end.

(** [stream_json_array(file_handle, limit)] on a file whose text is
    [content]. *)
Definition stream_json_array (content : string) (limit : option Z)
  : result (list event) :=
  let (line, rest) := readline content in
  if startswith (strip line) "[" then Ok (scan limit rest initial_state)
  else Raise (ValueError "Expected JSON array").

(** The elements a run yields, in order, the warnings it prints, and the
    exception that ends it, if any. *)
Fixpoint yielded (evs : list event) : list json :=
  match evs with
  | [] => []
  | Yield obj :: evs' => obj :: yielded evs'
  | Warning _ :: evs' => yielded evs'
  | Abort _ :: _ => []
  end.

Fixpoint warnings (evs : list event) : list string :=
  match evs with
  | [] => []
  | Yield _ :: evs' => warnings evs'
  | Warning msg :: evs' => msg :: warnings evs'
  | Abort _ :: _ => []
  end.

Fixpoint aborted (evs : list event) : option exn :=
  match evs with
  | [] => None
  | Yield _ :: evs' => aborted evs'
  | Warning _ :: evs' => aborted evs'
  | Abort e :: _ => Some e
  end.

(** ** The pipeline driver *)

Record driver_state : Type := {
  issue_count : Z;
  skipped : Z;
  sparql_buffer : list string;
  diagnostics : list string
}.

Definition warning_line (e : string) : string :=
  "Warning: Failed to parse object: " ++ e.
Definition progress_line (n : Z) : string :=
  "Processed " ++ Z_to_string n ++ " issues...".
Definition total_line (n : Z) : string :=
  NL ++ "Total issues processed: " ++ Z_to_string n.

(** The body of [for issue in stream_json_array(f, args.limit)]; the second
    component is the exception that ended the loop, if any: one that
    [process_issue] raised, or one that the generator raised. *)
Fixpoint drive (skip : Z) (evs : list event) (st : driver_state)
  : driver_state * option exn :=
  match evs with
  | [] => (st, None)
  | Abort e :: _ => (st, Some e)
  | Warning e :: evs' =>
      drive skip evs'
        {| issue_count := issue_count st; skipped := skipped st;
           sparql_buffer := sparql_buffer st;
           diagnostics := (diagnostics st ++ [warning_line e])%list |}
  | Yield issue :: evs' =>
      if (skipped st <? skip)%Z then
        drive skip evs'
          {| issue_count := issue_count st; skipped := (skipped st + 1)%Z;
             sparql_buffer := sparql_buffer st; diagnostics := diagnostics st |}
      else
        let n := (issue_count st + 1)%Z in
        match process_issue issue with
        | Raise e =>
            ({| issue_count := n; skipped := skipped st;
                sparql_buffer := sparql_buffer st;
                diagnostics := diagnostics st |}, Some e)
        | Ok lines =>
            drive skip evs'
              {| issue_count := n; skipped := skipped st;
                 sparql_buffer := (sparql_buffer st ++ lines)%list;
                 diagnostics :=
                   if (n mod 100 =? 0)%Z
                   then (diagnostics st ++ [progress_line n])%list
                   else diagnostics st |}
        end
  end.

(** [''.join(lines)] *)
Fixpoint join (lines : list string) : string :=
  match lines with
  | [] => EmptyString
  | l :: ls => l ++ join ls
  end.

Definition header (input_file : string) : string :=
  "# SPARQL INSERT statements generated from " ++ input_file ++ NL
  ++ "# Namespace: " ++ NAMESPACE ++ NL
  ++ "# Base URI: " ++ BASE_URI ++ NL ++ NL.

(** What is written after the header once the loop is over. *)
Definition final_text (sparql_buffer : list string) : string :=
  match sparql_buffer with
  | [] => EmptyString
  | _ :: _ =>
      let sparql_text := rstrip (join sparql_buffer) in
      let sparql_text :=
        if endswith sparql_text ";" then drop_last sparql_text else sparql_text in
      sparql_text ++ NL
  end.

(** What one run leaves behind: the text written to the output sink, the lines
    printed on [sys.stderr], and the exception that ended it, if any. *)
Record outcome : Type := {
  stdout : string;
  stderr : list string;
  raised : option exn
}.

Definition initial_driver_state : driver_state :=
  {| issue_count := 0; skipped := 0; sparql_buffer := []; diagnostics := [] |}.

(** [main] with [args.input_file], the text of that file, [args.limit] and
    [args.skip]. *)
Definition main (input_file content : string) (limit : option Z) (skip : Z)
  : outcome :=
  match stream_json_array content limit with
  | Raise e => {| stdout := header input_file; stderr := []; raised := Some e |}
  | Ok evs =>
      match drive skip evs initial_driver_state with
      | (st, Some e) =>
          {| stdout := header input_file; stderr := diagnostics st;
             raised := Some e |}
      | (st, None) =>
          {| stdout := header input_file ++ final_text (sparql_buffer st);
             stderr := (diagnostics st ++ [total_line (issue_count st)])%list;
             raised := None |}
      end
  end.

End Model.

(** ** An executable runtime

    [ref_runtime] runs the model on concrete inputs.  Its decoder reads JSON
    text whose strings stay below U+0100 ([\uXXXX] escapes included) and
    reports every failure with one of two fixed messages; a number with a
    fraction or an exponent is decoded to the float nearest to the decimal
    its digits denote.  It raises nothing but [JSONDecodeError]. *)

Module Ref.

Definition is_json_space (c : ascii) : bool :=
  let n := nat_of_ascii c in
  ((n =? 32) || (n =? 9) || (n =? 10) || (n =? 13))%nat.

Fixpoint skip_ws (s : string) : string :=
  match s with
  | EmptyString => EmptyString
  | String c s' => if is_json_space c then skip_ws s' else s
  end.

Definition digit_val (c : ascii) : option Z :=
  let n := nat_of_ascii c in
  if ((48 <=? n) && (n <=? 57))%nat then Some (Z.of_nat (n - 48)) else None.

Definition hex_val (c : ascii) : option nat :=
  let n := nat_of_ascii c in
  if ((48 <=? n) && (n <=? 57))%nat then Some (n - 48)%nat
  else if ((65 <=? n) && (n <=? 70))%nat then Some (n - 55)%nat
  else if ((97 <=? n) && (n <=? 102))%nat then Some (n - 87)%nat
  else None.

(** The digits at the head of [s]: their value, how many, and what follows. *)
Fixpoint read_digits (s : string) (acc : Z) (n : nat) : Z * nat * string :=
  match s with
  | EmptyString => (acc, n, s)
  | String c s' =>
      match digit_val c with
      | Some d => read_digits s' (acc * 10 + d)%Z (S n)
      | None => (acc, n, s)
      end
  end.

Definition read_exponent (s : string) : option (Z * string) :=
  match s with
  | String c s' =>
      if Ascii.eqb c "e"%char || Ascii.eqb c "E"%char then
        let '(neg, s'') :=
          match s' with
          | String "-"%char t => (true, t)
          | String "+"%char t => (false, t)
          | _ => (false, s')
          end in
        let '(e, n, rest) := read_digits s'' 0%Z 0 in
        if (n =? 0)%nat then None else Some (if neg then (- e)%Z else e, rest)
      else Some (0%Z, s)
  | EmptyString => Some (0%Z, s)
  end.

(** The float nearest to [m * 10 ^ e], ties to even, for [0 <= m]: what
    [float] makes of a decimal numeral.  A quotient of two integers is
    rounded once. *)
Definition float_of_decimal (neg : bool) (m e : Z) : float :=
  match m with
  | Zpos p =>
      if (0 <=? e)%Z then
        binary_normalize prec emax
          (if neg then (- (m * 10 ^ e))%Z else (m * 10 ^ e)%Z) 0 false
      else
        match (10 ^ (- e))%Z with
        | Zpos d => fdiv (S754_finite neg p 0) (S754_finite false d 0)
        | _ => S754_nan
        end
  | _ => S754_zero neg
  end.

(** A JSON number, after the optional sign has been read. *)
Definition read_number (neg : bool) (s : string) : option (json * string) :=
  let '(ip, n, rest) := read_digits s 0%Z 0 in
  if (n =? 0)%nat then None
  else if (1 <? n)%nat && prefix "0" s then None
  else
    let sign (z : Z) := if neg then (- z)%Z else z in
    match rest with
    | String "."%char rest' =>
        let '(fp, k, rest'') := read_digits rest' 0%Z 0 in
        if (k =? 0)%nat then None
        else
          match read_exponent rest'' with
          | Some (e, rest3) =>
              Some (JFloat (float_of_decimal neg (ip * 10 ^ Z.of_nat k + fp)%Z
                              (e - Z.of_nat k)%Z), rest3)
          | None => None
          end
    | String c _ =>
        if Ascii.eqb c "e"%char || Ascii.eqb c "E"%char then
          match read_exponent rest with
          | Some (e, rest3) => Some (JFloat (float_of_decimal neg ip e), rest3)
          | None => None
          end
        else Some (JInt (sign ip), rest)
    | EmptyString => Some (JInt (sign ip), rest)
    end.

(** The body of a string literal, after its opening quote. *)
Fixpoint read_string (s : string) : option (string * string) :=
  match s with
  | EmptyString => None
  | String c s' =>
      if Ascii.eqb c dquote_char then Some (EmptyString, s')
      else if Ascii.eqb c backslash_char then
        match s' with
        | String e t =>
            let plain (x : ascii) :=
              match read_string t with
              | Some (body, rest) => Some (String x body, rest)
              | None => None
              end in
            if Ascii.eqb e dquote_char then plain dquote_char
            else if Ascii.eqb e backslash_char then plain backslash_char
            else if Ascii.eqb e "/"%char then plain "/"%char
            else if Ascii.eqb e "b"%char then plain (ascii_of_nat 8)
            else if Ascii.eqb e "f"%char then plain (ascii_of_nat 12)
            else if Ascii.eqb e "n"%char then plain newline_char
            else if Ascii.eqb e "r"%char then plain return_char
            else if Ascii.eqb e "t"%char then plain (ascii_of_nat 9)
            else if Ascii.eqb e "u"%char then
              match t with
              | String a (String b (String x (String y t'))) =>
                  match hex_val a, hex_val b, hex_val x, hex_val y, read_string t' with
                  | Some 0%nat, Some 0%nat, Some h, Some l, Some (body, rest) =>
                      Some (String (ascii_of_nat (16 * h + l)) body, rest)
                  | _, _, _, _, _ => None
                  end
              | _ => None
              end
            else None
        | EmptyString => None
        end
      else if (nat_of_ascii c <? 32)%nat then None
      else
        match read_string s' with
        | Some (body, rest) => Some (String c body, rest)
        | None => None
        end
  end.

(** [d[k] = v]: a repeated key keeps its place and takes the last value. *)
Fixpoint dict_set (fields : list (string * json)) (k : string) (v : json)
  : list (string * json) :=
  match fields with
  | [] => [(k, v)]
  | (k', v') :: rest =>
      if String.eqb k' k then (k, v) :: rest else (k', v') :: dict_set rest k v
  end.

Fixpoint read_value (fuel : nat) (s : string) : option (json * string) :=
  match fuel with
  | O => None
  | S fuel' =>
      match skip_ws s with
      | EmptyString => None
      | String c rest as s0 =>
          if Ascii.eqb c "{"%char then
            match skip_ws rest with
            | String "}"%char rest' => Some (JObj [], rest')
            | _ => read_members fuel' rest []
            end
          else if Ascii.eqb c "["%char then
            match skip_ws rest with
            | String "]"%char rest' => Some (JArr [], rest')
            | _ => read_items fuel' rest []
            end
          else if Ascii.eqb c dquote_char then
            match read_string rest with
            | Some (body, rest') => Some (JStr body, rest')
            | None => None
            end
          else if prefix "true" s0 then Some (JBool true, substring 4 (length s0) s0)
          else if prefix "false" s0 then Some (JBool false, substring 5 (length s0) s0)
          else if prefix "null" s0 then Some (JNull, substring 4 (length s0) s0)
          else if prefix "NaN" s0 then
            Some (JFloat S754_nan, substring 3 (length s0) s0)
          else if prefix "Infinity" s0 then
            Some (JFloat (S754_infinity false), substring 8 (length s0) s0)
          else if prefix "-Infinity" s0 then
            Some (JFloat (S754_infinity true), substring 9 (length s0) s0)
          else if Ascii.eqb c "-"%char then read_number true rest
          else read_number false s0
      end
  end

with read_items (fuel : nat) (s : string) (acc : list json)
  : option (json * string) :=
  match fuel with
  | O => None
  | S fuel' =>
      match read_value fuel' s with
      | Some (v, rest) =>
          match skip_ws rest with
          | String ","%char rest' => read_items fuel' rest' (acc ++ [v])%list
          | String "]"%char rest' => Some (JArr (acc ++ [v])%list, rest')
          | _ => None
          end
      | None => None
      end
  end

with read_members (fuel : nat) (s : string) (acc : list (string * json))
  : option (json * string) :=
  match fuel with
  | O => None
  | S fuel' =>
      match skip_ws s with
      | String c rest =>
          if Ascii.eqb c dquote_char then
            match read_string rest with
            | Some (k, rest1) =>
                match skip_ws rest1 with
                | String ":"%char rest2 =>
                    match read_value fuel' rest2 with
                    | Some (v, rest3) =>
                        match skip_ws rest3 with
                        | String ","%char rest4 =>
                            read_members fuel' rest4 (dict_set acc k v)
                        | String "}"%char rest4 => Some (JObj (dict_set acc k v), rest4)
                        | _ => None
                        end
                    | None => None
                    end
                | _ => None
                end
            | None => None
            end
          else None
      | EmptyString => None
      end
  end.

Definition json_loads (s : string) : decoded :=
  match read_value (2 * length s + 2) s with
  | Some (v, rest) =>
      if is_empty (skip_ws rest) then Decoded v else DecodeError "Extra data"
  | None => DecodeError "Expecting value"
  end.

(** [format(x, '.<d>f')]: the exact value of the float, rounded to [d]
    decimals, ties to even. *)
Fixpoint zeros (n : nat) : string :=
  match n with
  | O => EmptyString
  | S n' => String "0"%char (zeros n')
  end.

Definition pad_zeros (width : nat) (s : string) : string :=
  zeros (width - length s) ++ s.

(** [n / den] rounded to an integer, ties to even, for [0 <= n]. *)
Definition round_half_even (n den : Z) : Z :=
  let fl := (n / den)%Z in
  let rem := (n mod den)%Z in
  if (2 * rem <? den)%Z then fl
  else if (den <? 2 * rem)%Z then (fl + 1)%Z
  else if Z.even fl then fl else (fl + 1)%Z.

(** The digits of the positive rational [n / den], with a sign in front. *)
Definition format_ratio (d : nat) (neg : bool) (n den : Z) : string :=
  let rounded := round_half_even (n * 10 ^ Z.of_nat d) den in
  let ip := (rounded / 10 ^ Z.of_nat d)%Z in
  let fp := (rounded mod 10 ^ Z.of_nat d)%Z in
  (if neg then "-" else "") ++ Z_to_string ip
  ++ (if (d =? 0)%nat then "" else "." ++ pad_zeros d (Z_to_string fp)).

(** The value of a finite float as a quotient of two positive integers. *)
Definition ratio_of (m : positive) (e : Z) : Z * Z :=
  if (0 <=? e)%Z then (Zpos m * 2 ^ e, 1)%Z else (Zpos m, 2 ^ (- e))%Z.

Definition format_fixed (d : nat) (f : float) : string :=
  match f with
  | S754_nan => "nan"
  | S754_infinity s => if s then "-inf" else "inf"
  | S754_zero s => format_ratio d s 0 1
  | S754_finite s m e => let (n, den) := ratio_of m e in format_ratio d s n den
  end.

Definition float_eqb (a b : float) : bool :=
  match a, b with
  | S754_zero s, S754_zero t => Bool.eqb s t
  | S754_infinity s, S754_infinity t => Bool.eqb s t
  | S754_nan, S754_nan => true
  | S754_finite s m e, S754_finite t n k =>
      Bool.eqb s t && Pos.eqb m n && Z.eqb e k
  | _, _ => false
  end.

(** The exponent [k] with [10 ^ k <= n / den < 10 ^ (k + 1)], searched
    downwards from an upper bound. *)
Fixpoint decimal_exponent (fuel : nat) (k n den : Z) : Z :=
  match fuel with
  | O => k
  | S fuel' =>
      if (if (0 <=? k)%Z then (den * 10 ^ k <=? n)%Z
          else (den <=? n * 10 ^ (- k))%Z)
      then k else decimal_exponent fuel' (k - 1) n den
  end.

(** The [p] leading digits of [n / den], rounded, and the exponent of the
    first of them. *)
Definition leading_digits (p : nat) (n den : Z) : Z * Z :=
  let k0 := (Z.of_nat (length (Z_to_string n)))%Z in
  let k := decimal_exponent 700 k0 n den in
  let shift := (Z.of_nat p - 1 - k)%Z in
  let digits :=
    if (0 <=? shift)%Z then round_half_even (n * 10 ^ shift) den
    else round_half_even n (den * 10 ^ (- shift)) in
  if (digits =? 10 ^ Z.of_nat p)%Z then (10 ^ (Z.of_nat p - 1), k + 1)%Z
  else (digits, k).

(** The least number of digits, at most 17, whose rounding of the float
    reads back as the float. *)
Fixpoint shortest_digits (fuel p : nat) (s : bool) (m : positive) (e : Z)
  : nat * (Z * Z) :=
  let (n, den) := ratio_of m e in
  let (digits, k) := leading_digits p n den in
  match fuel with
  | O => (p, (digits, k))
  | S fuel' =>
      if float_eqb (float_of_decimal s digits (k - (Z.of_nat p - 1)))
           (S754_finite s m e)
      then (p, (digits, k))
      else shortest_digits fuel' (S p) s m e
  end.

Fixpoint strip_zeros (s : string) : string :=
  match s with
  | EmptyString => EmptyString
  | String c s' =>
      match strip_zeros s' with
      | EmptyString => if Ascii.eqb c "0"%char then EmptyString else String c ""
      | r => String c r
      end
  end.

(** [repr] of a float: the shortest digits, in positional notation when the
    exponent is between -5 and 15 and in scientific notation otherwise. *)
Definition repr_float (f : float) : string :=
  match f with
  | S754_nan => "nan"
  | S754_infinity s => if s then "-inf" else "inf"
  | S754_zero s => if s then "-0.0" else "0.0"
  | S754_finite s m e =>
      let '(p, (digits, k)) := shortest_digits 16 1 s m e in
      let ds := Z_to_string digits in
      let sign := if s then "-" else "" in
      let point := (k + 1)%Z in
      if ((-4 <? point) && (point <=? 16))%Z then
        if (point <=? 0)%Z then
          sign ++ "0." ++ zeros (Z.to_nat (- point)) ++ strip_zeros ds
        else if (Z.of_nat (length ds) <=? point)%Z then
          sign ++ ds ++ zeros (Z.to_nat point - length ds) ++ ".0"
        else
          sign ++ substring 0 (Z.to_nat point) ds ++ "."
          ++ (match strip_zeros (substring (Z.to_nat point) (length ds) ds) with
              | EmptyString => "0"
              | r => r
              end)
      else
        let frac := strip_zeros (substring 1 (length ds) ds) in
        sign ++ substring 0 1 ds
        ++ (if is_empty frac then "" else "." ++ frac)
        ++ "e" ++ (if (k <? 0)%Z then "-" else "+")
        ++ pad_zeros 2 (Z_to_string (Z.abs k))
  end.

(** [repr] of a float, and of a container whose strings need no escaping. *)
Fixpoint py_repr (v : json) : string :=
  match v with
  | JNull => "None"
  | JBool true => "True"
  | JBool false => "False"
  | JInt n => Z_to_string n
  | JFloat f => repr_float f
  | JStr s => "'" ++ s ++ "'"
  | JArr items =>
      "[" ++ (fix go (l : list json) : string :=
                match l with
                | [] => ""
                | [x] => py_repr x
                | x :: l' => py_repr x ++ ", " ++ go l'
                end) items ++ "]"
  | JObj fields =>
      "{" ++ (fix go (l : list (string * json)) : string :=
                match l with
                | [] => ""
                | [(k, x)] => "'" ++ k ++ "': " ++ py_repr x
                | (k, x) :: l' => "'" ++ k ++ "': " ++ py_repr x ++ ", " ++ go l'
                end) fields ++ "}"
  end.

End Ref.

#[export] Instance ref_runtime : PyRuntime :=
  {| json_loads := Ref.json_loads;
     py_repr := Ref.py_repr;
     format_fixed := Ref.format_fixed;
     format_fixed_070 := eq_refl;
     format_fixed_085 := eq_refl |}.

(** ** Predicates used in the statements *)

Fixpoint all_chars (p : ascii -> bool) (s : string) : bool :=
  match s with
  | EmptyString => true
  | String c s' => p c && all_chars p s'
  end.

(** [c in s] for one character. *)
Fixpoint has_char (c : ascii) (s : string) : bool :=
  match s with
  | EmptyString => false
  | String a s' => Ascii.eqb a c || has_char c s'
  end.

(** The characters [safe_uri] leaves as they are or turns into an underscore. *)
Definition is_plain (c : ascii) : bool :=
  is_unreserved c || Ascii.eqb c " "%char || Ascii.eqb c "/"%char
  || Ascii.eqb c ":"%char.

Definition is_unreserved_or_pct (c : ascii) : bool :=
  is_unreserved c || Ascii.eqb c "%"%char.

(** What a generator returned: its triples, and whether it raised. *)
Definition triples_of (r : result (list string)) : list string :=
  match r with
  | Ok ts => ts
  | Raise _ => []
  end.

Definition succeeds {A : Type} (r : result A) : bool :=
  match r with
  | Ok _ => true
  | Raise _ => false
  end.

(** ** Definitions used in the statements and proofs *)

(** The three replacements of [safe_uri], before [quote]. *)
Definition underscored (s : string) : string :=
  replace_char ":"%char "_"
    (replace_char "/"%char "_" (replace_char " "%char "_" s)).

(** The tone heuristics as an ordered rule list: a rule is a test on the
    lower-cased name+description and the lower-cased genre names, with the tone
    it selects; the first rule that matches wins. *)
Definition tone_rules : list ((string -> list string -> bool) * string) :=
  [ (fun text _ => any_in dark_words text, "Dark");
    (fun text _ => any_in comedic_words text, "Comedic");
    (fun text _ => any_in wholesome_words text, "Wholesome");
    (fun text genres =>
       existsb (String.eqb "horror") genres || any_in horror_words text, "Dark") ].

Fixpoint first_match (rules : list ((string -> list string -> bool) * string))
    (default : string) (text : string) (genres : list string) : string :=
  match rules with
  | [] => default
  | (test, tone) :: rules' =>
      if test text genres then tone else first_match rules' default text genres
  end.

(** A type assertion [s a <class> .] and a label [s rdfs:label "..." .] *)
Definition is_type_triple (t : string) : bool :=
  contains " a <" t && endswith t "> .".

Definition is_label_triple (t : string) : bool :=
  contains (" " ++ RDFS_LABEL ++ " " ++ DQ) t && endswith t (DQ ++ " .").

Definition type_then_label (ts : list string) : bool :=
  match ts with
  | t1 :: t2 :: _ => is_type_triple t1 && is_label_triple t2
  | _ => false
  end.

Definition head_is_type (ts : list string) : bool :=
  match ts with
  | t1 :: _ => is_type_triple t1
  | [] => false
  end.

(** The formulas as the specification words them, read in binary64: every
    division, product, sum and difference is one float operation, rounded on
    its own, in the order the parentheses give. *)

(** yearsActive = max(1, age), with age = 2025 - yearBegan *)
Definition spec_years_active (age : num) : num := py_max (NInt 1) age.

(** popularity = min(1, (issueCount/500) * (yearsActive/20)) *)
Definition spec_popularity (issue_count years_active : float) : float :=
  fmin f_1 (fmul (fdiv issue_count f_500) (fdiv years_active f_20)).

(** max(0, 1 - age/50) *)
Definition spec_recency (age : float) : float :=
  fmax f_0 (fsub f_1 (fdiv age f_50)).

(** trending = min(1, max(0, 1 - age/50) * (issueCount/100)) *)
Definition spec_trending (issue_count age : float) : float :=
  fmin f_1 (fmul (spec_recency age) (fdiv issue_count f_100)).

(** engagement = min(1, (popularity + trending)/2) *)
Definition spec_engagement (popularity trending : float) : float :=
  fmin f_1 (fdiv (fadd popularity trending) f_2).

Definition spec_completion (has_year_ended : bool) : string :=
  if has_year_ended then "0.85" else "0.70".

(** A number that is not below zero. *)
Definition num_nonneg (x : num) : bool :=
  match x with
  | NInt n => (0 <=? n)%Z
  | NFloat f => fle f_0 f
  end.

(** A float that is a positive number: the divisors of the script are. *)
Definition positive_finite (f : float) : bool :=
  match f with
  | S754_finite false _ _ => true
  | _ => false
  end.

(** A float that is a zero, a positive number, or no number. *)
Definition not_negative (f : float) : bool :=
  match f with
  | S754_finite true _ _ | S754_infinity true => false
  | _ => true
  end.

(** A field of a record, or a default when the key is absent. *)
Definition field_or (k : string) (d : json) (fields : list (string * json)) : json :=
  match lookup k fields with
  | Some v => v
  | None => d
  end.

(** The triple that carries one score of the series [series_id]. *)
Definition score_triple {R : PyRuntime} (series_id : json) (property body : string) : string :=
  triple (data ("work/series_" ++ py_str series_id)) (ns property)
    (typed_lit body "float").

(** The lexical shape the scanner relies on.  [strbody] is the inside of a
    string literal: ordinary characters and backslash escapes.  [chunk] is a
    text whose braces are balanced outside string literals and whose string
    literals are closed. *)
Inductive strbody : string -> Prop :=
| strbody_nil : strbody ""
| strbody_plain (c : ascii) (s : string) :
    Ascii.eqb c dquote_char = false -> Ascii.eqb c backslash_char = false ->
    strbody s -> strbody (String c s)
| strbody_escape (c : ascii) (s : string) :
    strbody s -> strbody (String backslash_char (String c s)).

Inductive chunk : string -> Prop :=
| chunk_nil : chunk ""
| chunk_plain (c : ascii) (s : string) :
    Ascii.eqb c dquote_char = false -> Ascii.eqb c "{"%char = false ->
    Ascii.eqb c "}"%char = false ->
    chunk s -> chunk (String c s)
| chunk_string (body s : string) :
    strbody body -> chunk s ->
    chunk (String dquote_char (body ++ String dquote_char s))
| chunk_group (inner s : string) :
    chunk inner -> chunk s ->
    chunk (String "{"%char (inner ++ String "}"%char s)).

(** The text of one array element that is an object: braces around a chunk. *)
Definition object_text (inner : string) : string :=
  String "{"%char (inner ++ "}").

(** White space and commas: what separates the elements of an array. *)
Definition is_gap (c : ascii) : bool := is_space c || is_comma c.

(** A scanner state between two escapes. *)
Definition st_of (buf : string) (depth : Z) (ins : bool) (n : Z) : scan_state :=
  {| buffer := buf; brace_depth := depth; in_string := ins;
     escape_next := false; count := n |}.

(** What the completion step does with a completed-looking segment. *)
Definition event_of {R : PyRuntime} (text : string) : event :=
  match json_loads text with
  | Decoded v => Yield v
  | DecodeError e => Warning e
  | DecodeRaise e => Abort e
  end.

(** The text of an array after its first line: each element is an object text
    preceded by a gap; [closing] holds the closing bracket. *)
Fixpoint array_body (items : list (string * string)) (closing : string) : string :=
  match items with
  | [] => closing
  | (gap, inner) :: items' => gap ++ object_text inner ++ array_body items' closing
  end.

Definition is_gap_or_bracket (c : ascii) : bool := is_gap c || Ascii.eqb c "]"%char.

(** A first line that passes the opening-bracket check. *)
Definition opens_array (first : string) : bool :=
  negb (has_char newline_char first) && startswith (strip first) "[".

(** What the scanner makes of a sequence of object texts: one event each,
    until the limit stops it after a yield. *)
Fixpoint events_upto {R : PyRuntime} (limit : option Z) (n : Z) (texts : list string) : list event :=
  match texts with
  | [] => []
  | text :: texts' =>
      match json_loads text with
      | Decoded obj =>
          Yield obj ::
            (if limit_reached limit (n + 1) then []
             else events_upto limit (n + 1) texts')
      | DecodeError e => Warning e :: events_upto limit n texts'
      | DecodeRaise e => [Abort e]
      end
  end.

(** An item of an array body: a gap of white space and commas, then an object
    text around a chunk. *)
Definition item_ok (item : string * string) : Prop :=
  all_chars is_gap (fst item) = true /\ chunk (snd item).

Definition item_text (item : string * string) : string := object_text (snd item).

Definition no_quote_or_brace (c : ascii) : bool :=
  negb (Ascii.eqb c dquote_char) && negb (Ascii.eqb c "{"%char)
  && negb (Ascii.eqb c "}"%char).

Definition no_quote_or_backslash (c : ascii) : bool :=
  negb (Ascii.eqb c dquote_char) && negb (Ascii.eqb c backslash_char).

(** Sample texts: the object [{"id": n}], whole and cut. *)
Definition sample_inner (n : string) : string := DQ ++ "id" ++ DQ ++ ": " ++ n.

Definition sample_object (n : string) : string := object_text (sample_inner n).

Definition sample_value (n : Z) : json := JObj [("id", JInt n)].

(** Three well-formed issue records, one on each line. *)
Definition three_records : string :=
  "[" ++ NL
      ++ array_body
           [("", sample_inner "1"); ("," ++ NL, sample_inner "2");
            ("," ++ NL, sample_inner "3")] (NL ++ "]" ++ NL).

(** The collected lines are empty or end with the separator of a block. *)
Definition closed_buffer (lines : list string) : Prop :=
  lines = [] \/ exists pre, join lines = pre ++ block_close.

(** ** A serializer

    [dumps] writes a value as [json.dumps] does with its default settings:
    [", "] and [": "] as separators and every character outside the printable
    ASCII range escaped.  It produces the element texts of the round trip. *)

Definition hex_digit_lower (n : nat) : ascii :=
  if (n <? 10)%nat then ascii_of_nat (48 + n) else ascii_of_nat (87 + n).

Definition escape_json_char (c : ascii) : string :=
  let n := nat_of_ascii c in
  if Ascii.eqb c dquote_char then String backslash_char DQ
  else if Ascii.eqb c backslash_char then "\\"
  else if (n =? 10)%nat then "\n"
  else if (n =? 13)%nat then "\r"
  else if (n =? 9)%nat then "\t"
  else if (n =? 8)%nat then "\b"
  else if (n =? 12)%nat then "\f"
  else if ((n <? 32) || (126 <? n))%nat then
    "\u00" ++ String (hex_digit_lower (n / 16))
                (String (hex_digit_lower (n mod 16)) "")
  else String c "".

Fixpoint escape_json (s : string) : string :=
  match s with
  | EmptyString => EmptyString
  | String c s' => escape_json_char c ++ escape_json s'
  end.

Definition dumps_string (s : string) : string := DQ ++ escape_json s ++ DQ.

(** [sep.join(f(x) for x in xs)] *)
Definition join_with {A : Type} (f : A -> string) (sep : string)
  : list A -> string :=
  fix go (xs : list A) : string :=
    match xs with
    | [] => EmptyString
    | [x] => f x
    | x :: xs' => f x ++ sep ++ go xs'
    end.

Fixpoint dumps {R : PyRuntime} (v : json) : string :=
  match v with
  | JNull => "null"
  | JBool true => "true"
  | JBool false => "false"
  | JInt n => Z_to_string n
  | JFloat q => py_repr (JFloat q)
  | JStr s => dumps_string s
  | JArr items => "[" ++ join_with dumps ", " items ++ "]"
  | JObj fields =>
      "{" ++ join_with
               (fun kv => match kv with
                          | (k, x) => dumps_string k ++ ": " ++ dumps x
                          end) ", " fields ++ "}"
  end.

(** The members of an object as [dumps] writes them, between the braces. *)
Definition dumps_members {R : PyRuntime} (fields : list (string * json)) : string :=
  join_with
    (fun kv => match kv with
               | (k, x) => dumps_string k ++ ": " ++ dumps x
               end) ", " fields.

(** One element per line: the first after the opening line, every other one
    after a comma and a newline. *)
Fixpoint one_per_line (inners : list string) (first : bool)
  : list (string * string) :=
  match inners with
  | [] => []
  | inner :: inners' =>
      ((if first then "" else "," ++ NL), inner) :: one_per_line inners' false
  end.

(** ** Definitions for the further properties *)

(** One character as the four replacements of [escape_sparql_string] leave
    it. *)
Definition escape_sparql_char (c : ascii) : string :=
  if Ascii.eqb c backslash_char then "\\"
  else if Ascii.eqb c dquote_char then String backslash_char DQ
  else if Ascii.eqb c newline_char then "\n"
  else if Ascii.eqb c return_char then "\r"
  else String c "".

(** The four passes of [escape_sparql_string] on a text. *)
Definition escape_text (s : string) : string :=
  replace_char return_char "\r"
    (replace_char newline_char "\n"
       (replace_char dquote_char (String backslash_char DQ)
          (replace_char backslash_char "\\" s))).

(** Every character below U+0100. *)
Definition all_ascii : list ascii := map ascii_of_nat (seq 0 256).

(** The characters [safe_uri] writes as an underscore. *)
Definition is_separator (c : ascii) : bool :=
  Ascii.eqb c " "%char || Ascii.eqb c "/"%char || Ascii.eqb c ":"%char
  || Ascii.eqb c "_"%char.

(** Two texts of the same length that agree character by character, up to
    the choice among space, slash, colon and underscore. *)
Fixpoint same_component (s t : string) : bool :=
  match s, t with
  | EmptyString, EmptyString => true
  | String c s', String d t' =>
      (Ascii.eqb c d || is_separator c && is_separator d) && same_component s' t'
  | _, _ => false
  end.

(** The elements the driver hands to [process_issue]: those the scanner
    yields after the first [skip] of them. *)
Definition processed (skip : Z) (evs : list event) : list json :=
  skipn (Z.to_nat skip) (yielded evs).

(** An issue record whose series, or whose series type, is present and null. *)
Definition null_series_or_type (fields : list (string * json)) : bool :=
  match lookup "series" fields with
  | Some JNull => true
  | Some (JObj sf) =>
      match lookup "series_type" sf with
      | Some JNull => true
      | _ => false
      end
  | _ => false
  end.

(** What the scanner makes of text outside any object and any string: white
    space, commas and closing brackets are dropped, every other character is
    decoded on its own (yielded, or reported in a warning; an exception of
    the decoder that is no [JSONDecodeError] ends the scan). *)
Fixpoint char_events {R : PyRuntime} (s : string) : list event :=
  match s with
  | EmptyString => []
  | String c s' =>
      if is_gap_or_bracket c then char_events s'
      else
        match json_loads (String c "") with
        | Decoded obj => Yield obj :: char_events s'
        | DecodeError e => Warning e :: char_events s'
        | DecodeRaise e => [Abort e]
        end
  end.

(** What a run leaves behind when the first line is refused. *)
Definition refused (input_file : string) : outcome :=
  {| stdout := header input_file; stderr := [];
     raised := Some (ValueError "Expected JSON array") |}.

(** The keywords [infer_format_class] looks for in the series type. *)
Definition format_keywords : list string :=
  ["trade paperback"; "tpb"; "hardcover"; "hc"; "digital"; "graphic novel"].

(** The classes a keyword selects. *)
Definition keyword_classes : list string :=
  ["TradePaperback"; "Hardcover"; "DigitalChapter"; "GraphicNovel"].

(** [issue_data.get("series", {}).get("series_type", {}).get("name", "")] *)
Definition series_type_name (issue_data : json) : result json :=
  series <- get_default issue_data "series" (JObj []) ;;
  st <- get_default series "series_type" (JObj []) ;;
  get_default st "name" (JStr "").

(** A record holds no ["id"], or one that tests false (null, empty, zero). *)
Definition id_absent_or_false (fields : list (string * json)) : bool :=
  match lookup "id" fields with
  | Some v => negb (truthy v)
  | None => true
  end.

(** * Facts about strings *)

Lemma append_nil_r (s : string) : s ++ "" = s.
Proof. induction s as [|c s IH]; simpl; [reflexivity | now rewrite IH]. Qed.

Lemma append_assoc (a b c : string) : (a ++ b) ++ c = a ++ (b ++ c).
Proof. induction a as [|x a IH]; simpl; [reflexivity | now rewrite IH]. Qed.

Lemma append_cancel_l (x a b : string) : x ++ a = x ++ b -> a = b.
Proof.
  induction x as [| c x IH]; cbn [append]; intros H; [exact H |].
  injection H as H. now apply IH.
Qed.

Lemma length_append (a b : string) : length (a ++ b) = (length a + length b)%nat.
Proof. induction a as [|x a IH]; simpl; [reflexivity | now rewrite IH]. Qed.

Lemma all_chars_append (p : ascii -> bool) (a b : string) :
  all_chars p (a ++ b) = all_chars p a && all_chars p b.
Proof.
  induction a as [|x a IH]; simpl; [reflexivity |].
  rewrite IH. now rewrite andb_assoc.
Qed.

Lemma all_chars_impl (p q : ascii -> bool) (s : string) :
  (forall c, p c = true -> q c = true) ->
  all_chars p s = true -> all_chars q s = true.
Proof.
  intros Hpq. induction s as [|c s IH]; simpl; [reflexivity |].
  intros H. apply andb_true_iff in H as [Hc Hs].
  apply andb_true_iff. split; auto.
Qed.

Lemma has_char_all_chars (c : ascii) (p : ascii -> bool) (s : string) :
  p c = false -> all_chars p s = true -> has_char c s = false.
Proof.
  intros Hc. induction s as [|a s IH]; simpl; [reflexivity |].
  intros H. apply andb_true_iff in H as [Ha Hs].
  rewrite (IH Hs), orb_false_r.
  destruct (Ascii.eqb_spec a c) as [->|]; [congruence | reflexivity].
Qed.

(** * [safe_uri] *)

Lemma length_pct_byte (n : nat) : length (pct_byte n) = 3%nat.
Proof. reflexivity. Qed.

Lemma pct_byte_head (n : nat) : exists s, pct_byte n = String "%"%char s.
Proof. unfold pct_byte. eauto. Qed.

Lemma hex_digit_unreserved (n : nat) :
  (n < 16)%nat -> is_unreserved (hex_digit n) = true.
Proof.
  intros H.
  do 16 (destruct n as [|n]; [reflexivity |]). lia.
Qed.

Lemma all_chars_pct_byte (n : nat) :
  (n < 256)%nat -> all_chars is_unreserved_or_pct (pct_byte n) = true.
Proof.
  intros H. unfold pct_byte. cbn [all_chars].
  unfold is_unreserved_or_pct at 2 3.
  rewrite !hex_digit_unreserved.
  - reflexivity.
  - apply Nat.mod_upper_bound. lia.
  - apply Nat.Div0.div_lt_upper_bound. lia.
Qed.

Lemma nat_of_ascii_bound (c : ascii) : (nat_of_ascii c < 256)%nat.
Proof.
  destruct c as [[] [] [] [] [] [] [] []]; vm_compute; lia.
Qed.

Lemma quote_char_cases (c : ascii) :
  (is_unreserved c = true /\ quote_char c = String c "")
  \/ (is_unreserved c = false
      /\ exists s, quote_char c = String "%"%char s
                   /\ (3 <= length (quote_char c))%nat).
Proof.
  unfold quote_char. destruct (is_unreserved c); [left; auto | right].
  split; [reflexivity |]. unfold utf8_bytes.
  destruct (nat_of_ascii c <? 128)%nat; cbn [map String.concat].
  - eexists. split; [reflexivity |]. simpl. lia.
  - eexists. split; [reflexivity |]. simpl. lia.
Qed.

Lemma all_chars_quote_char (c : ascii) :
  all_chars is_unreserved_or_pct (quote_char c) = true.
Proof.
  unfold quote_char. destruct (is_unreserved c) eqn:E.
  - simpl. unfold is_unreserved_or_pct. now rewrite E.
  - unfold utf8_bytes. pose proof (nat_of_ascii_bound c) as Hb.
    destruct (nat_of_ascii c <? 128)%nat eqn:E128; cbn [map String.concat].
    + apply all_chars_pct_byte; lia.
    + cbn [append]. rewrite all_chars_append, !all_chars_pct_byte; [reflexivity | |].
      * assert (nat_of_ascii c mod 64 < 64)%nat by (apply Nat.mod_upper_bound; lia).
        lia.
      * assert (nat_of_ascii c / 64 < 4)%nat
          by (apply Nat.Div0.div_lt_upper_bound; lia).
        lia.
Qed.

Lemma all_chars_quote (s : string) :
  all_chars is_unreserved_or_pct (quote s) = true.
Proof.
  induction s as [|c s IH]; simpl; [reflexivity |].
  now rewrite all_chars_append, all_chars_quote_char, IH.
Qed.

Lemma quote_unreserved (s : string) :
  all_chars is_unreserved s = true -> quote s = s.
Proof.
  induction s as [|c s IH]; simpl; [reflexivity |].
  intros H. apply andb_true_iff in H as [Hc Hs].
  unfold quote_char. rewrite Hc. simpl. now rewrite IH.
Qed.

Lemma length_quote_ge (s : string) : (length s <= length (quote s))%nat.
Proof.
  induction s as [|c s IH]; simpl; [lia |].
  rewrite length_append.
  destruct (quote_char_cases c) as [[_ ->] | [_ (t & _ & Hl)]]; simpl in *; lia.
Qed.

Lemma length_quote_eq (s : string) :
  length (quote s) = length s -> all_chars is_unreserved s = true.
Proof.
  induction s as [|c s IH]; simpl; [reflexivity |].
  rewrite length_append. pose proof (length_quote_ge s) as Hge.
  destruct (quote_char_cases c) as [[Hu ->] | [_ (t & _ & Hl)]]; simpl.
  - intros H. rewrite Hu. apply IH. lia.
  - intros H. lia.
Qed.

Lemma quote_all_unreserved (s : string) :
  all_chars is_unreserved (quote s) = true -> all_chars is_unreserved s = true.
Proof.
  induction s as [|c s IH]; simpl; [reflexivity |].
  rewrite all_chars_append. intros H. apply andb_true_iff in H as [Hc Hs].
  destruct (quote_char_cases c) as [[Hu _] | [_ (t & Ht & _)]].
  - rewrite Hu. now apply IH.
  - rewrite Ht in Hc. simpl in Hc. discriminate.
Qed.

Lemma replace_char_absent (c : ascii) (by_ s : string) :
  has_char c s = false -> replace_char c by_ s = s.
Proof.
  induction s as [|a s IH]; simpl; [reflexivity |].
  intros H. apply orb_false_iff in H as [Ha Hs].
  rewrite Ha. now rewrite IH.
Qed.

Lemma all_chars_replace_char (p : ascii -> bool) (c : ascii) (by_ s : string) :
  all_chars p by_ = true ->
  all_chars p (replace_char c by_ s)
  = all_chars (fun a => Ascii.eqb a c || p a) s.
Proof.
  intros Hby. induction s as [|a s IH]; simpl; [reflexivity |].
  destruct (Ascii.eqb a c); simpl.
  - now rewrite all_chars_append, Hby, IH.
  - now rewrite IH.
Qed.

Lemma all_chars_ext (p q : ascii -> bool) (s : string) :
  (forall c, p c = q c) -> all_chars p s = all_chars q s.
Proof.
  intros H. induction s as [|c s IH]; simpl; [reflexivity |].
  now rewrite H, IH.
Qed.

Lemma underscored_unreserved (s : string) :
  all_chars is_unreserved (underscored s) = all_chars is_plain s.
Proof.
  unfold underscored.
  rewrite !all_chars_replace_char by reflexivity.
  apply all_chars_ext. intros c. unfold is_plain.
  destruct (is_unreserved c), (Ascii.eqb c " "), (Ascii.eqb c "/"),
    (Ascii.eqb c ":"); reflexivity.
Qed.

Lemma underscored_id (s : string) :
  all_chars is_unreserved s = true -> underscored s = s.
Proof.
  intros H. unfold underscored.
  rewrite (replace_char_absent " "%char) by
    (apply (has_char_all_chars _ is_unreserved); [reflexivity | assumption]).
  rewrite (replace_char_absent "/"%char) by
    (apply (has_char_all_chars _ is_unreserved); [reflexivity | assumption]).
  apply replace_char_absent.
  apply (has_char_all_chars _ is_unreserved); [reflexivity | assumption].
Qed.

Lemma safe_uri_plain (x : string) :
  all_chars is_plain x = true ->
  safe_uri x = underscored x /\ all_chars is_unreserved (safe_uri x) = true.
Proof.
  intros H. rewrite <- underscored_unreserved in H.
  unfold safe_uri. fold (underscored x).
  rewrite (quote_unreserved _ H). auto.
Qed.

Lemma safe_uri_no_raw (x : string) :
  has_char " "%char (safe_uri x) = false
  /\ has_char "/"%char (safe_uri x) = false
  /\ has_char ":"%char (safe_uri x) = false.
Proof.
  unfold safe_uri. pose proof (all_chars_quote (underscored x)) as H.
  fold (underscored x).
  repeat split;
    apply (has_char_all_chars _ is_unreserved_or_pct); auto.
Qed.

Lemma safe_uri_idempotent_iff (x : string) :
  safe_uri (safe_uri x) = safe_uri x <-> all_chars is_plain x = true.
Proof.
  split.
  - intros H.
    (* the outer application did not lengthen its argument *)
    assert (Hlen : length (quote (underscored (safe_uri x)))
                   = length (underscored (safe_uri x))).
    { apply Nat.le_antisymm; [| apply length_quote_ge].
      change (quote (underscored (safe_uri x))) with (safe_uri (safe_uri x)).
      rewrite H.
      assert (Hu : length (underscored (safe_uri x)) = length (safe_uri x)).
      { destruct (safe_uri_no_raw x) as (H1 & H2 & H3).
        unfold underscored.
        now rewrite (replace_char_absent " "%char _ _ H1),
          (replace_char_absent "/"%char _ _ H2),
          (replace_char_absent ":"%char _ _ H3). }
      lia. }
    apply length_quote_eq in Hlen.
    rewrite underscored_unreserved in Hlen.
    (* so the inner result holds no percent sign: nothing was escaped *)
    assert (Hq : all_chars is_unreserved (safe_uri x) = true).
    { pose proof (all_chars_quote (underscored x)) as Hall.
      change (quote (underscored x)) with (safe_uri x) in Hall.
      revert Hlen Hall. generalize (safe_uri x) as y.
      induction y as [|c y IH]; simpl; [reflexivity |].
      intros Hp Ha.
      apply andb_true_iff in Hp as [Hpc Hpy].
      apply andb_true_iff in Ha as [Hac Hay].
      rewrite (IH Hpy Hay), andb_true_r.
      unfold is_plain in Hpc. unfold is_unreserved_or_pct in Hac.
      destruct (is_unreserved c); [reflexivity |]. simpl in *.
      destruct (Ascii.eqb_spec c "%"%char) as [-> |]; [discriminate Hpc | discriminate Hac]. }
    unfold safe_uri in Hq. fold (underscored x) in Hq.
    apply quote_all_unreserved in Hq.
    now rewrite underscored_unreserved in Hq.
  - intros H. destruct (safe_uri_plain x H) as [Heq Hu].
    unfold safe_uri at 1. fold (underscored (safe_uri x)).
    rewrite (underscored_id _ Hu). now apply quote_unreserved.
Qed.

(** C2, as amended: for every input text [x], [safe_uri x] holds no raw space,
    slash or colon; [safe_uri (safe_uri x) = safe_uri x] holds exactly when
    every character of [x] is a letter, a digit, one of [_.-~], a space, a
    slash or a colon, that is, when the first application escapes nothing;
    and on already-safe input (letters, digits and [_.-~] only) [safe_uri] is
    the identity. *)
Theorem safe_uri_raw_free_idempotent_on_plain (x : string) :
  (has_char " "%char (safe_uri x) = false
   /\ has_char "/"%char (safe_uri x) = false
   /\ has_char ":"%char (safe_uri x) = false)
  /\ (safe_uri (safe_uri x) = safe_uri x <-> all_chars is_plain x = true)
  /\ (all_chars is_unreserved x = true -> safe_uri x = x).
Proof.
  split; [apply safe_uri_no_raw |].
  split; [apply safe_uri_idempotent_iff |].
  intros H. unfold safe_uri. fold (underscored x).
  rewrite (underscored_id _ H). now apply quote_unreserved.
Qed.

(** C2, the claim as stated fails: a percent sign is escaped again by every
    further application. *)
Lemma safe_uri_not_idempotent :
  safe_uri "%" = "%25"
  /\ safe_uri (safe_uri "%") = "%2525"
  /\ String.eqb (safe_uri (safe_uri "%")) (safe_uri "%") = false.
Proof. repeat split. Qed.

(** * The error monad *)

Lemma bind_Ok {A B : Type} (m : result A) (k : A -> result B) (b : B) :
  bind m k = Ok b -> exists a, m = Ok a /\ k a = Ok b.
Proof. destruct m as [a | e]; simpl; [eauto | discriminate]. Qed.

Lemma Ok_triples_of (r : result (list string)) :
  succeeds r = true -> r = Ok (triples_of r).
Proof. destruct r; simpl; [reflexivity | discriminate]. Qed.

Lemma Ok_inj {A : Type} (a b : A) : Ok a = Ok b -> a = b.
Proof. intros H. now injection H. Qed.

Lemma bind_Raise_l {A B : Type} (e : exn) (k : A -> result B) :
  bind (Raise e) k = Raise e.
Proof. reflexivity. Qed.

(** Splits a successful run of monadic code into its steps. *)
Ltac invert_binds H :=
  repeat
    (let a := fresh "v" in
     let Ha := fresh "E" in
     cbv beta zeta in H;
     apply bind_Ok in H; destruct H as (a & Ha & H); cbv beta zeta in H).

Lemma mapM_Ok_map {A B : Type} (f : A -> result B) (g : A -> B) (xs : list A) :
  (forall x, f x = Ok (g x)) -> mapM f xs = Ok (map g xs).
Proof.
  intros H. induction xs as [|x xs IH]; simpl; [reflexivity |].
  now rewrite H, IH.
Qed.

(** * [infer_tone] *)

(** C7: when the record's name and description are texts [n] and [d] (the
    empty text when absent) and its genres have the lower-cased names
    [genres], [infer_tone] returns the tone of the first matching rule of
    [tone_rules] applied to [lower n ++ lower d] and [genres] (dark keywords,
    then comedic, then wholesome, then the horror genre or keywords as Dark),
    and Dramatic when none matches; the three records of the claim give Dark,
    Wholesome and Dramatic. *)
Theorem infer_tone_first_match (series_data : json) (n d : string)
    (gl : list json) (genres : list string) :
  get_default series_data "name" (JStr "") = Ok (JStr n) ->
  get_default series_data "desc" (JStr "") = Ok (JStr d) ->
  get_default series_data "genres" (JArr []) = Ok (JArr gl) ->
  mapM genre_name_lower gl = Ok genres ->
  infer_tone series_data
  = Ok (first_match tone_rules "Dramatic" (lower n ++ lower d) genres)
  /\ infer_tone (JObj [("name", JStr "Dark Nights"); ("desc", JStr "");
                       ("genres", JArr [])]) = Ok "Dark"
  /\ infer_tone (JObj [("name", JStr "Fun Adventures"); ("desc", JStr "");
                       ("genres", JArr [])]) = Ok "Wholesome"
  /\ infer_tone (JObj [("name", JStr "Ordinary Tales"); ("desc", JStr "");
                       ("genres", JArr [])]) = Ok "Dramatic".
Proof.
  intros Hn Hd Hg Hm. split; [| repeat split].
  unfold infer_tone. rewrite Hn, Hd, Hg. cbn [bind str_lower py_iter].
  rewrite Hm. cbn [bind first_match tone_rules].
  destruct (any_in dark_words (lower n ++ lower d)); [reflexivity |].
  destruct (any_in comedic_words (lower n ++ lower d)); [reflexivity |].
  destruct (any_in wholesome_words (lower n ++ lower d)); [reflexivity |].
  destruct (existsb (String.eqb "horror") genres
            || any_in horror_words (lower n ++ lower d)); reflexivity.
Qed.

(** C7 at a record with a horror genre and a neutral name: the fourth rule
    decides. *)
Lemma infer_tone_first_match_witness :
  infer_tone (JObj [("name", JStr "Night Shift");
                    ("genres", JArr [JObj [("name", JStr "Horror")]])])
  = Ok "Dark"
  /\ infer_tone (JObj [("name", JStr "Dark Nights"); ("desc", JStr "");
                       ("genres", JArr [])]) = Ok "Dark".
Proof.
  pose proof (infer_tone_first_match
                (JObj [("name", JStr "Night Shift");
                       ("genres", JArr [JObj [("name", JStr "Horror")]])])
                "Night Shift" "" [JObj [("name", JStr "Horror")]] ["horror"]
                eq_refl eq_refl eq_refl eq_refl) as (H1 & H2 & _).
  split; [exact H1 | exact H2].
Defined.

(** * Missing names *)

(** C10: a universe record whose name is absent or false (empty, null)
    contributes no triples and raises nothing; a series record and a character
    record without a ["name"] key make their generators raise [KeyError]. *)
Theorem universe_without_name_yields_nothing {R : PyRuntime}
    (fields : list (string * json)) :
  (match lookup "name" fields with
   | Some v => truthy v = false
   | None => True
   end ->
   generate_universe_triples (JObj fields) = Ok [])
  /\ (lookup "name" fields = None ->
      (forall series_id,
          generate_series_triples series_id (JObj fields)
          = Raise (KeyError "name"))
      /\ (forall series_id issue_id,
             generate_character_triples (JObj fields) series_id issue_id
             = Raise (KeyError "name"))).
Proof.
  split.
  - intros H. unfold generate_universe_triples, get, get_default.
    destruct (lookup "name" fields) as [v |] eqn:E; cbn [bind].
    + destruct (lookup "id" fields); cbn [bind]; rewrite H;
        now rewrite orb_true_r.
    + destruct (lookup "id" fields); cbn [bind truthy negb];
        now rewrite orb_true_r.
  - intros H. split.
    + intros sid. unfold generate_series_triples, subscript. now rewrite H.
    + intros sid iid. unfold generate_character_triples, get_default, subscript.
      rewrite H. destruct (lookup "id" fields) as [c |]; cbn [bind].
      * destruct (truthy c); reflexivity.
      * reflexivity.
Qed.

(** C10 at an empty name, an absent name and a missing key. *)
Lemma universe_without_name_yields_nothing_witness :
  generate_universe_triples (JObj [("id", JInt 7); ("name", JStr "")]) = Ok []
  /\ generate_universe_triples (JObj [("id", JInt 7)]) = Ok []
  /\ generate_series_triples (JInt 1) (JObj [("id", JInt 1)])
     = Raise (KeyError "name")
  /\ generate_character_triples (JObj [("id", JInt 1)]) (JInt 1) (JInt 2)
     = Raise (KeyError "name").
Proof.
  split; [| split; [| split]].
  - exact (proj1 (universe_without_name_yields_nothing
                    [("id", JInt 7); ("name", JStr "")]) eq_refl).
  - exact (proj1 (universe_without_name_yields_nothing [("id", JInt 7)]) I).
  - exact (proj1 (proj2 (universe_without_name_yields_nothing [("id", JInt 1)])
                    eq_refl) (JInt 1)).
  - exact (proj2 (proj2 (universe_without_name_yields_nothing [("id", JInt 1)])
                    eq_refl) (JInt 1) (JInt 2)).
Defined.

(** * The first two triples of a generator *)

Lemma prefix_append (p s : string) : prefix p (p ++ s) = true.
Proof.
  induction p as [|c p IH]; simpl; [now destruct s |].
  destruct (ascii_dec c c); [assumption | congruence].
Qed.

Lemma contains_prefix (p s : string) : prefix p s = true -> contains p s = true.
Proof. intros H. destruct s; cbn [contains]; rewrite H; reflexivity. Qed.

Lemma contains_append_r (p a b : string) :
  contains p b = true -> contains p (a ++ b) = true.
Proof.
  intros H. induction a as [|c a IH]; simpl; [assumption |].
  rewrite IH. apply orb_true_r.
Qed.

Lemma endswith_refl (s : string) : endswith s s = true.
Proof. destruct s; simpl; now rewrite ?String.eqb_refl, ?Ascii.eqb_refl. Qed.

Lemma endswith_append_r (a b suf : string) :
  endswith b suf = true -> endswith (a ++ b) suf = true.
Proof.
  intros H. induction a as [|c a IH]; simpl; [assumption |].
  rewrite IH. apply orb_true_r.
Qed.

Lemma is_type_triple_triple (s cls : string) :
  is_type_triple (triple s "a" (ns cls)) = true.
Proof.
  unfold is_type_triple, triple, ns. apply andb_true_iff. split.
  - apply contains_append_r. apply contains_prefix. reflexivity.
  - apply endswith_append_r.
    change (endswith ((" a <" ++ NAMESPACE) ++ (cls ++ ">") ++ " .") "> ." = true).
    apply endswith_append_r. rewrite append_assoc.
    apply endswith_append_r. apply endswith_refl.
Qed.

Lemma is_label_triple_triple (s body : string) :
  is_label_triple (triple s RDFS_LABEL (lit body)) = true.
Proof.
  unfold is_label_triple, triple, lit. rewrite !append_assoc.
  apply andb_true_iff. split.
  - apply contains_append_r. apply contains_prefix.
    change (prefix (" " ++ RDFS_LABEL ++ " " ++ DQ)
              ((" " ++ RDFS_LABEL ++ " " ++ DQ) ++ body ++ DQ ++ " .") = true).
    apply prefix_append.
  - apply endswith_append_r.
    change (endswith ((" " ++ RDFS_LABEL ++ " " ++ DQ) ++ body ++ DQ ++ " .")
              (DQ ++ " .") = true).
    apply endswith_append_r. apply endswith_append_r. apply endswith_refl.
Qed.

Section FirstTriples.

Context {R : PyRuntime}.

Lemma type_then_label_cons (s cls s' body : string) (rest : list string) :
  type_then_label
    (triple s "a" (ns cls) :: triple s' RDFS_LABEL (lit body) :: rest) = true.
Proof.
  cbn [type_then_label].
  now rewrite is_type_triple_triple, is_label_triple_triple.
Qed.

Lemma series_type_then_label (series_id series_data : json) (ts : list string) :
  generate_series_triples series_id series_data = Ok ts ->
  type_then_label ts = true.
Proof.
  intros H. unfold generate_series_triples in H. invert_binds H.
  injection H as <-. apply type_then_label_cons.
Qed.

Lemma character_type_then_label (char_data series_id issue_id : json)
    (ts : list string) :
  generate_character_triples char_data series_id issue_id = Ok ts ->
  type_then_label ts = true.
Proof.
  intros H. unfold generate_character_triples in H. invert_binds H.
  injection H as <-. apply type_then_label_cons.
Qed.

Lemma group_type_then_label (team_data : json) (ts : list string) :
  generate_group_triples team_data = Ok ts -> type_then_label ts = true.
Proof.
  intros H. unfold generate_group_triples in H. invert_binds H.
  injection H as <-. apply type_then_label_cons.
Qed.

Lemma universe_type_then_label (universe_data : json) (ts : list string) :
  generate_universe_triples universe_data = Ok ts ->
  ts = [] \/ type_then_label ts = true.
Proof.
  intros H. unfold generate_universe_triples in H. invert_binds H.
  destruct (negb (truthy v0) || negb (truthy v1)).
  - injection H as <-. now left.
  - invert_binds H. injection H as <-. right. apply type_then_label_cons.
Qed.

Lemma issue_head_is_type (issue_data : json) (ts : list string) :
  generate_issue_triples issue_data = Ok ts ->
  head_is_type ts = true
  /\ (forall v, get issue_data "issue_name" = Ok v -> truthy v = true ->
                type_then_label ts = true).
Proof.
  intros H. unfold generate_issue_triples in H. invert_binds H.
  injection H as <-. split.
  - cbn [app head_is_type]. apply is_type_triple_triple.
  - intros x Hx Ht. rewrite Hx in E0. cbn [bind] in E0. rewrite Ht in E0.
    injection E0 as <-. apply type_then_label_cons.
Qed.

Lemma credit_head_is_type (issue_id credit : json) (idx : nat) (ts : list string) :
  generate_credit_triples issue_id credit idx = Ok ts ->
  head_is_type ts = true
  /\ exists cid,
      subscript credit "id" = Ok cid
      /\ nth 1 ts ""
         = triple (data ("person/" ++ py_str cid)) (ns "hasCreditRelationship")
             (data ("credit/" ++ py_str issue_id ++ "_" ++ py_str cid ++ "_"
                      ++ Z_to_string (Z.of_nat idx))).
Proof.
  intros H. unfold generate_credit_triples in H. invert_binds H.
  injection H as <-. split.
  - cbn [app head_is_type]. apply is_type_triple_triple.
  - exists v. split; [assumption | reflexivity].
Qed.

(** Where the label of a subject cannot be: a triple on another predicate,
    or on a subject of another kind, is no [rdfs:label] triple of it. *)
Lemma triple_same_subject (s p o p' o' : string) :
  triple s p o = triple s p' o' ->
  p ++ " " ++ o ++ " ." = p' ++ " " ++ o' ++ " .".
Proof.
  unfold triple. intros H. apply append_cancel_l in H.
  cbn [append] in H. now injection H.
Qed.

Ltac not_a_label H :=
  cbv beta in H;
  first
    [ apply triple_same_subject in H;
      cbv [ns NAMESPACE RDFS_LABEL BASE_URI] in H; cbn [append] in H;
      discriminate H
    | cbv [triple data ns NAMESPACE RDFS_LABEL BASE_URI] in H;
      cbn [append] in H; discriminate H ].

Lemma opt_field_In (d : json) (k : string) (mk : json -> string)
    (piece : list string) (t : string) :
  opt_field d k mk = Ok piece -> In t piece -> exists x, mk x = t.
Proof.
  unfold opt_field. intros H Hin. apply bind_Ok in H as (x & _ & H).
  apply Ok_inj in H. subst piece. destruct (truthy x); [| destruct Hin].
  destruct Hin as [<- | []]. now exists x.
Qed.

Lemma opt_text_In (d : json) (k : string) (n : nat) (mk : string -> string)
    (piece : list string) (t : string) :
  opt_text d k n mk = Ok piece -> In t piece -> exists body, mk body = t.
Proof.
  unfold opt_text. intros H Hin. apply bind_Ok in H as (x & _ & H).
  destruct (truthy x).
  - apply bind_Ok in H as (cut & _ & H). apply Ok_inj in H. subst piece.
    destruct Hin as [<- | []]. now eexists.
  - apply Ok_inj in H. subst piece. destruct Hin.
Qed.

Lemma flat_mapM_In {A B : Type} (f : A -> result (list B)) (xs : list A) :
  forall (out : list B) (t : B),
    flat_mapM f xs = Ok out -> In t out ->
    exists x ys, In x xs /\ f x = Ok ys /\ In t ys.
Proof.
  induction xs as [| a xs IH]; intros out t H Hin; cbn [flat_mapM] in H.
  - apply Ok_inj in H. subst out. destruct Hin.
  - apply bind_Ok in H as (ys & Hys & H).
    apply bind_Ok in H as (zs & Hzs & H). apply Ok_inj in H. subst out.
    apply in_app_iff in Hin as [Hin | Hin].
    + exists a, ys. repeat split; [now left | assumption ..].
    + destruct (IH zs t Hzs Hin) as (x & ws & Hx & Hf & Ht).
      exists x, ws. repeat split; [now right | assumption ..].
Qed.

Lemma issue_without_name_has_no_label (issue_data iid v : json)
    (ts : list string) :
  generate_issue_triples issue_data = Ok ts ->
  subscript issue_data "id" = Ok iid ->
  get issue_data "issue_name" = Ok v -> truthy v = false ->
  forall o,
    ~ In (triple (data ("expression/issue_" ++ py_str iid)) RDFS_LABEL o) ts.
Proof.
  intros H Hid Hv Ht o Hin. unfold generate_issue_triples in H.
  rewrite Hid in H. cbn [bind] in H. rewrite Hv in H. cbn [bind] in H.
  rewrite Ht in H. cbn [bind] in H.
  apply bind_Ok in H as (number & Hnumber & H).
  apply bind_Ok in H as (cover_date & Hcover & H).
  apply bind_Ok in H as (store_date & Hstore & H).
  apply bind_Ok in H as (price & Hprice & H).
  apply bind_Ok in H as (page_count & Hpages & H).
  apply bind_Ok in H as (desc & Hdesc & H).
  apply bind_Ok in H as (sku & Hsku & H).
  apply bind_Ok in H as (upc & Hupc & H).
  apply bind_Ok in H as (image & Himage & H).
  apply bind_Ok in H as (isbn & Hisbn & H).
  apply bind_Ok in H as (series & Hseries & H).
  apply bind_Ok in H as (publisher & Hpublisher & H).
  apply bind_Ok in H as (format_class & _ & H).
  apply Ok_inj in H. subst ts.
  assert (Hs : forall t, In t series ->
                 t <> triple (data ("expression/issue_" ++ py_str iid))
                        RDFS_LABEL o).
  { intros t Ht' Heq. subst t.
    apply bind_Ok in Hseries as (has & _ & Hseries). destruct has.
    - apply bind_Ok in Hseries as (s & _ & Hseries). destruct (truthy s).
      + apply bind_Ok in Hseries as (sid & _ & Hseries).
        apply Ok_inj in Hseries. subst series.
        destruct Ht' as [E | [E | []]]; not_a_label E.
      + apply Ok_inj in Hseries. subst series. destruct Ht'.
    - apply Ok_inj in Hseries. subst series. destruct Ht'. }
  assert (Hp : forall t, In t publisher ->
                 t <> triple (data ("expression/issue_" ++ py_str iid))
                        RDFS_LABEL o).
  { intros t Ht' Heq. subst t.
    apply bind_Ok in Hpublisher as (has & _ & Hpublisher). destruct has.
    - apply bind_Ok in Hpublisher as (s & _ & Hpublisher). destruct (truthy s).
      + apply bind_Ok in Hpublisher as (pid & _ & Hpublisher).
        apply Ok_inj in Hpublisher. subst publisher.
        destruct Ht' as [E | []]; not_a_label E.
      + apply Ok_inj in Hpublisher. subst publisher. destruct Ht'.
    - apply Ok_inj in Hpublisher. subst publisher. destruct Ht'. }
  rewrite !in_app_iff in Hin. cbn [In] in Hin.
  repeat match goal with
         | K : _ \/ _ |- _ => destruct K as [K | K]
         | K : False |- _ => destruct K
         end;
    try (not_a_label Hin; fail);
    try (exact (Hs _ Hin eq_refl));
    try (exact (Hp _ Hin eq_refl));
    match goal with
    | E : opt_field _ _ _ = Ok ?piece, K : In _ ?piece |- _ =>
        destruct (opt_field_In _ _ _ _ _ E K) as (x & Hx); not_a_label Hx
    | E : opt_text _ _ _ _ = Ok ?piece, K : In _ ?piece |- _ =>
        destruct (opt_text_In _ _ _ _ _ _ E K) as (x & Hx); not_a_label Hx
    end.
Qed.

Lemma credit_has_no_label (issue_id credit cid : json) (idx : nat)
    (ts : list string) :
  generate_credit_triples issue_id credit idx = Ok ts ->
  subscript credit "id" = Ok cid ->
  forall o,
    ~ In (triple (data ("credit/" ++ py_str issue_id ++ "_" ++ py_str cid
                          ++ "_" ++ Z_to_string (Z.of_nat idx)))
            RDFS_LABEL o) ts.
Proof.
  intros H Hid o Hin. unfold generate_credit_triples in H.
  rewrite Hid in H. cbn [bind] in H.
  apply bind_Ok in H as (creator & _ & H).
  apply bind_Ok in H as (rs & _ & H).
  apply bind_Ok in H as (rl & _ & H).
  apply bind_Ok in H as (roles & Hroles & H).
  apply Ok_inj in H. subst ts.
  apply in_app_iff in Hin as [Hin | Hin].
  - cbn [In] in Hin.
    repeat match goal with
           | K : _ \/ _ |- _ => destruct K as [K | K]
           | K : False |- _ => destruct K
           end; not_a_label Hin.
  - destruct (flat_mapM_In _ _ _ _ Hroles Hin) as (rd & ys & _ & Hrd & Hys).
    unfold role_triples in Hrd. apply bind_Ok in Hrd as (rn & _ & Hrd).
    apply Ok_inj in Hrd. subst ys.
    destruct Hys as [E | [E | []]]; not_a_label E.
Qed.

(** C5, as amended: the person, organization, series, character and group
    generators return a list that begins with a type assertion followed by a
    label; so does the universe generator unless it returns the empty list,
    and the issue generator when the record has a true [issue_name].  The
    issue generator always puts the type assertion first, and when
    [issue_name] is absent or false no triple of its list is an [rdfs:label]
    triple of the expression.  The credit generator puts the type assertion
    first, follows it with the person's [hasCreditRelationship] link, and no
    triple of its list is an [rdfs:label] triple of the credit. *)
Theorem generators_begin_with_type_then_label :
  (forall creator_id creator_name,
      type_then_label (generate_person_triples creator_id creator_name) = true)
  /\ (forall org_id org_name org_type,
         type_then_label (generate_org_triples org_id org_name org_type) = true)
  /\ (forall series_id series_data ts,
         generate_series_triples series_id series_data = Ok ts ->
         type_then_label ts = true)
  /\ (forall char_data series_id issue_id ts,
         generate_character_triples char_data series_id issue_id = Ok ts ->
         type_then_label ts = true)
  /\ (forall team_data ts,
         generate_group_triples team_data = Ok ts -> type_then_label ts = true)
  /\ (forall universe_data ts,
         generate_universe_triples universe_data = Ok ts ->
         ts = [] \/ type_then_label ts = true)
  /\ (forall issue_data ts,
         generate_issue_triples issue_data = Ok ts ->
         head_is_type ts = true
         /\ (forall v, get issue_data "issue_name" = Ok v -> truthy v = true ->
                       type_then_label ts = true)
         /\ (forall v iid,
                get issue_data "issue_name" = Ok v -> truthy v = false ->
                subscript issue_data "id" = Ok iid ->
                forall o,
                  ~ In (triple (data ("expression/issue_" ++ py_str iid))
                          RDFS_LABEL o) ts))
  /\ (forall issue_id credit idx ts,
         generate_credit_triples issue_id credit idx = Ok ts ->
         head_is_type ts = true
         /\ exists cid,
             subscript credit "id" = Ok cid
             /\ nth 1 ts ""
                = triple (data ("person/" ++ py_str cid))
                    (ns "hasCreditRelationship")
                    (data ("credit/" ++ py_str issue_id ++ "_" ++ py_str cid
                             ++ "_" ++ Z_to_string (Z.of_nat idx)))
             /\ forall o,
                  ~ In (triple
                          (data ("credit/" ++ py_str issue_id ++ "_"
                                   ++ py_str cid ++ "_"
                                   ++ Z_to_string (Z.of_nat idx)))
                          RDFS_LABEL o) ts).
Proof.
  split; [intros; apply type_then_label_cons |].
  split; [intros; apply type_then_label_cons |].
  split; [exact series_type_then_label |].
  split; [exact character_type_then_label |].
  split; [exact group_type_then_label |].
  split; [exact universe_type_then_label |].
  split.
  - intros issue_data ts H.
    destruct (issue_head_is_type issue_data ts H) as (H1 & H2).
    split; [exact H1 |]. split; [exact H2 |].
    intros v iid Hv Ht Hid.
    exact (issue_without_name_has_no_label issue_data iid v ts H Hid Hv Ht).
  - intros issue_id credit idx ts H.
    destruct (credit_head_is_type issue_id credit idx ts H)
      as (H1 & cid & Hcid & H2).
    split; [exact H1 |]. exists cid. split; [exact Hcid |].
    split; [exact H2 |].
    exact (credit_has_no_label issue_id credit cid idx ts H Hcid).
Qed.

End FirstTriples.

(** C5 at a person, a series with a name only, an issue with a title and a
    credit. *)
Lemma generators_begin_with_type_then_label_witness :
  type_then_label (generate_person_triples (JInt 5) (JStr "Ann")) = true
  /\ type_then_label
       (triples_of (generate_series_triples (JInt 1)
                      (JObj [("name", JStr "Saga")]))) = true
  /\ type_then_label
       (triples_of (generate_issue_triples
                      (JObj [("id", JInt 1); ("issue_name", JStr "One")]))) = true
  /\ head_is_type
       (triples_of (generate_credit_triples (JInt 1)
                      (JObj [("id", JInt 5); ("creator", JStr "Ann")]) 0)) = true.
Proof.
  destruct (generators_begin_with_type_then_label (R := ref_runtime))
    as (Hperson & _ & Hseries & _ & _ & _ & Hissue & Hcredit).
  split; [apply Hperson |].
  split; [| split].
  - apply (Hseries (JInt 1) (JObj [("name", JStr "Saga")])).
    apply Ok_triples_of. vm_compute. reflexivity.
  - refine (proj1 (proj2 (Hissue (JObj [("id", JInt 1);
                                        ("issue_name", JStr "One")]) _ _))
              (JStr "One") eq_refl eq_refl).
    apply Ok_triples_of. vm_compute. reflexivity.
  - refine (proj1 (Hcredit (JInt 1)
                     (JObj [("id", JInt 5); ("creator", JStr "Ann")]) 0%nat _ _)).
    apply Ok_triples_of. vm_compute. reflexivity.
Defined.

(** C5, the claim as stated fails: an issue record without [issue_name] is
    accepted and gets no label (its second triple is the type assertion of the
    manifestation), and a credit record never gets one. *)
Lemma label_is_not_always_second :
  (succeeds (generate_issue_triples (JObj [("id", JInt 1)])) = true
   /\ String.eqb
        (nth 1 (triples_of (generate_issue_triples (JObj [("id", JInt 1)]))) "")
        "<http://knowledge.graph/data/manifestation/issue_1> a <http://knowledge.graph/ontology/narrative#Manifestation> ."
      = true
   /\ type_then_label
        (triples_of (generate_issue_triples (JObj [("id", JInt 1)]))) = false)
  /\ (succeeds
        (generate_credit_triples (JInt 1)
           (JObj [("id", JInt 5); ("creator", JStr "Ann")]) 0) = true
      /\ String.eqb
           (nth 1 (triples_of
                     (generate_credit_triples (JInt 1)
                        (JObj [("id", JInt 5); ("creator", JStr "Ann")]) 0)) "")
           "<http://knowledge.graph/data/person/5> <http://knowledge.graph/ontology/narrative#hasCreditRelationship> <http://knowledge.graph/data/credit/1_5_0> ."
         = true
      /\ type_then_label
           (triples_of
              (generate_credit_triples (JInt 1)
                 (JObj [("id", JInt 5); ("creator", JStr "Ann")]) 0)) = false).
Proof. repeat split; vm_compute; reflexivity. Qed.

(** * The synthetic scores of a series *)

(** The floats the literals of the script denote, sign, mantissa and exponent:
    [1.0] is [0x1p+0], [0.7] is [0x1.6666666666666p-1] and [0.85] is
    [0x1.b333333333333p-1]. *)
Lemma float_literals :
  f_0 = S754_zero false
  /\ f_1 = S754_finite false 4503599627370496 (-52)
  /\ f_2 = S754_finite false 4503599627370496 (-51)
  /\ f_20 = S754_finite false 5629499534213120 (-48)
  /\ f_50 = S754_finite false 7036874417766400 (-47)
  /\ f_100 = S754_finite false 7036874417766400 (-46)
  /\ f_500 = S754_finite false 8796093022208000 (-44)
  /\ f_0_7 = S754_finite false 6305039478318694 (-53)
  /\ f_0_85 = S754_finite false 7656119366529843 (-53).
Proof. repeat split; vm_compute; reflexivity. Qed.

Lemma binary_round_aux_not_negative (m e : Z) (l : location) :
  not_negative (binary_round_aux prec emax false m e l) = true.
Proof.
  unfold binary_round_aux.
  match goal with
  | |- context [shr_fexp ?p ?x ?a ?b ?c] =>
      destruct (shr_fexp p x a b c) as [mrs e']
  end.
  match goal with
  | |- context [shr_fexp ?p ?x ?a ?b ?c] =>
      destruct (shr_fexp p x a b c) as [mrs' e'']
  end.
  destruct (shr_m mrs'); [reflexivity | | reflexivity].
  destruct (e'' <=? emax - prec)%Z; reflexivity.
Qed.

Lemma binary_round_not_negative (m : positive) (e : Z) :
  not_negative (binary_round prec emax false m e) = true.
Proof.
  unfold binary_round.
  match goal with
  | |- context [shl_align ?a ?b ?c] => destruct (shl_align a b c) as [mz ez]
  end.
  apply binary_round_aux_not_negative.
Qed.

Lemma float_of_Z_not_negative (z : Z) :
  (0 <= z)%Z -> not_negative (float_of_Z z) = true.
Proof.
  intros H. unfold float_of_Z, binary_normalize.
  destruct z as [| p | p]; [reflexivity | apply binary_round_not_negative | lia].
Qed.

Lemma fmul_not_negative (a b : float) :
  not_negative a = true -> not_negative b = true ->
  not_negative (fmul a b) = true.
Proof.
  intros Ha Hb.
  destruct a as [[] | [] | | [] ma ea], b as [[] | [] | | [] mb eb];
    try discriminate Ha; try discriminate Hb; try reflexivity.
  apply binary_round_aux_not_negative.
Qed.

Lemma fdiv_not_negative (a c : float) :
  not_negative a = true -> positive_finite c = true ->
  not_negative (fdiv a c) = true.
Proof.
  intros Ha Hc.
  destruct c as [s | s | | [] mc ec]; try discriminate Hc.
  destruct a as [[] | [] | | [] ma ea]; try discriminate Ha; try reflexivity.
  unfold fdiv, SFdiv.
  match goal with
  | |- context [SFdiv_core_binary ?p ?x ?a ?b ?c ?d] =>
      destruct (SFdiv_core_binary p x a b c d) as [[mz ez] lz]
  end.
  apply binary_round_aux_not_negative.
Qed.

Lemma fadd_not_negative (a b : float) :
  not_negative a = true -> not_negative b = true ->
  not_negative (fadd a b) = true.
Proof.
  intros Ha Hb.
  destruct a as [[] | [] | | [] ma ea], b as [[] | [] | | [] mb eb];
    try discriminate Ha; try discriminate Hb; try reflexivity.
  unfold fadd, SFadd. cbn [cond_Zopp Z.add].
  unfold binary_normalize. apply binary_round_not_negative.
Qed.

Lemma fmin_1_le_1 (x : float) : fle (fmin f_1 x) f_1 = true.
Proof.
  unfold fmin. destruct (flt x f_1) eqn:E; [| vm_compute; reflexivity].
  unfold flt, fle, SFltb, SFleb in *.
  destruct (SFcompare x f_1) as [[] |]; try discriminate E; reflexivity.
Qed.

Lemma fmin_1_not_negative (x : float) :
  not_negative x = true -> not_negative (fmin f_1 x) = true.
Proof.
  intros H. unfold fmin. destruct (flt x f_1); [exact H | reflexivity].
Qed.

Lemma fmin_1_ge_0 (x : float) :
  not_negative x = true -> fle f_0 (fmin f_1 x) = true.
Proof.
  intros H. unfold fmin. destruct (flt x f_1) eqn:E; [| vm_compute; reflexivity].
  destruct x as [[] | [] | | [] m e]; try discriminate H; try reflexivity.
  discriminate E.
Qed.

Lemma spec_recency_not_negative (age : float) :
  not_negative (spec_recency age) = true.
Proof.
  unfold spec_recency, fmax.
  destruct (flt f_0 (fsub f_1 (fdiv age f_50))) eqn:E; [| reflexivity].
  destruct (fsub f_1 (fdiv age f_50)) as [[] | [] | | [] m e];
    try reflexivity; discriminate E.
Qed.

Lemma to_float_not_negative (x : num) (f : float) :
  num_nonneg x = true -> to_float x = Ok f -> not_negative f = true.
Proof.
  destruct x as [n | g]; cbn [num_nonneg to_float]; intros Hx H.
  - apply Z.leb_le in Hx. pose proof (float_of_Z_not_negative n Hx) as P.
    unfold float_of_int in H.
    destruct (float_of_Z n); try discriminate H; apply Ok_inj in H;
      now subst f.
  - apply Ok_inj in H. subst g.
    destruct f as [[] | [] | | [] m e]; try reflexivity; discriminate Hx.
Qed.

Lemma years_active_not_negative (age : num) (f : float) :
  to_float (spec_years_active age) = Ok f -> not_negative f = true.
Proof.
  unfold spec_years_active, py_max.
  destruct (num_gt age (NInt 1)) eqn:G.
  - destruct age as [n | g]; cbn [num_gt] in G.
    + apply to_float_not_negative. cbn [num_nonneg].
      apply Z.ltb_lt in G. apply Z.leb_le. lia.
    + cbn [to_float]. intros H. apply Ok_inj in H. subst g.
      destruct f as [s | [] | | [] m e]; try reflexivity; try discriminate G.
      exfalso. cbn [float_compare_Z] in G.
      destruct (Z.leb_spec 0 e) as [He | He].
      * pose proof (Z.pow_nonneg 2 e ltac:(lia)).
        destruct (Z.compare_spec (Z.neg m * 2 ^ e) 1) as [C | C | C];
          try discriminate G. nia.
      * pose proof (Z.pow_pos_nonneg 2 (- e) ltac:(lia) ltac:(lia)).
        destruct (Z.compare_spec (Z.neg m) (1 * 2 ^ (- e))) as [C | C | C];
          try discriminate G. lia.
  - intros H. vm_compute in H. apply Ok_inj in H. now subst f.
Qed.

Lemma spec_scores_bounds (ic age : num) (icf yaf agef : float) :
  to_float ic = Ok icf ->
  to_float (spec_years_active age) = Ok yaf ->
  (fle (spec_popularity icf yaf) f_1 = true
   /\ fle (spec_trending icf agef) f_1 = true
   /\ fle (spec_engagement (spec_popularity icf yaf)
             (spec_trending icf agef)) f_1 = true)
  /\ (num_nonneg ic = true ->
      fle f_0 (spec_popularity icf yaf) = true
      /\ fle f_0 (spec_trending icf agef) = true
      /\ fle f_0 (spec_engagement (spec_popularity icf yaf)
                    (spec_trending icf agef)) = true).
Proof.
  intros Hic Hya. split; [repeat split; apply fmin_1_le_1 |].
  intros Hnn.
  pose proof (to_float_not_negative _ _ Hnn Hic) as Pic.
  pose proof (years_active_not_negative _ _ Hya) as Pya.
  assert (Pp : not_negative (fmul (fdiv icf f_500) (fdiv yaf f_20)) = true)
    by (apply fmul_not_negative; now apply fdiv_not_negative).
  assert (Pt : not_negative (fmul (spec_recency agef) (fdiv icf f_100)) = true).
  { apply fmul_not_negative; [apply spec_recency_not_negative |].
    now apply fdiv_not_negative. }
  repeat split; try (now apply fmin_1_ge_0).
  apply fmin_1_ge_0, fdiv_not_negative; [| reflexivity].
  apply fadd_not_negative; now apply fmin_1_not_negative.
Qed.

Lemma series_scores_spec (fields : list (string * json)) (sc : scores) :
  series_scores (JObj fields) = Ok sc ->
  exists (ic yb age : num) (icf yaf agef : float),
    as_number (field_or "count_of_issues" (JInt 1) fields) = Ok ic
    /\ as_number (field_or "year_began" (JInt 2000) fields) = Ok yb
    /\ num_sub (NInt 2025) yb = Ok age
    /\ to_float ic = Ok icf
    /\ to_float (spec_years_active age) = Ok yaf
    /\ to_float age = Ok agef
    /\ popularity sc = spec_popularity icf yaf
    /\ trending sc = spec_trending icf agef
    /\ engagement sc
       = spec_engagement (spec_popularity icf yaf) (spec_trending icf agef)
    /\ completion_rate sc
       = (if truthy (field_or "year_ended" JNull fields)
          then f_0_85 else f_0_7).
Proof.
  unfold series_scores, get, get_default, field_or, num_div. cbn [bind].
  intros H.
  set (icv := match lookup "count_of_issues" fields with
              | Some x => x | None => JInt 1 end) in *.
  set (ybv := match lookup "year_began" fields with
              | Some x => x | None => JInt 2000 end) in *.
  set (yev := match lookup "year_ended" fields with
              | Some x => x | None => JNull end) in *.
  assert (H' :
    (yb <- as_number ybv ;;
     age <- num_sub (NInt 2025) yb ;;
     ic <- as_number icv ;;
     per_500 <- (fa <- to_float ic ;; Ok (fdiv fa f_500)) ;;
     per_20 <- (fa <- to_float (py_max (NInt 1) age) ;; Ok (fdiv fa f_20)) ;;
     per_50 <- (fa <- to_float age ;; Ok (fdiv fa f_50)) ;;
     per_100 <- (fa <- to_float ic ;; Ok (fdiv fa f_100)) ;;
     Ok {| popularity := fmin f_1 (fmul per_500 per_20);
           trending := fmin f_1 (fmul (fmax f_0 (fsub f_1 per_50)) per_100);
           completion_rate := if truthy yev then f_0_85 else f_0_7;
           engagement :=
             fmin f_1
               (fdiv (fadd (fmin f_1 (fmul per_500 per_20))
                        (fmin f_1 (fmul (fmax f_0 (fsub f_1 per_50)) per_100)))
                  f_2) |}) = Ok sc).
  { revert H. subst icv ybv yev.
    destruct (lookup "count_of_issues" fields), (lookup "year_began" fields),
      (lookup "year_ended" fields); cbn [bind]; exact (fun H => H). }
  clear H.
  apply bind_Ok in H' as (yb & Hyb & H').
  apply bind_Ok in H' as (age & Hage & H').
  apply bind_Ok in H' as (ic & Hic & H').
  apply bind_Ok in H' as (per_500 & H500 & H').
  apply bind_Ok in H' as (per_20 & H20 & H').
  apply bind_Ok in H' as (per_50 & H50 & H').
  apply bind_Ok in H' as (per_100 & H100 & H').
  apply bind_Ok in H500 as (icf & Hicf & H500).
  apply bind_Ok in H20 as (yaf & Hyaf & H20).
  apply bind_Ok in H50 as (agef & Hagef & H50).
  rewrite Hicf in H100. cbn [bind] in H100.
  apply Ok_inj in H500, H20, H50, H100, H'. subst.
  exists ic, yb, age, icf, yaf, agef. now repeat split.
Qed.

Section ScoreLiterals.

Context {R : PyRuntime}.

Lemma score_triples_spec (series_id : json) (fields : list (string * json))
    (sc : scores) (p t e : float) :
  popularity sc = p ->
  trending sc = t ->
  engagement sc = e ->
  completion_rate sc
  = (if truthy (field_or "year_ended" JNull fields) then f_0_85 else f_0_7) ->
  score_triples (data ("work/series_" ++ py_str series_id)) sc
  = [ score_triple series_id "popularityScore" (format_fixed 3 p);
      score_triple series_id "trendingScore" (format_fixed 3 t);
      score_triple series_id "completionRate"
        (spec_completion (truthy (field_or "year_ended" JNull fields)));
      score_triple series_id "engagementScore" (format_fixed 3 e) ].
Proof.
  intros Hp Ht He Hc. unfold score_triples, score_triple.
  rewrite Hp, Ht, He, Hc. unfold spec_completion.
  destruct (truthy (field_or "year_ended" JNull fields));
    now rewrite ?format_fixed_085, ?format_fixed_070.
Qed.

(** C6, as amended: for every series record the generator accepts, with
    issueCount the record's [count_of_issues] (1 when absent), yearBegan its
    [year_began] (2000 when absent) and age = 2025 - yearBegan, the emitted
    score literals are the fixed-point renderings of
    popularity = min(1, (issueCount/500) * (yearsActive/20)) with
    yearsActive = max(1, age),
    trending = min(1, max(0, 1 - age/50) * (issueCount/100)) and
    engagement = min(1, (popularity + trending)/2),
    each computed in binary64 floating point, one rounded operation after
    the other in the order written; the completionRate literal is "0.85"
    when [year_ended] is present and true and "0.70" otherwise.  Every score
    is at most 1, and it is at least 0 when issueCount is not negative. *)
Theorem series_score_literals (series_id : json)
    (fields : list (string * json)) (ts : list string) :
  generate_series_triples series_id (JObj fields) = Ok ts ->
  exists (ic yb age : num) (icf yaf agef : float),
    as_number (field_or "count_of_issues" (JInt 1) fields) = Ok ic
    /\ as_number (field_or "year_began" (JInt 2000) fields) = Ok yb
    /\ num_sub (NInt 2025) yb = Ok age
    /\ to_float ic = Ok icf
    /\ to_float (spec_years_active age) = Ok yaf
    /\ to_float age = Ok agef
    /\ In (score_triple series_id "popularityScore"
             (format_fixed 3 (spec_popularity icf yaf))) ts
    /\ In (score_triple series_id "trendingScore"
             (format_fixed 3 (spec_trending icf agef))) ts
    /\ In (score_triple series_id "completionRate"
             (spec_completion (truthy (field_or "year_ended" JNull fields)))) ts
    /\ In (score_triple series_id "engagementScore"
             (format_fixed 3
                (spec_engagement (spec_popularity icf yaf)
                   (spec_trending icf agef)))) ts
    /\ (fle (spec_popularity icf yaf) f_1 = true
        /\ fle (spec_trending icf agef) f_1 = true
        /\ fle (spec_engagement (spec_popularity icf yaf)
                  (spec_trending icf agef)) f_1 = true)
    /\ (num_nonneg ic = true ->
        fle f_0 (spec_popularity icf yaf) = true
        /\ fle f_0 (spec_trending icf agef) = true
        /\ fle f_0 (spec_engagement (spec_popularity icf yaf)
                      (spec_trending icf agef)) = true).
Proof.
  intros H. unfold generate_series_triples in H. invert_binds H.
  apply Ok_inj in H. subst ts.
  match goal with
  | Hs : series_scores _ = Ok ?sc |- _ =>
      destruct (series_scores_spec fields sc Hs)
        as (ic & yb & age & icf & yaf & agef & Hic & Hyb & Hage & Hicf & Hyaf
            & Hagef & Hp & Ht & He & Hc);
      pose proof (score_triples_spec series_id fields sc _ _ _ Hp Ht He Hc)
        as Hst
  end.
  exists ic, yb, age, icf, yaf, agef. rewrite Hst.
  do 6 (split; [assumption |]).
  do 4 (split; [rewrite !in_app_iff; cbn [In]; tauto |]).
  exact (spec_scores_bounds ic age icf yaf agef Hicf Hyaf).
Qed.

End ScoreLiterals.

(** C6 at a series of one issue begun in 1980: the popularity is the float
    next above 9/2000 and is written "0.005"; no score is negative. *)
Lemma series_score_literals_witness :
  existsb (String.eqb (score_triple (JInt 1) "popularityScore" "0.005"))
    (triples_of
       (generate_series_triples (JInt 1)
          (JObj [("name", JStr "Saga"); ("count_of_issues", JInt 1);
                 ("year_began", JInt 1980); ("year_ended", JInt 2020)]))) = true
  /\ exists icf yaf : float,
      In (score_triple (JInt 1) "popularityScore"
            (format_fixed 3 (spec_popularity icf yaf)))
        (triples_of
           (generate_series_triples (JInt 1)
              (JObj [("name", JStr "Saga"); ("count_of_issues", JInt 1);
                     ("year_began", JInt 1980); ("year_ended", JInt 2020)])))
      /\ In (score_triple (JInt 1) "completionRate" "0.85")
           (triples_of
              (generate_series_triples (JInt 1)
                 (JObj [("name", JStr "Saga"); ("count_of_issues", JInt 1);
                        ("year_began", JInt 1980); ("year_ended", JInt 2020)])))
      /\ fle f_0 (spec_popularity icf yaf) = true.
Proof.
  split; [vm_compute; reflexivity |].
  assert (Hrun :
    generate_series_triples (JInt 1)
      (JObj [("name", JStr "Saga"); ("count_of_issues", JInt 1);
             ("year_began", JInt 1980); ("year_ended", JInt 2020)])
    = Ok (triples_of
            (generate_series_triples (JInt 1)
               (JObj [("name", JStr "Saga"); ("count_of_issues", JInt 1);
                      ("year_began", JInt 1980); ("year_ended", JInt 2020)]))))
    by (apply Ok_triples_of; vm_compute; reflexivity).
  destruct (series_score_literals (R := ref_runtime) _ _ _ Hrun)
    as (ic & yb & age & icf & yaf & agef & Hic & _ & _ & _ & _ & _ & Hp & _
        & Hc & _ & _ & Hnn).
  exists icf, yaf. split; [exact Hp |]. split; [exact Hc |].
  apply Hnn. apply Ok_inj in Hic. now subst ic.
Defined.

(** C6, the claim as stated fails.  The scores are clamped from above only:
    a negative [count_of_issues] gives negative scores.  And they are not the
    renderings of the exact values of the formulas: one issue begun in 1980
    and nine issues begun in 2020 both have the exact popularity 9/2000, and
    the first is written "0.005", the second "0.004". *)
Lemma scores_are_neither_clamped_below_nor_exact :
  succeeds
    (generate_series_triples (JInt 1)
       (JObj [("name", JStr "Saga"); ("count_of_issues", JInt (-100))])) = true
  /\ existsb (String.eqb (score_triple (JInt 1) "popularityScore" "-0.250"))
       (triples_of
          (generate_series_triples (JInt 1)
             (JObj [("name", JStr "Saga"); ("count_of_issues", JInt (-100))])))
     = true
  /\ match series_scores
             (JObj [("name", JStr "Saga"); ("count_of_issues", JInt (-100))]) with
     | Ok sc =>
         fle f_0 (popularity sc) || fle f_0 (trending sc)
         || fle f_0 (engagement sc)
     | Raise _ => true
     end = false
  /\ existsb (String.eqb (score_triple (JInt 1) "popularityScore" "0.005"))
       (triples_of
          (generate_series_triples (JInt 1)
             (JObj [("name", JStr "Saga"); ("count_of_issues", JInt 1);
                    ("year_began", JInt 1980)]))) = true
  /\ existsb (String.eqb (score_triple (JInt 1) "popularityScore" "0.004"))
       (triples_of
          (generate_series_triples (JInt 1)
             (JObj [("name", JStr "Saga"); ("count_of_issues", JInt 9);
                    ("year_began", JInt 2020)]))) = true
  /\ (1 * (2025 - 1980) * (500 * 20) =? 9 * (2025 - 2020) * (500 * 20))%Z = true.
Proof. repeat split; vm_compute; reflexivity. Qed.

(** * Stripping *)

Lemma is_empty_true (s : string) : is_empty s = true -> s = "".
Proof. destruct s; [reflexivity | discriminate]. Qed.

Lemma rstrip_with_all (p : ascii -> bool) (s : string) :
  all_chars p s = true -> rstrip_with p s = "".
Proof.
  induction s as [|c s IH]; simpl; [reflexivity |].
  intros H. apply andb_true_iff in H as [Hc Hs].
  now rewrite (IH Hs), Hc.
Qed.

Lemma rstrip_with_keep (p : ascii -> bool) (s : string) (c : ascii) :
  p c = false -> rstrip_with p (s ++ String c "") = s ++ String c "".
Proof.
  intros Hc. induction s as [|a s IH]; simpl.
  - now rewrite Hc.
  - rewrite IH. destruct s; reflexivity.
Qed.

Lemma rstrip_with_append_all (p : ascii -> bool) (s t : string) :
  all_chars p t = true -> rstrip_with p (s ++ t) = rstrip_with p s.
Proof.
  intros Ht. induction s as [|a s IH]; simpl.
  - now apply rstrip_with_all.
  - now rewrite IH.
Qed.

Lemma lstrip_all (ws s : string) :
  all_chars is_space ws = true -> lstrip (ws ++ s) = lstrip s.
Proof.
  induction ws as [|c ws IH]; simpl; [reflexivity |].
  intros H. apply andb_true_iff in H as [Hc Hs]. now rewrite Hc, IH.
Qed.

Lemma strip_all (ws : string) : all_chars is_space ws = true -> strip ws = "".
Proof. intros H. unfold strip, rstrip. now rewrite rstrip_with_all. Qed.

(** A text that begins and ends with a character that is no white space is
    what [strip] returns, whatever white space precedes it. *)
Lemma strip_padded (ws body : string) (first last_ : ascii) :
  all_chars is_space ws = true ->
  is_space first = false -> is_space last_ = false ->
  strip (ws ++ String first (body ++ String last_ ""))
  = String first (body ++ String last_ "").
Proof.
  intros Hws Hf Hl. unfold strip, rstrip.
  change (String first (body ++ String last_ ""))
    with ((String first body) ++ String last_ "").
  rewrite <- append_assoc, (rstrip_with_keep _ _ _ Hl), append_assoc.
  rewrite (lstrip_all _ _ Hws). simpl. now rewrite Hf.
Qed.

Lemma strip_padded_char (ws : string) (c : ascii) :
  all_chars is_space ws = true -> is_space c = false ->
  strip (ws ++ String c "") = String c "".
Proof.
  intros Hws Hc. unfold strip, rstrip.
  rewrite (rstrip_with_keep _ _ _ Hc), (lstrip_all _ _ Hws). simpl.
  now rewrite Hc.
Qed.

Lemma all_chars_push (p : ascii -> bool) (s : string) (c : ascii) :
  all_chars p (push s c) = all_chars p s && p c.
Proof. unfold push. rewrite all_chars_append. simpl. now rewrite andb_true_r. Qed.

(** * The scanner on well-formed text *)

Section Scanner.

Context {R : PyRuntime}.

Lemma eqb_of_pred (p : ascii -> bool) (c x : ascii) :
  p c = true -> p x = false -> Ascii.eqb c x = false.
Proof.
  intros Hc Hx. destruct (Ascii.eqb_spec c x) as [-> |]; [congruence | reflexivity].
Qed.

Lemma scan_escaped (limit : option Z) (c : ascii) (rest buf : string)
    (d : Z) (ins : bool) (n : Z) :
  scan limit (String c rest)
    {| buffer := buf; brace_depth := d; in_string := ins; escape_next := true;
       count := n |}
  = scan limit rest (st_of (push buf c) d ins n).
Proof. reflexivity. Qed.

Lemma scan_backslash (limit : option Z) (rest buf : string) (d n : Z) :
  scan limit (String backslash_char rest) (st_of buf d true n)
  = scan limit rest
      {| buffer := push buf backslash_char; brace_depth := d; in_string := true;
         escape_next := true; count := n |}.
Proof. reflexivity. Qed.

Lemma scan_in_string (limit : option Z) (c : ascii) (rest buf : string) (d n : Z) :
  Ascii.eqb c dquote_char = false -> Ascii.eqb c backslash_char = false ->
  scan limit (String c rest) (st_of buf d true n)
  = scan limit rest (st_of (push buf c) d true n).
Proof.
  intros Hq Hb. cbn [scan st_of escape_next in_string brace_depth buffer count].
  rewrite Hq, Hb. cbn [andb negb]. now rewrite andb_false_r.
Qed.

Lemma scan_quote (limit : option Z) (rest buf : string) (d : Z) (ins : bool) (n : Z) :
  d <> 0%Z ->
  scan limit (String dquote_char rest) (st_of buf d ins n)
  = scan limit rest (st_of (push buf dquote_char) d (negb ins) n).
Proof.
  intros Hd. cbn [scan st_of escape_next in_string brace_depth buffer count].
  change (Ascii.eqb dquote_char backslash_char) with false.
  change (Ascii.eqb dquote_char dquote_char) with true.
  change (Ascii.eqb dquote_char "{"%char) with false.
  change (Ascii.eqb dquote_char "}"%char) with false.
  cbn [andb]. apply Z.eqb_neq in Hd.
  destruct ins; cbn [negb]; rewrite Hd; reflexivity.
Qed.

Lemma scan_plain (limit : option Z) (c : ascii) (rest buf : string) (d n : Z) :
  d <> 0%Z ->
  Ascii.eqb c dquote_char = false -> Ascii.eqb c "{"%char = false ->
  Ascii.eqb c "}"%char = false ->
  scan limit (String c rest) (st_of buf d false n)
  = scan limit rest (st_of (push buf c) d false n).
Proof.
  intros Hd Hq Ho Hc. cbn [scan st_of escape_next in_string brace_depth buffer count].
  rewrite andb_false_r, Hq, Ho, Hc. apply Z.eqb_neq in Hd. now rewrite Hd.
Qed.

Lemma scan_open (limit : option Z) (rest buf : string) (d n : Z) :
  (d + 1 <> 0)%Z ->
  scan limit (String "{"%char rest) (st_of buf d false n)
  = scan limit rest (st_of (push buf "{"%char) (d + 1) false n).
Proof.
  intros Hd. cbn [scan st_of escape_next in_string brace_depth buffer count].
  change (Ascii.eqb "{"%char backslash_char) with false.
  change (Ascii.eqb "{"%char dquote_char) with false.
  change (Ascii.eqb "{"%char "{"%char) with true.
  cbn [andb]. apply Z.eqb_neq in Hd. now rewrite Hd.
Qed.

Lemma scan_close (limit : option Z) (rest buf : string) (d n : Z) :
  (d - 1 <> 0)%Z ->
  scan limit (String "}"%char rest) (st_of buf d false n)
  = scan limit rest (st_of (push buf "}"%char) (d - 1) false n).
Proof.
  intros Hd. cbn [scan st_of escape_next in_string brace_depth buffer count].
  change (Ascii.eqb "}"%char backslash_char) with false.
  change (Ascii.eqb "}"%char dquote_char) with false.
  change (Ascii.eqb "}"%char "{"%char) with false.
  change (Ascii.eqb "}"%char "}"%char) with true.
  cbn [andb]. apply Z.eqb_neq in Hd. now rewrite Hd.
Qed.

Lemma push_append (buf : string) (c : ascii) (s : string) :
  push buf c ++ s = buf ++ String c s.
Proof. unfold push. now rewrite append_assoc. Qed.

(** Inside a string literal nothing completes and the depth does not move. *)
Lemma scan_strbody (limit : option Z) (body : string) :
  strbody body ->
  forall (rest buf : string) (d n : Z),
    scan limit (body ++ rest) (st_of buf d true n)
    = scan limit rest (st_of (buf ++ body) d true n).
Proof.
  induction 1 as [| c s Hq Hb _ IH | c s _ IH]; intros rest buf d n.
  - now rewrite append_nil_r.
  - cbn [append]. rewrite (scan_in_string _ _ _ _ _ _ Hq Hb), IH.
    now rewrite push_append.
  - cbn [append]. rewrite scan_backslash, scan_escaped, IH.
    now rewrite !push_append.
Qed.

(** Below the top level a chunk is buffered whole: nothing completes, and the
    depth and the string state are the same before and after. *)
Lemma scan_chunk (limit : option Z) (text : string) :
  chunk text ->
  forall (rest buf : string) (d n : Z),
    (1 <= d)%Z ->
    scan limit (text ++ rest) (st_of buf d false n)
    = scan limit rest (st_of (buf ++ text) d false n).
Proof.
  induction 1 as [| c s Hq Ho Hc _ IH | body s Hb _ IH | inner s _ IHi _ IHs];
    intros rest buf d n Hd.
  - now rewrite append_nil_r.
  - cbn [append]. rewrite scan_plain by (assumption || lia).
    rewrite IH by assumption. now rewrite push_append.
  - cbn [append]. rewrite scan_quote by lia. cbn [negb].
    rewrite append_assoc, (scan_strbody _ _ Hb). cbn [append].
    rewrite scan_quote by lia. cbn [negb]. rewrite IH by assumption.
    now rewrite !push_append, !append_assoc.
  - cbn [append]. rewrite scan_open by lia.
    rewrite append_assoc, IHi by lia. cbn [append].
    rewrite scan_close by lia.
    replace (d + 1 - 1)%Z with d by lia. rewrite IHs by assumption.
    now rewrite !push_append, !append_assoc.
Qed.

Lemma strip_push_space (buf : string) (c : ascii) :
  all_chars is_space buf = true -> is_space c = true ->
  strip (push buf c) = "".
Proof.
  intros Hb Hc. apply strip_all. now rewrite all_chars_push, Hb, Hc.
Qed.

(** At the top level white space is buffered and completes nothing. *)
Lemma scan_space (limit : option Z) (c : ascii) (rest buf : string) (n : Z) :
  all_chars is_space buf = true -> is_space c = true ->
  scan limit (String c rest) (st_of buf 0 false n)
  = scan limit rest (st_of (push buf c) 0 false n).
Proof.
  intros Hb Hc. cbn [scan st_of escape_next in_string brace_depth buffer count].
  rewrite andb_false_r.
  rewrite (eqb_of_pred is_space c dquote_char Hc eq_refl).
  rewrite (eqb_of_pred is_space c "{"%char Hc eq_refl).
  rewrite (eqb_of_pred is_space c "}"%char Hc eq_refl).
  rewrite (strip_push_space _ _ Hb Hc). reflexivity.
Qed.

(** A comma at the top level is a segment of its own, dropped without
    decoding; so is the closing bracket. *)
Lemma scan_comma (limit : option Z) (rest buf : string) (n : Z) :
  all_chars is_space buf = true ->
  scan limit (String ","%char rest) (st_of buf 0 false n)
  = scan limit rest (st_of "" 0 false n).
Proof.
  intros Hb. cbn [scan st_of escape_next in_string brace_depth buffer count].
  change (Ascii.eqb ","%char backslash_char) with false.
  change (Ascii.eqb ","%char dquote_char) with false.
  change (Ascii.eqb ","%char "{"%char) with false.
  change (Ascii.eqb ","%char "}"%char) with false.
  unfold push. rewrite (strip_padded_char buf ","%char Hb eq_refl). reflexivity.
Qed.

Lemma scan_bracket (limit : option Z) (rest buf : string) (n : Z) :
  all_chars is_space buf = true ->
  scan limit (String "]"%char rest) (st_of buf 0 false n)
  = scan limit rest (st_of "" 0 false n).
Proof.
  intros Hb. cbn [scan st_of escape_next in_string brace_depth buffer count].
  change (Ascii.eqb "]"%char backslash_char) with false.
  change (Ascii.eqb "]"%char dquote_char) with false.
  change (Ascii.eqb "]"%char "{"%char) with false.
  change (Ascii.eqb "]"%char "}"%char) with false.
  unfold push. rewrite (strip_padded_char buf "]"%char Hb eq_refl). reflexivity.
Qed.

(** A gap leaves the scanner at the top level with a buffer of white space. *)
Lemma scan_gap (limit : option Z) (gap : string) :
  all_chars is_gap_or_bracket gap = true ->
  forall (rest buf : string) (n : Z),
    all_chars is_space buf = true ->
    exists buf',
      all_chars is_space buf' = true
      /\ scan limit (gap ++ rest) (st_of buf 0 false n)
         = scan limit rest (st_of buf' 0 false n).
Proof.
  induction gap as [|c gap IH]; intros Hg rest buf n Hb.
  - exists buf. split; [assumption | reflexivity].
  - cbn [all_chars] in Hg. apply andb_true_iff in Hg as [Hc Hg].
    cbn [append]. unfold is_gap_or_bracket, is_gap, is_comma in Hc.
    destruct (is_space c) eqn:Hs.
    + rewrite (scan_space _ _ _ _ _ Hb Hs).
      apply (IH Hg). now rewrite all_chars_push, Hb, Hs.
    + destruct (Ascii.eqb_spec c ","%char) as [-> |].
      * rewrite (scan_comma _ _ _ _ Hb). now apply (IH Hg).
      * destruct (Ascii.eqb_spec c "]"%char) as [-> |]; [| discriminate Hc].
        rewrite (scan_bracket _ _ _ _ Hb). now apply (IH Hg).
Qed.

Lemma scan_gap_end (limit : option Z) (gap buf : string) (n : Z) :
  all_chars is_gap_or_bracket gap = true ->
  all_chars is_space buf = true ->
  scan limit gap (st_of buf 0 false n) = [].
Proof.
  intros Hg Hb.
  destruct (scan_gap limit gap Hg "" buf n Hb) as (buf' & _ & H).
  rewrite append_nil_r in H. rewrite H. reflexivity.
Qed.

(** An object text at the top level is buffered up to its closing brace and
    then handed to the decoder. *)
Lemma scan_object (limit : option Z) (inner rest buf : string) (n : Z) :
  chunk inner ->
  all_chars is_space buf = true ->
  scan limit (object_text inner ++ rest) (st_of buf 0 false n)
  = match json_loads (object_text inner) with
    | Decoded obj =>
        Yield obj ::
          (if limit_reached limit (n + 1) then []
           else scan limit rest (st_of "" 0 false (n + 1)))
    | DecodeError e => Warning e :: scan limit rest (st_of "" 0 false n)
    | DecodeRaise e => [Abort e]
    end.
Proof.
  intros Hi Hb. unfold object_text. cbn [append].
  rewrite scan_open by lia. rewrite append_assoc.
  rewrite (scan_chunk _ _ Hi) by lia. cbn [append].
  cbn [scan st_of escape_next in_string brace_depth buffer count].
  change (Ascii.eqb "}"%char backslash_char) with false.
  change (Ascii.eqb "}"%char dquote_char) with false.
  change (Ascii.eqb "}"%char "{"%char) with false.
  change (Ascii.eqb "}"%char "}"%char) with true.
  cbn [andb negb].
  replace (push (push buf "{" ++ inner) "}")
    with (buf ++ String "{"%char (inner ++ String "}"%char ""))
    by (unfold push; now rewrite !append_assoc).
  rewrite (strip_padded buf inner "{"%char "}"%char Hb eq_refl eq_refl).
  change (String "{"%char (inner ++ String "}"%char ""))
    with ((String "{"%char inner) ++ String "}"%char "").
  rewrite (rstrip_with_keep is_comma _ "}"%char eq_refl).
  cbn [append is_empty negb andb]. 
  replace (String.eqb (String "{"%char (inner ++ "}")) "]") with false
    by (cbn [String.eqb]; reflexivity).
  cbn [negb]. reflexivity.
Qed.

Lemma is_gap_gap_or_bracket (gap : string) :
  all_chars is_gap gap = true -> all_chars is_gap_or_bracket gap = true.
Proof.
  apply all_chars_impl. intros c H. unfold is_gap_or_bracket. now rewrite H.
Qed.

Lemma scan_array_body (limit : option Z) (items : list (string * string))
    (closing : string) :
  Forall item_ok items ->
  all_chars is_gap_or_bracket closing = true ->
  forall (buf : string) (n : Z),
    all_chars is_space buf = true ->
    scan limit (array_body items closing) (st_of buf 0 false n)
    = events_upto limit n (map item_text items).
Proof.
  intros Hitems Hclosing. induction Hitems as [| [gap inner] items [Hg Hi] _ IH];
    intros buf n Hb.
  - cbn [array_body map events_upto]. now apply scan_gap_end.
  - cbn [array_body map events_upto item_text fst snd] in *.
    destruct (scan_gap limit gap (is_gap_gap_or_bracket _ Hg)
                (object_text inner ++ array_body items closing) buf n Hb)
      as (buf' & Hb' & ->).
    rewrite (scan_object _ _ _ _ _ Hi Hb').
    change (item_text (gap, inner)) with (object_text inner).
    destruct (json_loads (object_text inner)) as [obj | e | e].
    + destruct (limit_reached limit (n + 1)); [reflexivity |].
      now rewrite IH.
    + now rewrite IH.
    + reflexivity.
Qed.

Lemma events_upto_no_limit (n : Z) (texts : list string) (values : list json) :
  map json_loads texts = map Decoded values ->
  events_upto None n texts = map Yield values.
Proof.
  revert n values. induction texts as [| t texts IH]; intros n [| v values] H;
    try discriminate H; [reflexivity |].
  cbn [map] in H. injection H as Hv Hrest.
  cbn [events_upto map limit_reached]. rewrite Hv. now rewrite (IH _ _ Hrest).
Qed.

(** * The first line *)

Lemma readline_line (first rest : string) :
  has_char newline_char first = false ->
  readline (first ++ NL ++ rest) = (first ++ NL, rest).
Proof.
  induction first as [|c first IH]; intros H; [reflexivity |].
  cbn [has_char] in H. apply orb_false_iff in H as [Hc Hf].
  cbn [append readline]. rewrite Hc, (IH Hf). reflexivity.
Qed.

Lemma readline_last (first : string) :
  has_char newline_char first = false -> readline first = (first, "").
Proof.
  induction first as [|c first IH]; intros H; [reflexivity |].
  cbn [has_char] in H. apply orb_false_iff in H as [Hc Hf].
  cbn [readline]. rewrite Hc, (IH Hf). reflexivity.
Qed.

Lemma strip_line (first : string) : strip (first ++ NL) = strip first.
Proof.
  unfold strip, rstrip. now rewrite (rstrip_with_append_all is_space first NL).
Qed.

Lemma stream_after_first_line (first rest : string) (limit : option Z) :
  opens_array first = true ->
  stream_json_array (first ++ NL ++ rest) limit
  = Ok (scan limit rest initial_state).
Proof.
  intros H. unfold opens_array in H. apply andb_true_iff in H as [Hn Hs].
  apply negb_true_iff in Hn.
  unfold stream_json_array. rewrite (readline_line _ _ Hn), strip_line.
  now rewrite Hs.
Qed.

Lemma stream_single_line (first : string) (limit : option Z) :
  opens_array first = true -> stream_json_array first limit = Ok [].
Proof.
  intros H. unfold opens_array in H. apply andb_true_iff in H as [Hn Hs].
  apply negb_true_iff in Hn.
  unfold stream_json_array. rewrite (readline_last _ Hn). now rewrite Hs.
Qed.

Lemma opens_array_bracket (e : string) :
  has_char newline_char e = false -> opens_array (String "["%char e) = true.
Proof.
  intros H. unfold opens_array. cbn [has_char]. rewrite H.
  change (Ascii.eqb "["%char newline_char) with false. cbn [orb negb andb].
  unfold strip, rstrip. cbn [rstrip_with].
  change (is_space "["%char) with false. rewrite andb_false_r.
  cbn [lstrip]. change (is_space "["%char) with false.
  unfold startswith. destruct (rstrip_with is_space e); reflexivity.
Qed.

End Scanner.

(** * Texts that are chunks by inspection *)

Lemma chunk_of_plain (s : string) :
  all_chars no_quote_or_brace s = true -> chunk s.
Proof.
  induction s as [|c s IH]; intros H; [constructor |].
  cbn [all_chars] in H. apply andb_true_iff in H as [Hc Hs].
  unfold no_quote_or_brace in Hc.
  apply andb_true_iff in Hc as [Hc H3]. apply andb_true_iff in Hc as [H1 H2].
  apply negb_true_iff in H1, H2, H3. constructor; auto.
Qed.

Lemma strbody_of_plain (s : string) :
  all_chars no_quote_or_backslash s = true -> strbody s.
Proof.
  induction s as [|c s IH]; intros H; [constructor |].
  cbn [all_chars] in H. apply andb_true_iff in H as [Hc Hs].
  unfold no_quote_or_backslash in Hc. apply andb_true_iff in Hc as [H1 H2].
  apply negb_true_iff in H1, H2. constructor; auto.
Qed.

(** ["key"rest], as in one member ["key": value] of an object. *)
Lemma chunk_member (key rest : string) :
  all_chars no_quote_or_backslash key = true -> chunk rest ->
  chunk (DQ ++ key ++ DQ ++ rest).
Proof.
  intros Hk Hr. apply (chunk_string key rest); [now apply strbody_of_plain | exact Hr].
Qed.

Lemma chunk_sample_inner (n : string) :
  all_chars no_quote_or_brace n = true -> chunk (sample_inner n).
Proof.
  intros H. unfold sample_inner. apply chunk_member; [reflexivity |].
  apply (chunk_plain ":"); try reflexivity.
  apply (chunk_plain " "); try reflexivity.
  now apply chunk_of_plain.
Qed.

(** * The claims about the scanner *)

(** C9: whatever follows the opening bracket on the first line is consumed by
    the opening-bracket check: the run is the run on the same file with the
    bracket alone on its first line, so the elements of the first line are
    neither yielded nor warned about, and a file of a single line yields
    nothing. *)
Theorem first_line_elements_are_discarded {R : PyRuntime}
    (e rest : string) (limit : option Z) :
  has_char newline_char e = false ->
  stream_json_array ("[" ++ e ++ NL ++ rest) limit
  = stream_json_array ("[" ++ NL ++ rest) limit
  /\ stream_json_array ("[" ++ e ++ NL ++ rest) limit
     = Ok (scan limit rest initial_state)
  /\ stream_json_array ("[" ++ e) limit = Ok [].
Proof.
  intros H.
  pose proof (stream_after_first_line (String "["%char e) rest limit
                (opens_array_bracket e H)) as H1.
  pose proof (stream_after_first_line "[" rest limit eq_refl) as H2.
  pose proof (stream_single_line (String "["%char e) limit
                (opens_array_bracket e H)) as H3.
  cbn [append] in *. now rewrite H1, H2, H3.
Qed.

(** C9 at [[{"id": 1}, {"id": 2},] followed by [{"id": 3}] and the closing
    bracket on later lines: only the third element is yielded. *)
Lemma first_line_elements_are_discarded_witness :
  stream_json_array
    ("[" ++ (sample_object "1" ++ ", " ++ sample_object "2" ++ ",") ++ NL
         ++ (sample_object "3" ++ NL ++ "]")) None
  = stream_json_array ("[" ++ NL ++ (sample_object "3" ++ NL ++ "]")) None
  /\ stream_json_array ("[" ++ NL ++ (sample_object "3" ++ NL ++ "]")) None
     = Ok [Yield (sample_value 3)].
Proof.
  split.
  - exact (proj1 (first_line_elements_are_discarded (R := ref_runtime)
                    (sample_object "1" ++ ", " ++ sample_object "2" ++ ",")
                    (sample_object "3" ++ NL ++ "]") None eq_refl)).
  - vm_compute. reflexivity.
Defined.

(** The scanner on an array whose elements all decode. *)
Lemma scan_array_round_trip {R : PyRuntime} (first : string)
    (items : list (string * string)) (closing : string) (values : list json) :
  opens_array first = true ->
  Forall item_ok items ->
  all_chars is_gap_or_bracket closing = true ->
  map (fun item => json_loads (item_text item)) items = map Decoded values ->
  stream_json_array (first ++ NL ++ array_body items closing) None
  = Ok (map Yield values)
  /\ yielded (map Yield values) = values
  /\ List.length values = List.length items.
Proof.
  intros Hfirst Hitems Hclosing Hload.
  rewrite (stream_after_first_line _ _ _ Hfirst).
  change initial_state with (st_of "" 0 false 0).
  rewrite (scan_array_body None items closing Hitems Hclosing "" 0%Z eq_refl).
  rewrite (events_upto_no_limit 0 (map item_text items) values)
    by (now rewrite map_map).
  split; [reflexivity |]. split.
  - clear. induction values as [| v values IH]; [reflexivity |].
    cbn [map yielded]. now rewrite IH.
  - apply (f_equal (@List.length decoded)) in Hload.
    now rewrite !length_map in Hload.
Qed.



(** C3, what the code does with a serialization of a list written on one
    line, as [json.dumps] writes it: [readline] takes the whole first line
    for the opening bracket, the elements on it are never scanned, and
    nothing is yielded, neither for the one-element list nor for a longer
    one, although each element text decodes to the original. *)
Lemma one_line_array_yields_nothing :
  stream_json_array ("[" ++ sample_object "1" ++ "]") None = Ok []
  /\ json_loads (sample_object "1") = Decoded (sample_value 1)
  /\ stream_json_array
       ("[" ++ sample_object "1" ++ ", " ++ sample_object "2" ++ "]" ++ NL) None
     = Ok [].
Proof. repeat split; vm_compute; reflexivity. Qed.

(** C4, as amended: when, after the first line, a broken element that is
    itself an object text (it opens with a brace and ends with the matching
    brace, its braces balanced outside string literals and its string
    literals closed) and on which [json.loads] raises [JSONDecodeError] stands
    between two object texts it accepts, the scanner yields the two decoded
    elements with exactly one warning between them and raises nothing; the
    driver appends the warning to the diagnostics and leaves the collected
    output untouched.  When [json.loads] raises another exception on such an
    element, the scanner yields the first element and ends with that
    exception. *)
Theorem broken_segment_is_skipped {R : PyRuntime} (first : string)
    (first_item broken last_item : string * string) (closing : string)
    (v1 v3 : json) (e : string) :
  opens_array first = true ->
  item_ok first_item -> item_ok broken -> item_ok last_item ->
  all_chars is_gap_or_bracket closing = true ->
  json_loads (item_text first_item) = Decoded v1 ->
  json_loads (item_text broken) = DecodeError e ->
  json_loads (item_text last_item) = Decoded v3 ->
  stream_json_array
    (first ++ NL ++ array_body [first_item; broken; last_item] closing) None
  = Ok [Yield v1; Warning e; Yield v3]
  /\ yielded [Yield v1; Warning e; Yield v3] = [v1; v3]
  /\ warnings [Yield v1; Warning e; Yield v3] = [e]
  /\ (forall skip evs st,
         drive skip (Warning e :: evs) st
         = drive skip evs
             {| issue_count := issue_count st; skipped := skipped st;
                sparql_buffer := sparql_buffer st;
                diagnostics := (diagnostics st ++ [warning_line e])%list |})
  /\ (forall (fatal : string * string) (x : exn),
         item_ok fatal ->
         json_loads (item_text fatal) = DecodeRaise x ->
         stream_json_array
           (first ++ NL ++ array_body [first_item; fatal; last_item] closing)
           None
         = Ok [Yield v1; Abort x]).
Proof.
  intros Hfirst H1 H2 H3 Hclosing L1 L2 L3.
  rewrite !(stream_after_first_line _ _ _ Hfirst).
  change initial_state with (st_of "" 0 false 0).
  rewrite (scan_array_body None [first_item; broken; last_item] closing
             (Forall_cons _ H1 (Forall_cons _ H2 (Forall_cons _ H3 (Forall_nil _))))
             Hclosing "" 0%Z eq_refl).
  cbn [map events_upto limit_reached]. rewrite L1, L2, L3.
  repeat split.
  intros fatal x Hf Lf.
  rewrite (stream_after_first_line _ _ _ Hfirst).
  change initial_state with (st_of "" 0 false 0).
  rewrite (scan_array_body None [first_item; fatal; last_item] closing
             (Forall_cons _ H1 (Forall_cons _ Hf (Forall_cons _ H3 (Forall_nil _))))
             Hclosing "" 0%Z eq_refl).
  cbn [map events_upto limit_reached]. now rewrite L1, Lf.
Qed.

(** C4 at [{"id": 1}], the undecodable [{"id": }] and [{"id": 3}]. *)
Lemma broken_segment_is_skipped_witness :
  stream_json_array
    ("[" ++ NL
         ++ array_body
              [("", sample_inner "1"); ("," ++ NL, sample_inner "");
               ("," ++ NL, sample_inner "3")] (NL ++ "]" ++ NL)) None
  = Ok [Yield (sample_value 1); Warning "Expecting value"; Yield (sample_value 3)].
Proof.
  refine (proj1 (broken_segment_is_skipped (R := ref_runtime) "["
                   ("", sample_inner "1") ("," ++ NL, sample_inner "")
                   ("," ++ NL, sample_inner "3") (NL ++ "]" ++ NL)
                   (sample_value 1) (sample_value 3) "Expecting value"
                   eq_refl _ _ _ eq_refl _ _ _));
    try (split; [reflexivity | apply chunk_sample_inner; reflexivity]);
    vm_compute; reflexivity.
Defined.

(** C4, the claim as stated fails: an element broken by a missing closing
    brace never completes, so it swallows the element after it; one element is
    yielded and no warning is printed.  And a broken element that is no
    object text, such as the bare word [nul], is decoded character by
    character: three warnings are printed for it. *)
Lemma unclosed_element_swallows_the_rest :
  stream_json_array
    ("[" ++ NL ++ sample_object "1" ++ "," ++ NL
         ++ (String "{"%char (sample_inner "2")) ++ "," ++ NL
         ++ sample_object "3" ++ NL ++ "]" ++ NL) None
  = Ok [Yield (sample_value 1)]
  /\ json_loads (sample_object "3") = Decoded (sample_value 3)
  /\ json_loads (String "{"%char (sample_inner "2")) = DecodeError "Expecting value"
  /\ stream_json_array
       ("[" ++ NL ++ sample_object "1" ++ "," ++ NL ++ "nul," ++ NL
            ++ sample_object "3" ++ NL ++ "]" ++ NL) None
     = Ok [Yield (sample_value 1); Warning "Expecting value";
           Warning "Expecting value"; Warning "Expecting value";
           Yield (sample_value 3)].
Proof. repeat split; vm_compute; reflexivity. Qed.

(** * The limit of the scanner *)

Lemma events_upto_limit {R : PyRuntime} (l : Z) (texts : list string)
    (values : list json) :
  map json_loads texts = map Decoded values ->
  forall n : Z,
    (0 <= n < l)%Z ->
    events_upto (Some l) n texts
    = map Yield (firstn (Z.to_nat (l - n)) values).
Proof.
  revert values. induction texts as [| t texts IH]; intros [| v values] H n Hn;
    try discriminate.
  - now rewrite firstn_nil.
  - cbn [map] in H. injection H as Hv Hrest.
    cbn [events_upto limit_reached]. rewrite Hv.
    replace (Z.to_nat (l - n)) with (S (Z.to_nat (l - (n + 1)))) by lia.
    cbn [firstn map].
    replace (negb (l =? 0)%Z) with true
      by (symmetry; apply negb_true_iff, Z.eqb_neq; lia).
    cbn [andb]. destruct (Z.leb_spec l (n + 1)) as [Hle | Hgt].
    + replace (Z.to_nat (l - (n + 1))) with 0%nat by lia. reflexivity.
    + now rewrite (IH values Hrest (n + 1)%Z) by lia.
Qed.

(** With a positive limit the scanner stops after that many decoded
    elements, counted from the first element of the array, whatever the
    driver then does with them. *)
Lemma scanner_limit_counts_from_the_first_element {R : PyRuntime}
    (first : string) (items : list (string * string)) (closing : string)
    (values : list json) (l : Z) :
  opens_array first = true ->
  Forall item_ok items ->
  all_chars is_gap_or_bracket closing = true ->
  map (fun item => json_loads (item_text item)) items = map Decoded values ->
  (0 < l)%Z ->
  stream_json_array (first ++ NL ++ array_body items closing) (Some l)
  = Ok (map Yield (firstn (Z.to_nat l) values)).
Proof.
  intros Hfirst Hitems Hclosing Hload Hl.
  rewrite (stream_after_first_line _ _ _ Hfirst).
  change initial_state with (st_of "" 0 false 0).
  rewrite (scan_array_body (Some l) items closing Hitems Hclosing "" 0%Z eq_refl).
  rewrite (events_upto_limit l (map item_text items) values).
  - now rewrite Z.sub_0_r.
  - now rewrite map_map.
  - lia.
Qed.

(** C1, what the code does at the input of the claim: with [limit = 1] the
    scanner stops after the first record, which the driver then skips; no
    record is processed and no update block is written.  The second record is
    processed with [skip = 1] only from [limit = 2] on. *)
Theorem skip_one_limit_one_processes_nothing :
  stream_json_array three_records None
  = Ok [Yield (sample_value 1); Yield (sample_value 2); Yield (sample_value 3)]
  /\ stream_json_array three_records (Some 1%Z) = Ok [Yield (sample_value 1)]
  /\ main "comics.json" three_records (Some 1%Z) 1
     = {| stdout := header "comics.json"; stderr := [total_line 0];
          raised := None |}
  /\ stderr (main "comics.json" three_records (Some 2%Z) 1) = [total_line 1]
  /\ contains "issue_2" (stdout (main "comics.json" three_records (Some 2%Z) 1))
     = true.
Proof. repeat split; vm_compute; reflexivity. Qed.

(** * The end of the output *)

Lemma join_app (a b : list string) : join (a ++ b) = join a ++ join b.
Proof.
  induction a as [| x a IH]; cbn [join List.app]; [reflexivity |].
  now rewrite IH, append_assoc.
Qed.

Lemma drop_last_push (s : string) (c : ascii) : drop_last (s ++ String c "") = s.
Proof.
  induction s as [| a s IH]; [reflexivity |].
  cbn [append drop_last]. rewrite IH. destruct s; reflexivity.
Qed.

Lemma endswith_last (s : string) (c x : ascii) :
  endswith (s ++ String c "") (String x "") = Ascii.eqb c x.
Proof.
  induction s as [| a s IH].
  - cbn. destruct (Ascii.eqb c x); reflexivity.
  - cbn [append endswith]. rewrite IH.
    replace (String.eqb (String a (s ++ String c "")) (String x "")) with false;
      [reflexivity |].
    cbn [String.eqb]. destruct (Ascii.eqb a x); [| reflexivity].
    destruct s; reflexivity.
Qed.

Section Driver.

Context {R : PyRuntime}.

Lemma process_issue_closed (issue : json) (lines : list string) :
  process_issue issue = Ok lines -> closed_buffer lines.
Proof.
  unfold process_issue. intros H. apply bind_Ok in H as (ts & _ & H).
  destruct ts as [| t ts]; apply Ok_inj in H; subst lines; [now left |].
  right. exists (block_open ++ join (map triple_line (t :: ts))).
  cbn [join]. rewrite join_app. cbn [join].
  now rewrite append_nil_r, append_assoc.
Qed.

Lemma closed_buffer_app (a b : list string) :
  closed_buffer a -> closed_buffer b -> closed_buffer (a ++ b).
Proof.
  intros Ha [-> | (pre & Hb)].
  - now rewrite app_nil_r.
  - right. exists (join a ++ pre). now rewrite join_app, Hb, append_assoc.
Qed.

Lemma drive_closed (skip : Z) (evs : list event) :
  forall st,
    closed_buffer (sparql_buffer st) ->
    closed_buffer (sparql_buffer (fst (drive skip evs st))).
Proof.
  induction evs as [| [issue | e | e] evs IH]; intros st Hst; cbn [drive].
  - exact Hst.
  - destruct (skipped st <? skip)%Z.
    + apply IH. exact Hst.
    + destruct (process_issue issue) as [lines | ex] eqn:E.
      * apply IH. cbn [sparql_buffer].
        apply closed_buffer_app; [exact Hst | exact (process_issue_closed _ _ E)].
      * exact Hst.
  - apply IH. exact Hst.
  - exact Hst.
Qed.

Lemma final_text_closed (lines : list string) :
  closed_buffer lines ->
  final_text lines = "" \/ exists pre, final_text lines = pre ++ "} " ++ NL.
Proof.
  intros [-> | (pre & H)]; [now left |].
  destruct lines as [| l lines]; [now left |]. right. exists pre.
  unfold final_text. rewrite H. unfold block_close, rstrip.
  replace (pre ++ "} ;" ++ NL ++ NL)
    with (((pre ++ "} ") ++ String ";"%char "") ++ (NL ++ NL))
    by (now rewrite !append_assoc).
  rewrite (rstrip_with_append_all is_space _ (NL ++ NL) eq_refl).
  rewrite (rstrip_with_keep is_space (pre ++ "} ") ";"%char eq_refl).
  rewrite endswith_last. cbn [Ascii.eqb Bool.eqb].
  rewrite drop_last_push. now rewrite append_assoc.
Qed.

Lemma header_shape (input_file : string) :
  exists pre, header input_file = (pre ++ String "/"%char "") ++ (NL ++ NL).
Proof.
  exists ("# SPARQL INSERT statements generated from " ++ input_file ++ NL
          ++ "# Namespace: " ++ NAMESPACE ++ NL
          ++ "# Base URI: http://knowledge.graph/data").
  unfold header, BASE_URI. rewrite !append_assoc. reflexivity.
Qed.

Lemma stdout_shape (input_file content : string) (limit : option Z) (skip : Z) :
  stdout (main input_file content limit skip) = header input_file
  \/ exists pre,
      stdout (main input_file content limit skip)
      = header input_file ++ pre ++ "} " ++ NL.
Proof.
  unfold main. destruct (stream_json_array content limit) as [evs | e];
    [| now left].
  pose proof (drive_closed skip evs initial_driver_state (or_introl eq_refl)) as H.
  destruct (drive skip evs initial_driver_state) as [st [e |]]; [now left |].
  cbn [fst stdout] in *.
  destruct (final_text_closed _ H) as [-> | (pre & ->)].
  - left. apply append_nil_r.
  - right. now exists pre.
Qed.

(** C8: the text written to the output sink is the header alone or the header
    followed by update blocks; in both cases it ends with a newline and its
    last character before the trailing white space is not the semicolon that
    separates blocks (after a last block it is the closing brace). *)
Theorem output_has_no_dangling_separator
    (input_file content : string) (limit : option Z) (skip : Z) :
  endswith (rstrip (stdout (main input_file content limit skip))) ";" = false
  /\ endswith (stdout (main input_file content limit skip)) NL = true
  /\ (stdout (main input_file content limit skip) = header input_file
      \/ exists pre,
          stdout (main input_file content limit skip)
          = header input_file ++ pre ++ "} " ++ NL).
Proof.
  pose proof (stdout_shape input_file content limit skip) as H.
  split; [| split; [| exact H]].
  - destruct H as [-> | (pre & ->)].
    + destruct (header_shape input_file) as (p & ->). unfold rstrip.
      rewrite (rstrip_with_append_all is_space _ (NL ++ NL) eq_refl).
      rewrite (rstrip_with_keep is_space p "/"%char eq_refl).
      apply endswith_last.
    + unfold rstrip.
      replace (header input_file ++ pre ++ "} " ++ NL)
        with (((header input_file ++ pre) ++ String "}"%char "") ++ (" " ++ NL))
        by (now rewrite !append_assoc).
      rewrite (rstrip_with_append_all is_space _ (" " ++ NL) eq_refl).
      rewrite (rstrip_with_keep is_space _ "}"%char eq_refl).
      apply endswith_last.
  - destruct H as [-> | (pre & ->)].
    + destruct (header_shape input_file) as (p & ->).
      apply endswith_append_r. reflexivity.
    + apply endswith_append_r, endswith_append_r. reflexivity.
Qed.

End Driver.

(** * The serializer writes chunks *)

Lemma json_nested_ind (P : json -> Prop) :
  P JNull -> (forall b, P (JBool b)) -> (forall n, P (JInt n)) ->
  (forall q, P (JFloat q)) -> (forall s, P (JStr s)) ->
  (forall items, Forall P items -> P (JArr items)) ->
  (forall fields, Forall (fun kv => P (snd kv)) fields -> P (JObj fields)) ->
  forall v, P v.
Proof.
  intros Hnull Hbool Hint Hfloat Hstr Harr Hobj.
  fix IH 1. intros [| b | n | q | s | items | fields].
  - exact Hnull.
  - apply Hbool.
  - apply Hint.
  - apply Hfloat.
  - apply Hstr.
  - apply Harr. induction items as [| x items IHitems]; constructor.
    + apply IH.
    + exact IHitems.
  - apply Hobj. induction fields as [| [k x] fields IHfields]; constructor.
    + apply IH.
    + exact IHfields.
Qed.

Lemma chunk_app (a b : string) : chunk a -> chunk b -> chunk (a ++ b).
Proof.
  intros Ha Hb. induction Ha as [| c s Hq Ho Hc _ IH | body s Hbody _ IH
                                | inner s Hinner _ _ IH]; cbn [append].
  - exact Hb.
  - now constructor.
  - rewrite append_assoc. cbn [append]. now constructor.
  - rewrite append_assoc. cbn [append]. now constructor.
Qed.

Lemma strbody_app (a b : string) : strbody a -> strbody b -> strbody (a ++ b).
Proof.
  intros Ha Hb. induction Ha as [| c s Hq Hbs _ IH | c s _ IH]; cbn [append].
  - exact Hb.
  - now constructor.
  - now constructor.
Qed.

Lemma strbody_escape_json_char (c : ascii) : strbody (escape_json_char c).
Proof.
  unfold escape_json_char.
  destruct (Ascii.eqb c dquote_char) eqn:Eq;
    [apply strbody_escape, strbody_nil |].
  destruct (Ascii.eqb c backslash_char) eqn:Eb;
    [apply strbody_escape, strbody_nil |].
  do 5 (match goal with
        | |- strbody (if ?b then _ else _) => destruct b
        end; [apply strbody_escape, strbody_nil |]).
  match goal with
  | |- strbody (if ?b then _ else _) => destruct b
  end.
  - apply (strbody_escape "u"%char).
    apply strbody_of_plain. cbn [all_chars append].
    assert (Hd : forall n, (n < 16)%nat ->
                           no_quote_or_backslash (hex_digit_lower n) = true).
    { intros n Hn. do 16 (destruct n as [| n]; [reflexivity |]). lia. }
    rewrite !Hd; [reflexivity | |].
    + apply Nat.mod_upper_bound. lia.
    + apply Nat.Div0.div_lt_upper_bound. pose proof (nat_of_ascii_bound c). lia.
  - apply strbody_plain; [exact Eq | exact Eb | apply strbody_nil].
Qed.

Lemma strbody_escape_json (s : string) : strbody (escape_json s).
Proof.
  induction s as [| c s IH]; cbn [escape_json]; [constructor |].
  apply strbody_app; [apply strbody_escape_json_char | exact IH].
Qed.

Lemma chunk_dumps_string (s rest : string) :
  chunk rest -> chunk (dumps_string s ++ rest).
Proof.
  intros H. unfold dumps_string, DQ. cbn [append].
  rewrite append_assoc. cbn [append].
  apply chunk_string; [apply strbody_escape_json | exact H].
Qed.

Lemma all_chars_string_of_uint (d : Decimal.uint) :
  all_chars no_quote_or_brace (NilEmpty.string_of_uint d) = true.
Proof. induction d; cbn [NilEmpty.string_of_uint all_chars]; now rewrite ?IHd. Qed.

Lemma all_chars_Z_to_string (z : Z) :
  all_chars no_quote_or_brace (Z_to_string z) = true.
Proof.
  unfold Z_to_string, NilZero.string_of_int, NilZero.string_of_uint.
  destruct (Z.to_int z) as [d | d]; destruct d; cbn [all_chars];
    try reflexivity; rewrite ?all_chars_string_of_uint; reflexivity.
Qed.

Lemma chunk_join_with {A : Type} (f : A -> string) (xs : list A) :
  Forall (fun x => chunk (f x)) xs -> chunk (join_with f ", " xs).
Proof.
  induction 1 as [| x xs Hx Hxs IH]; [constructor |].
  destruct xs as [| y xs]; [exact Hx |].
  change (chunk (f x ++ ", " ++ join_with f ", " (y :: xs))).
  apply chunk_app; [exact Hx |].
  apply chunk_app; [now apply chunk_of_plain | exact IH].
Qed.

Section Serializer.

Context {R : PyRuntime}.

(** [repr] of a float holds digits, a sign, a point, an exponent or the
    letters of [inf] and [nan]: no quote and no brace. *)
Hypothesis float_repr_plain :
  forall q, all_chars no_quote_or_brace (py_repr (JFloat q)) = true.

Lemma chunk_dumps (v : json) : chunk (dumps v).
Proof.
  induction v as [| b | n | q | s | items IH | fields IH] using json_nested_ind.
  - now apply chunk_of_plain.
  - destruct b; now apply chunk_of_plain.
  - apply chunk_of_plain, all_chars_Z_to_string.
  - apply chunk_of_plain, float_repr_plain.
  - cbn [dumps]. rewrite <- (append_nil_r (dumps_string s)).
    apply chunk_dumps_string. constructor.
  - cbn [dumps]. apply (chunk_plain "["%char); try reflexivity.
    apply chunk_app; [| now apply chunk_of_plain].
    apply chunk_join_with. exact IH.
  - cbn [dumps]. apply (chunk_group _ ""); [| constructor].
    apply chunk_join_with.
    refine (Forall_impl _ _ IH). intros [k x] Hx. cbn [snd] in Hx.
    apply chunk_dumps_string. apply chunk_app; [now apply chunk_of_plain | exact Hx].
Qed.

Lemma dumps_object (fields : list (string * json)) :
  dumps (JObj fields) = object_text (dumps_members fields)
  /\ chunk (dumps_members fields).
Proof.
  split; [reflexivity |].
  unfold dumps_members. apply chunk_join_with.
  induction fields as [| [k x] fields IHf]; constructor; [| exact IHf].
  apply chunk_dumps_string.
  apply chunk_app; [now apply chunk_of_plain | apply chunk_dumps].
Qed.

Lemma one_per_line_ok (inners : list string) (first : bool) :
  Forall chunk inners -> Forall item_ok (one_per_line inners first).
Proof.
  intros H. revert first.
  induction H as [| inner inners Hi _ IH]; intros first; constructor.
  - split; [now destruct first | exact Hi].
  - apply IH.
Qed.

End Serializer.

(** Every list of JSON objects, written by [dumps] one element per line after
    the opening line, is scanned back element by element, provided the decoder
    reads back what [dumps] wrote. *)
Lemma dumps_round_trip {R : PyRuntime} (objects : list (list (string * json))) :
  (forall q, all_chars no_quote_or_brace (py_repr (JFloat q)) = true) ->
  Forall (fun fields => json_loads (dumps (JObj fields)) = Decoded (JObj fields))
    objects ->
  stream_json_array
    ("[" ++ NL
         ++ array_body (one_per_line (map dumps_members objects) true)
              (NL ++ "]" ++ NL)) None
  = Ok (map Yield (map JObj objects)).
Proof.
  intros Hfloat Hload.
  refine (proj1 (scan_array_round_trip "["
                   (one_per_line (map dumps_members objects) true)
                   (NL ++ "]" ++ NL) (map JObj objects) eq_refl _ eq_refl _)).
  - apply one_per_line_ok. apply Forall_map.
    apply Forall_forall. intros fields _.
    exact (proj2 (dumps_object Hfloat fields)).
  - generalize true. induction Hload as [| fields objects Hf _ IH]; intros first;
      [reflexivity |].
    cbn [map one_per_line]. rewrite <- (IH false). f_equal.
    exact Hf.
Qed.

(** The round trip of two objects with a nested list and an escaped quote. *)
Lemma dumps_round_trip_example :
  map (fun fields => dumps (R := ref_runtime) (JObj fields))
    [[("id", JInt 1); ("tags", JArr [JStr "a}b"; JNull])];
     [("id", JInt 2); ("name", JStr (String dquote_char "x"))]]
  = [ "{" ++ DQ ++ "id" ++ DQ ++ ": 1, " ++ DQ ++ "tags" ++ DQ ++ ": ["
          ++ DQ ++ "a}b" ++ DQ ++ ", null]}";
      "{" ++ DQ ++ "id" ++ DQ ++ ": 2, " ++ DQ ++ "name" ++ DQ ++ ": "
          ++ DQ ++ "\" ++ DQ ++ "x" ++ DQ ++ "}" ]
  /\ yielded
       (match
          stream_json_array (R := ref_runtime)
            ("[" ++ NL
                 ++ array_body
                      (one_per_line
                         (map (dumps_members (R := ref_runtime))
                            [[("id", JInt 1); ("tags", JArr [JStr "a}b"; JNull])];
                             [("id", JInt 2);
                              ("name", JStr (String dquote_char "x"))]]) true)
                      (NL ++ "]" ++ NL)) None
        with
        | Ok evs => evs
        | Raise _ => []
        end)
     = [ JObj [("id", JInt 1); ("tags", JArr [JStr "a}b"; JNull])];
         JObj [("id", JInt 2); ("name", JStr (String dquote_char "x"))] ].
Proof. split; vm_compute; reflexivity. Qed.

(** * Further properties: escaping *)

Lemma replace_char_app (c : ascii) (by_ a b : string) :
  replace_char c by_ (a ++ b) = replace_char c by_ a ++ replace_char c by_ b.
Proof.
  induction a as [| x a IH]; cbn [append replace_char]; [reflexivity |].
  rewrite IH. destruct (Ascii.eqb x c); [now rewrite append_assoc | reflexivity].
Qed.

Lemma has_char_append (c : ascii) (a b : string) :
  has_char c (a ++ b) = has_char c a || has_char c b.
Proof.
  induction a as [| x a IH]; cbn [append has_char]; [reflexivity |].
  now rewrite IH, orb_assoc.
Qed.

Lemma escape_text_cons (c : ascii) (s : string) :
  escape_text (String c s) = escape_sparql_char c ++ escape_text s.
Proof.
  unfold escape_text, escape_sparql_char. cbn [replace_char].
  destruct (Ascii.eqb_spec c backslash_char) as [-> | Hb].
  - rewrite !replace_char_app. reflexivity.
  - destruct (Ascii.eqb_spec c dquote_char) as [-> | Hq].
    + cbn [replace_char]. rewrite Ascii.eqb_refl, !replace_char_app. reflexivity.
    + apply Ascii.eqb_neq in Hq. cbn [replace_char]. rewrite Hq.
      destruct (Ascii.eqb_spec c newline_char) as [-> | Hn].
      * cbn [replace_char]. rewrite Ascii.eqb_refl, !replace_char_app. reflexivity.
      * apply Ascii.eqb_neq in Hn. cbn [replace_char]. rewrite Hn.
        cbn [replace_char]. destruct (Ascii.eqb c return_char); reflexivity.
Qed.

Lemma escape_sparql_char_safe (c : ascii) :
  strbody (escape_sparql_char c)
  /\ has_char newline_char (escape_sparql_char c) = false
  /\ has_char return_char (escape_sparql_char c) = false
  /\ (1 <= length (escape_sparql_char c) <= 2)%nat.
Proof.
  unfold escape_sparql_char.
  destruct (Ascii.eqb c backslash_char) eqn:Eb;
    [repeat split; [apply strbody_escape, strbody_nil | cbn; lia ..] |].
  destruct (Ascii.eqb c dquote_char) eqn:Eq;
    [repeat split; [apply strbody_escape, strbody_nil | cbn; lia ..] |].
  destruct (Ascii.eqb c newline_char) eqn:En;
    [repeat split; [apply strbody_escape, strbody_nil | cbn; lia ..] |].
  destruct (Ascii.eqb c return_char) eqn:Er;
    [repeat split; [apply strbody_escape, strbody_nil | cbn; lia ..] |].
  repeat split; try (cbn; lia).
  - apply strbody_plain; [exact Eq | exact Eb | apply strbody_nil].
  - cbn [has_char]. now rewrite En.
  - cbn [has_char]. now rewrite Er.
Qed.

Lemma escape_text_safe (s : string) :
  strbody (escape_text s)
  /\ has_char newline_char (escape_text s) = false
  /\ has_char return_char (escape_text s) = false
  /\ (length s <= length (escape_text s) <= 2 * length s)%nat.
Proof.
  induction s as [| c s (IH1 & IH2 & IH3 & IH4)].
  - repeat split; try constructor; cbn; lia.
  - rewrite escape_text_cons.
    destruct (escape_sparql_char_safe c) as (H1 & H2 & H3 & H4).
    repeat split.
    + now apply strbody_app.
    + now rewrite has_char_append, H2, IH2.
    + now rewrite has_char_append, H3, IH3.
    + rewrite length_append. cbn [length]. lia.
    + rewrite length_append. cbn [length]. lia.
Qed.

(** X1: whatever value is escaped, the result can stand between the quotes
    of a literal: every double quote and every backslash of it is part of a
    backslash escape, none is left dangling at the end, and it holds no raw
    newline and no raw carriage return; [None] gives the empty text. *)
Theorem escape_sparql_string_is_literal_safe {R : PyRuntime} (v : json) :
  strbody (escape_sparql_string v)
  /\ has_char newline_char (escape_sparql_string v) = false
  /\ has_char return_char (escape_sparql_string v) = false
  /\ escape_sparql_string JNull = "".
Proof.
  assert (H : escape_sparql_string v = "" \/
              escape_sparql_string v = escape_text (py_str v)).
  { destruct v; [now left | now right ..]. }
  destruct H as [-> | ->].
  - repeat split; constructor.
  - destruct (escape_text_safe (py_str v)) as (H1 & H2 & H3 & _).
    repeat split; assumption.
Qed.

(** * Further properties: URI components *)

Lemma in_all_ascii (c : ascii) : In c all_ascii.
Proof.
  unfold all_ascii. rewrite <- (ascii_nat_embedding c).
  apply in_map, in_seq. pose proof (nat_of_ascii_bound c). lia.
Qed.

Lemma prefix_nil (s : string) : prefix "" s = true.
Proof. destruct s; reflexivity. Qed.

Lemma prefix_or (x y a b : string) :
  x ++ a = y ++ b -> prefix x y = true \/ prefix y x = true.
Proof.
  revert y. induction x as [| c x IH]; intros y H.
  - left. apply prefix_nil.
  - destruct y as [| d y]; [right; apply prefix_nil |].
    cbn [append] in H. injection H as -> H.
    cbn [prefix]. destruct (ascii_dec d d) as [_ | N]; [| now destruct N].
    now apply IH.
Qed.

Lemma quote_char_prefix_table :
  forallb (fun c =>
     forallb (fun d => implb (prefix (quote_char c) (quote_char d))
                             (Ascii.eqb c d)) all_ascii) all_ascii = true.
Proof. vm_compute. reflexivity. Qed.

Lemma quote_char_prefix (c d : ascii) :
  prefix (quote_char c) (quote_char d) = true -> c = d.
Proof.
  intros H. pose proof quote_char_prefix_table as T.
  rewrite forallb_forall in T. specialize (T c (in_all_ascii c)).
  rewrite forallb_forall in T. specialize (T d (in_all_ascii d)).
  rewrite H in T. now apply Ascii.eqb_eq.
Qed.

Lemma quote_char_not_empty (c : ascii) (s : string) : quote_char c ++ s <> "".
Proof.
  unfold quote_char, utf8_bytes.
  destruct (is_unreserved c); [discriminate |].
  destruct (nat_of_ascii c <? 128)%nat; discriminate.
Qed.

(** [quote] loses nothing: the escaped text determines the text. *)
Lemma quote_injective (s t : string) : quote s = quote t -> s = t.
Proof.
  revert t. induction s as [| c s IH]; intros [| d t] H; cbn [quote] in H.
  - reflexivity.
  - symmetry in H. now apply quote_char_not_empty in H.
  - now apply quote_char_not_empty in H.
  - assert (c = d) as ->.
    { destruct (prefix_or _ _ _ _ H) as [P | P];
        [| symmetry]; now apply quote_char_prefix. }
    apply append_cancel_l in H. f_equal. now apply IH.
Qed.

Lemma underscored_cons (c : ascii) (s : string) :
  underscored (String c s)
  = String (if is_separator c then "_"%char else c) (underscored s).
Proof.
  unfold underscored, is_separator. cbn [replace_char].
  destruct (Ascii.eqb_spec c " "%char) as [-> | H1]; [reflexivity |].
  cbn [replace_char append orb].
  destruct (Ascii.eqb_spec c "/"%char) as [-> | H2]; [reflexivity |].
  cbn [replace_char append orb].
  destruct (Ascii.eqb_spec c ":"%char) as [-> | H3]; [reflexivity |].
  cbn [append orb].
  destruct (Ascii.eqb_spec c "_"%char) as [-> | H4]; reflexivity.
Qed.

Lemma same_slot (c d : ascii) :
  (if is_separator c then "_"%char else c)
  = (if is_separator d then "_"%char else d)
  <-> Ascii.eqb c d || is_separator c && is_separator d = true.
Proof.
  destruct (is_separator c) eqn:Ec, (is_separator d) eqn:Ed;
    cbn [andb]; rewrite ?orb_true_r, ?orb_false_r.
  - tauto.
  - split; [intros <-; discriminate Ed |].
    intros H. apply Ascii.eqb_eq in H. subst d. congruence.
  - split; [intros ->; discriminate Ec |].
    intros H. apply Ascii.eqb_eq in H. subst d. congruence.
  - now rewrite Ascii.eqb_eq.
Qed.

Lemma underscored_same_component (s t : string) :
  underscored s = underscored t <-> same_component s t = true.
Proof.
  revert t. induction s as [| c s IH]; intros [| d t];
    rewrite ?underscored_cons; cbn [same_component].
  - split; reflexivity.
  - split; discriminate.
  - split; discriminate.
  - rewrite andb_true_iff, <- same_slot, <- IH. split.
    + intros H. injection H as H1 H2. now split.
    + intros [H1 H2]. now rewrite H1, H2.
Qed.

(** X2: two texts get the same URI component exactly when they have the same
    length and agree character by character up to the choice among space,
    slash, colon and underscore: percent-escaping merges nothing, the three
    replacements merge these four characters. *)
Theorem safe_uri_collides_only_on_separators (s t : string) :
  safe_uri s = safe_uri t <-> same_component s t = true.
Proof.
  rewrite <- underscored_same_component. unfold safe_uri.
  fold (underscored s). fold (underscored t). split.
  - apply quote_injective.
  - now intros ->.
Qed.

(** * Further properties: the driver loop *)

Lemma drive_maps_process_issue {R : PyRuntime} (skip : Z) (evs : list event) :
  forall st : driver_state,
    match mapM process_issue
            (skipn (Z.to_nat (skip - skipped st)) (yielded evs)) with
    | Ok blocks =>
        match aborted evs with
        | None =>
            snd (drive skip evs st) = None
            /\ sparql_buffer (fst (drive skip evs st))
               = (sparql_buffer st ++ List.concat blocks)%list
            /\ issue_count (fst (drive skip evs st))
               = (issue_count st + Z.of_nat (List.length blocks))%Z
        | Some e => snd (drive skip evs st) = Some e
        end
    | Raise e => snd (drive skip evs st) = Some e
    end.
Proof.
  induction evs as [| [issue | w | x] evs IH]; intros st;
    cbn [drive yielded aborted].
  - rewrite skipn_nil. cbn [mapM List.concat List.length].
    rewrite app_nil_r, Z.add_0_r. now repeat split.
  - destruct (Z.ltb_spec (skipped st) skip) as [Hlt | Hge].
    + replace (Z.to_nat (skip - skipped st))
        with (S (Z.to_nat (skip - (skipped st + 1)))) by lia.
      cbn [skipn].
      exact (IH {| issue_count := issue_count st; skipped := (skipped st + 1)%Z;
                   sparql_buffer := sparql_buffer st;
                   diagnostics := diagnostics st |}).
    + replace (Z.to_nat (skip - skipped st)) with 0%nat by lia.
      cbn [skipn mapM].
      destruct (process_issue issue) as [lines | e]; cbn [bind snd];
        [| reflexivity].
      match goal with
      | |- context [drive skip evs ?st'] => specialize (IH st')
      end.
      cbn [skipped sparql_buffer issue_count] in IH.
      replace (Z.to_nat (skip - skipped st)) with 0%nat in IH by lia.
      cbn [skipn] in IH.
      destruct (mapM process_issue (yielded evs)) as [blocks | e];
        cbn [bind]; [| exact IH].
      destruct (aborted evs); [exact IH |].
      destruct IH as (H1 & H2 & H3). cbn [List.concat List.length].
      rewrite H1, H2, H3, app_assoc. repeat split. lia.
  - exact (IH {| issue_count := issue_count st; skipped := skipped st;
                 sparql_buffer := sparql_buffer st;
                 diagnostics := (diagnostics st ++ [warning_line w])%list |}).
  - rewrite skipn_nil. reflexivity.
Qed.

(** X3: once the first line is accepted, a run is the map of [process_issue]
    over the elements the scanner yields after the first [skip] of them (a
    [skip] of zero or less skips none), in order.  If every call succeeds and
    the scanner raises nothing, the output is the header and the joined
    blocks with the last separator removed, and the last line on [stderr]
    reports their number.  If a call raises, or if the scanner ends with an
    exception of [json.loads] that is no [JSONDecodeError], the run ends with
    that exception (the first of them in the order of the loop) and only the
    header has been written, the blocks of the issues before it included. *)
Theorem main_maps_process_issue_after_skip {R : PyRuntime}
    (input_file content : string) (limit : option Z) (skip : Z)
    (evs : list event) :
  stream_json_array content limit = Ok evs ->
  match mapM process_issue (processed skip evs) with
  | Ok blocks =>
      match aborted evs with
      | None =>
          raised (main input_file content limit skip) = None
          /\ stdout (main input_file content limit skip)
             = header input_file ++ final_text (List.concat blocks)
          /\ last (stderr (main input_file content limit skip)) ""
             = total_line (Z.of_nat (List.length blocks))
      | Some e =>
          raised (main input_file content limit skip) = Some e
          /\ stdout (main input_file content limit skip) = header input_file
      end
  | Raise e =>
      raised (main input_file content limit skip) = Some e
      /\ stdout (main input_file content limit skip) = header input_file
  end.
Proof.
  intros H. unfold main, processed. rewrite H.
  pose proof (drive_maps_process_issue skip evs initial_driver_state) as D.
  cbn [initial_driver_state skipped sparql_buffer issue_count] in D.
  rewrite Z.sub_0_r in D.
  destruct (mapM process_issue (skipn (Z.to_nat skip) (yielded evs)))
    as [blocks | e]; [destruct (aborted evs) as [x |] |];
    destruct (drive skip evs initial_driver_state) as [st [e' |]];
    cbn [fst snd] in D; cbn [raised stdout stderr].
  - injection D as ->. now split.
  - discriminate D.
  - now destruct D.
  - destruct D as (_ & D2 & D3). cbn [List.app] in D2.
    rewrite D2, D3, last_last. now repeat split.
  - injection D as ->. now split.
  - discriminate D.
Qed.

(** X3 at three records with the first one skipped: two blocks are written. *)
Lemma main_maps_process_issue_after_skip_witness :
  stream_json_array three_records None
  = Ok [Yield (sample_value 1); Yield (sample_value 2); Yield (sample_value 3)]
  /\ raised (main "comics.json" three_records None 1) = None
  /\ last (stderr (main "comics.json" three_records None 1)) ""
     = total_line 2.
Proof.
  assert (H : stream_json_array three_records None
              = Ok [Yield (sample_value 1); Yield (sample_value 2);
                    Yield (sample_value 3)])
    by (vm_compute; reflexivity).
  split; [exact H |].
  pose proof (main_maps_process_issue_after_skip
                "comics.json" three_records None 1 _ H) as T.
  assert (L : match mapM process_issue
                       (processed 1 [Yield (sample_value 1);
                                     Yield (sample_value 2);
                                     Yield (sample_value 3)]) with
               | Ok b => Z.of_nat (List.length b) = 2%Z
               | Raise _ => False
               end) by (vm_compute; reflexivity).
  cbn [aborted] in T.
  destruct (mapM process_issue
              (processed 1 [Yield (sample_value 1); Yield (sample_value 2);
                            Yield (sample_value 3)])) as [blocks | e].
  - destruct T as (T1 & _ & T3). split; [exact T1 |]. now rewrite T3, L.
  - destruct L.
Defined.

(** * Further properties: one issue *)

Lemma issue_triples_at_least_seven {R : PyRuntime} (issue_data : json)
    (ts : list string) :
  generate_issue_triples issue_data = Ok ts -> (7 <= List.length ts)%nat.
Proof.
  intros H. unfold generate_issue_triples in H. invert_binds H.
  apply Ok_inj in H. subst ts. rewrite !length_app. cbn [List.length]. lia.
Qed.

(** X4: an issue that is converted gives exactly one update block: the
    opening line, one line for each of its triples, of which there are at
    least seven, and the closing line with the separator.  An issue that is
    no object raises [TypeError]; an object without ["id"] raises
    [KeyError], whatever else it holds. *)
Theorem process_issue_gives_one_block {R : PyRuntime} :
  (forall issue lines,
      process_issue issue = Ok lines ->
      exists ts,
        all_triples_of issue = Ok ts
        /\ (7 <= List.length ts)%nat
        /\ lines = (block_open :: map triple_line ts ++ [block_close])%list)
  /\ (forall issue,
         match issue with JObj _ => False | _ => True end ->
         process_issue issue = Raise TypeError)
  /\ (forall fields,
         lookup "id" fields = None ->
         process_issue (JObj fields) = Raise (KeyError "id")).
Proof.
  split; [| split].
  - intros issue lines H. unfold process_issue in H.
    apply bind_Ok in H as (ts & Hts & H). exists ts.
    assert (L : (7 <= List.length ts)%nat).
    { unfold all_triples_of in Hts. invert_binds Hts.
      apply Ok_inj in Hts. subst ts.
      match goal with
      | E : generate_issue_triples issue = Ok _ |- _ =>
          apply issue_triples_at_least_seven in E
      end.
      rewrite !length_app. lia. }
    destruct ts as [| t ts]; [cbn in L; lia |].
    apply Ok_inj in H. now subst lines.
  - intros issue H. destruct issue; try reflexivity. destruct H.
  - intros fields H. unfold process_issue, all_triples_of, subscript.
    now rewrite H.
Qed.

(** X4 at the record [{"id": 1}]. *)
Lemma process_issue_gives_one_block_witness :
  succeeds (process_issue (sample_value 1)) = true
  /\ exists ts,
       all_triples_of (sample_value 1) = Ok ts
       /\ (7 <= List.length ts)%nat
       /\ triples_of (process_issue (sample_value 1))
          = (block_open :: map triple_line ts ++ [block_close])%list.
Proof.
  split; [vm_compute; reflexivity |].
  destruct (proj1 process_issue_gives_one_block (sample_value 1)
              (triples_of (process_issue (sample_value 1))))
    as (ts & H1 & H2 & H3).
  - apply Ok_triples_of. vm_compute. reflexivity.
  - exists ts. now repeat split.
Defined.

Lemma infer_format_class_null {R : PyRuntime} (fields : list (string * json)) :
  null_series_or_type fields = true ->
  infer_format_class (JObj fields) = Raise AttributeError.
Proof.
  unfold null_series_or_type, infer_format_class, get_default. intros H.
  destruct (lookup "series" fields) as [[| | | | | | sf] |];
    try discriminate H; [reflexivity |].
  cbn [bind].
  destruct (lookup "series_type" sf) as [[| | | | | |] |];
    try discriminate H. reflexivity.
Qed.

(** X5: an issue whose ["series"] is present and null, or whose series has a
    ["series_type"] that is present and null, is never converted:
    [infer_format_class] raises [AttributeError] on it, and so
    [generate_issue_triples] and [process_issue] raise, although the other
    uses of the two fields test them first. *)
Theorem null_series_is_never_converted {R : PyRuntime}
    (fields : list (string * json)) :
  null_series_or_type fields = true ->
  infer_format_class (JObj fields) = Raise AttributeError
  /\ succeeds (generate_issue_triples (JObj fields)) = false
  /\ succeeds (process_issue (JObj fields)) = false.
Proof.
  intros H. pose proof (infer_format_class_null fields H) as F.
  assert (G : succeeds (generate_issue_triples (JObj fields)) = false).
  { destruct (generate_issue_triples (JObj fields)) as [ts |] eqn:E;
      [| reflexivity].
    unfold generate_issue_triples in E. invert_binds E.
    match goal with
    | E' : infer_format_class (JObj fields) = Ok _ |- _ =>
        rewrite F in E'; discriminate E'
    end. }
  repeat split; [exact F | exact G |].
  destruct (process_issue (JObj fields)) as [ls |] eqn:E; [| reflexivity].
  unfold process_issue in E. apply bind_Ok in E as (ts & Hts & _).
  unfold all_triples_of in Hts. invert_binds Hts.
  match goal with
  | E' : generate_issue_triples (JObj fields) = Ok _ |- _ =>
      rewrite E' in G; discriminate G
  end.
Qed.

(** X5 at an issue with a null series. *)
Lemma null_series_is_never_converted_witness :
  infer_format_class (JObj [("id", JInt 1); ("series", JNull)])
  = Raise AttributeError
  /\ succeeds (process_issue (JObj [("id", JInt 1); ("series", JNull)])) = false.
Proof.
  destruct (null_series_is_never_converted
              [("id", JInt 1); ("series", JNull)] eq_refl) as (H1 & _ & H3).
  split; [exact H1 | exact H3].
Defined.

(** * Further properties: the limit of the scanner *)

Lemma scan_limit_zero {R : PyRuntime} (chars : string) :
  forall st, scan (Some 0%Z) chars st = scan None chars st.
Proof.
  induction chars as [| c chars IH]; intros st; [reflexivity |].
  cbn [scan limit_reached Z.eqb negb andb]. now rewrite !IH.
Qed.

(** X6: a limit of zero is no limit: the scanner yields the same elements
    and prints the same warnings as without one, and so the whole run is the
    same. *)
Theorem limit_zero_is_no_limit {R : PyRuntime}
    (input_file content : string) (skip : Z) :
  stream_json_array content (Some 0%Z) = stream_json_array content None
  /\ main input_file content (Some 0%Z) skip = main input_file content None skip.
Proof.
  assert (H : stream_json_array content (Some 0%Z)
              = stream_json_array content None).
  { unfold stream_json_array. destruct (readline content) as [line rest].
    now rewrite scan_limit_zero. }
  split; [exact H |]. unfold main. now rewrite H.
Qed.

Ltac next_state IH Hst :=
  match goal with
  | |- yielded (scan _ _ ?s) = _ => exact (IH s Hst)
  end.

Lemma scan_limit_firstn {R : PyRuntime} (l : Z) (chars : string) :
  l <> 0%Z ->
  forall st,
    (0 <= count st < Z.max l 1)%Z ->
    yielded (scan (Some l) chars st)
    = firstn (Z.to_nat (Z.max l 1 - count st)) (yielded (scan None chars st)).
Proof.
  intros Hl. induction chars as [| c chars IH]; intros st Hst.
  - cbn [scan yielded]. now rewrite firstn_nil.
  -     cbn [scan].
    destruct (escape_next st); [next_state IH Hst |].
    destruct (Ascii.eqb c backslash_char && in_string st); [next_state IH Hst |].
    cbv zeta.
    match goal with
    | |- context [if ?b then _ else scan (Some l) chars ?s] =>
        destruct b; [| next_state IH Hst]
    end.
    match goal with
    | |- context [if ?b then _ else scan (Some l) chars ?s] =>
        destruct b; [| next_state IH Hst]
    end.
    match goal with
    | |- context [json_loads ?t] => destruct (json_loads t) as [obj | e | e]
    end.
    + cbn [yielded limit_reached].
      replace (Z.to_nat (Z.max l 1 - count st))
        with (S (Z.to_nat (Z.max l 1 - (count st + 1)))) by lia.
      cbn [firstn]. f_equal.
      replace (negb (l =? 0)%Z) with true
        by (symmetry; apply negb_true_iff, Z.eqb_neq; exact Hl).
      cbn [andb]. destruct (Z.leb_spec l (count st + 1)) as [Hle | Hgt].
      * replace (Z.to_nat (Z.max l 1 - (count st + 1))) with 0%nat by lia.
        reflexivity.
      * apply IH. cbn [count]. lia.
    + cbn [yielded]. next_state IH Hst.
    + cbn [yielded]. now rewrite firstn_nil.
Qed.

(** X7: with a limit other than zero the scanner yields the first
    [max limit 1] of the elements it yields without a limit, and nothing
    else: a positive limit counts decoded elements from the first one of the
    file, a negative limit stops after the first. *)
Theorem limit_keeps_the_first_elements {R : PyRuntime}
    (content : string) (l : Z) (evs : list event) :
  l <> 0%Z ->
  stream_json_array content None = Ok evs ->
  exists evs',
    stream_json_array content (Some l) = Ok evs'
    /\ yielded evs' = firstn (Z.to_nat (Z.max l 1)) (yielded evs).
Proof.
  intros Hl H. unfold stream_json_array in *.
  destruct (readline content) as [line rest].
  destruct (startswith (strip line) "["); [| discriminate H].
  apply Ok_inj in H. subst evs. eexists. split; [reflexivity |].
  rewrite (scan_limit_firstn l rest Hl initial_state) by (cbn; lia).
  cbn [initial_state count]. now rewrite Z.sub_0_r.
Qed.

(** X7 at three records: a limit of two keeps two, a negative limit one. *)
Lemma limit_keeps_the_first_elements_witness :
  (exists evs',
      stream_json_array three_records (Some 2%Z) = Ok evs'
      /\ yielded evs'
         = firstn 2 [sample_value 1; sample_value 2; sample_value 3])
  /\ (exists evs',
         stream_json_array three_records (Some (-4)%Z) = Ok evs'
         /\ yielded evs'
            = firstn 1 [sample_value 1; sample_value 2; sample_value 3]).
Proof.
  assert (H : stream_json_array three_records None
              = Ok [Yield (sample_value 1); Yield (sample_value 2);
                    Yield (sample_value 3)])
    by (vm_compute; reflexivity).
  split.
  - apply (limit_keeps_the_first_elements three_records 2 _ ltac:(lia) H).
  - apply (limit_keeps_the_first_elements three_records (-4) _ ltac:(lia) H).
Defined.

(** * Further properties: text outside the objects *)

Lemma scan_top_level_chars {R : PyRuntime} (s : string) :
  all_chars no_quote_or_brace s = true ->
  forall (buf : string) (n : Z),
    all_chars is_space buf = true ->
    scan None s (st_of buf 0 false n) = char_events s.
Proof.
  induction s as [| c s IH]; intros Hs buf n Hb; [reflexivity |].
  cbn [all_chars] in Hs. apply andb_true_iff in Hs as [Hc Hs].
  cbn [char_events]. unfold is_gap_or_bracket, is_gap.
  destruct (is_space c) eqn:Esp; cbn [orb].
  { rewrite (scan_space None c s buf n Hb Esp).
    apply IH; [exact Hs |]. now rewrite all_chars_push, Hb, Esp. }
  destruct (is_comma c) eqn:Eco; cbn [orb].
  { unfold is_comma in Eco. apply Ascii.eqb_eq in Eco. subst c.
    rewrite (scan_comma None s buf n Hb). now apply IH. }
  destruct (Ascii.eqb c "]"%char) eqn:Ebr.
  { apply Ascii.eqb_eq in Ebr. subst c.
    rewrite (scan_bracket None s buf n Hb). now apply IH. }
  unfold no_quote_or_brace in Hc.
  apply andb_true_iff in Hc as [Hc Hclose].
  apply andb_true_iff in Hc as [Hq Hopen].
  apply negb_true_iff in Hq, Hopen, Hclose.
  cbn [scan st_of escape_next in_string brace_depth buffer count].
  rewrite andb_false_r, Hq, Hopen, Hclose.
  unfold push. rewrite (strip_padded_char buf c Hb Esp).
  cbn [Z.eqb is_empty negb andb rstrip_with]. rewrite Eco.
  cbn [andb is_empty negb String.eqb]. rewrite Ebr.
  cbn [negb limit_reached].
  destruct (json_loads (String c "")) as [obj | e | e];
    [f_equal; now apply (IH Hs "" _ eq_refl) ..| reflexivity].
Qed.

(** X8: after an accepted first line, text that holds no brace and no
    double quote is never taken as a whole: every character of it that is no
    white space, comma or closing bracket is handed to the decoder on its
    own, so an array of numbers is read digit by digit. *)
Theorem top_level_text_is_decoded_per_character {R : PyRuntime}
    (first s : string) :
  opens_array first = true ->
  all_chars no_quote_or_brace s = true ->
  stream_json_array (first ++ NL ++ s) None = Ok (char_events s).
Proof.
  intros Hf Hs. rewrite (stream_after_first_line _ _ _ Hf).
  change initial_state with (st_of "" 0 false 0).
  now rewrite (scan_top_level_chars s Hs "" 0%Z eq_refl).
Qed.

(** X8 at the array [[12, 34]] written over four lines. *)
Lemma top_level_text_is_decoded_per_character_witness :
  stream_json_array ("[" ++ NL ++ "12," ++ NL ++ "34" ++ NL ++ "]") None
  = Ok (char_events ("12," ++ NL ++ "34" ++ NL ++ "]"))
  /\ char_events ("12," ++ NL ++ "34" ++ NL ++ "]")
     = [Yield (JInt 1); Yield (JInt 2); Yield (JInt 3); Yield (JInt 4)].
Proof.
  split.
  - apply (top_level_text_is_decoded_per_character
             "[" ("12," ++ NL ++ "34" ++ NL ++ "]")); vm_compute; reflexivity.
  - vm_compute. reflexivity.
Defined.

(** * Further properties: the first line *)

(** X9: when the first line, stripped, does not begin with an opening
    bracket (a blank first line, an empty file, an object, a byte order
    mark), the run ends with [ValueError], whatever follows that line; the
    header has been written by then and nothing else is. *)
Theorem first_line_must_open_the_array {R : PyRuntime}
    (input_file first rest : string) (limit : option Z) (skip : Z) :
  has_char newline_char first = false ->
  startswith (strip first) "[" = false ->
  main input_file (first ++ NL ++ rest) limit skip = refused input_file
  /\ main input_file first limit skip = refused input_file.
Proof.
  intros Hn Hs. unfold main, stream_json_array.
  rewrite (readline_line _ _ Hn), (readline_last _ Hn), strip_line, Hs.
  split; reflexivity.
Qed.

(** X9 at a file whose first line is blank and whose array follows, and at
    the empty file. *)
Lemma first_line_must_open_the_array_witness :
  main "comics.json" ("" ++ NL ++ three_records) None 0 = refused "comics.json"
  /\ main "comics.json" "" None 0 = refused "comics.json".
Proof.
  apply (first_line_must_open_the_array "comics.json" "" three_records None 0);
    reflexivity.
Defined.

(** * Further properties: the format class *)

Lemma gt_100_int (n : Z) : gt_100 (JInt n) = Ok (100 <? n)%Z.
Proof. reflexivity. Qed.

(** X10: the page count decides the format class only when the lower-cased
    series type holds none of the six keywords.  With a keyword the class is
    one of the four keyword classes and the page count is not looked at;
    without one, an absent or false page count gives [SingleIssue], an
    integer gives [CollectedEdition] above 100 and [SingleIssue] up to 100,
    and a page count that is a non-empty string raises [TypeError]. *)
Theorem format_class_keywords_then_page_count {R : PyRuntime}
    (fields : list (string * json)) (s : string) :
  series_type_name (JObj fields) = Ok (JStr s) ->
  (any_in format_keywords (lower s) = true ->
   exists cls, infer_format_class (JObj fields) = Ok cls
               /\ In cls keyword_classes)
  /\ (any_in format_keywords (lower s) = false ->
      (lookup "page_count" fields = None ->
       infer_format_class (JObj fields) = Ok "SingleIssue")
      /\ (forall v, lookup "page_count" fields = Some v -> truthy v = false ->
                    infer_format_class (JObj fields) = Ok "SingleIssue")
      /\ (forall n, lookup "page_count" fields = Some (JInt n) ->
                    infer_format_class (JObj fields)
                    = Ok (if (100 <? n)%Z then "CollectedEdition"
                          else "SingleIssue"))
      /\ (forall c t, lookup "page_count" fields = Some (JStr (String c t)) ->
                      infer_format_class (JObj fields) = Raise TypeError)).
Proof.
  intros H.
  assert (E : forall k : json -> result string,
             (series <- get_default (JObj fields) "series" (JObj []) ;;
              st <- get_default series "series_type" (JObj []) ;;
              n <- get_default st "name" (JStr "") ;; k n)
             = k (JStr s)).
  { intros k. unfold series_type_name in H.
    destruct (get_default (JObj fields) "series" (JObj [])) as [a |];
      [| discriminate H].
    cbn [bind] in *.
    destruct (get_default a "series_type" (JObj [])) as [b |];
      [| discriminate H].
    cbn [bind] in *. now rewrite H. }
  unfold infer_format_class. rewrite E. cbn [str_lower bind].
  unfold any_in, format_keywords. cbn [existsb]. rewrite orb_false_r.
  unfold get, get_default.
  destruct (contains "trade paperback" (lower s)),
    (contains "tpb" (lower s)), (contains "hardcover" (lower s)),
    (contains "hc" (lower s)), (contains "digital" (lower s)),
    (contains "graphic novel" (lower s)); cbn [orb];
    (split; [intros K | intros K]; try discriminate K);
    try (destruct (lookup "page_count" fields); cbn [bind];
         eexists; (split; [reflexivity | unfold keyword_classes; cbn [In];
                                         now auto 6])).
  repeat split.
  - intros ->. reflexivity.
  - intros v -> Hv. cbn [bind]. now rewrite Hv.
  - intros n ->. cbn [bind truthy].
    destruct (Z.eqb_spec n 0) as [-> | Hn]; cbn [negb truthy Z.eqb];
      [reflexivity |].
    replace (negb (n =? 0)%Z) with true
      by (symmetry; apply negb_true_iff, Z.eqb_neq; exact Hn).
    now rewrite gt_100_int.
  - intros c t ->. reflexivity.
Qed.

(** X10 at a trade paperback whose page count is a string, and at an issue
    of 120 pages without a series. *)
Lemma format_class_keywords_then_page_count_witness :
  (exists cls,
      infer_format_class
        (JObj [("series",
                JObj [("series_type", JObj [("name", JStr "TPB")])]);
               ("page_count", JStr "120")]) = Ok cls
      /\ In cls keyword_classes)
  /\ infer_format_class (JObj [("page_count", JInt 120)])
     = Ok "CollectedEdition"
  /\ infer_format_class (JObj [("page_count", JStr "120")]) = Raise TypeError.
Proof.
  split; [| split].
  - apply (proj1 (format_class_keywords_then_page_count
                    [("series",
                      JObj [("series_type", JObj [("name", JStr "TPB")])]);
                     ("page_count", JStr "120")] "TPB" eq_refl)).
    reflexivity.
  - exact (proj1 (proj2 (proj2
              (proj2 (format_class_keywords_then_page_count
                        [("page_count", JInt 120)] "" eq_refl) eq_refl)))
             120%Z eq_refl).
  - exact (proj2 (proj2 (proj2
              (proj2 (format_class_keywords_then_page_count
                        [("page_count", JStr "120")] "" eq_refl) eq_refl)))
             "1"%char "20" eq_refl).
Defined.

(** * Further properties: null texts *)

Lemma infer_tone_null_desc {R : PyRuntime} (sf : list (string * json)) :
  lookup "desc" sf = Some JNull -> succeeds (infer_tone (JObj sf)) = false.
Proof.
  intros H. unfold infer_tone, get_default. rewrite H.
  destruct (lookup "name" sf) as [v |]; cbn [bind].
  - destruct (str_lower v); reflexivity.
  - reflexivity.
Qed.

(** X11: a series record whose ["desc"] is present and null is never
    converted.  The synopsis tests the field before it uses it, but
    [infer_tone] calls [lower] on it and raises [AttributeError]; so
    [generate_series_triples] raises, and [process_issue] raises on every
    issue that carries such a series. *)
Theorem null_description_breaks_the_series {R : PyRuntime}
    (sf : list (string * json)) :
  lookup "desc" sf = Some JNull ->
  (forall n, lookup "name" sf = Some (JStr n) ->
             infer_tone (JObj sf) = Raise AttributeError)
  /\ (forall series_id,
         succeeds (generate_series_triples series_id (JObj sf)) = false)
  /\ (forall fields,
         lookup "series" fields = Some (JObj sf) ->
         succeeds (process_issue (JObj fields)) = false).
Proof.
  intros H. pose proof (infer_tone_null_desc sf H) as T.
  assert (G : forall series_id,
             succeeds (generate_series_triples series_id (JObj sf)) = false).
  { intros sid.
    destruct (generate_series_triples sid (JObj sf)) as [ts |] eqn:E;
      [| reflexivity].
    unfold generate_series_triples in E. invert_binds E.
    match goal with
    | E' : infer_tone (JObj sf) = Ok _ |- _ => rewrite E' in T; discriminate T
    end. }
  split; [| split; [exact G |]].
  - intros n Hn. unfold infer_tone, get_default. now rewrite Hn, H.
  - intros fields Hs.
    destruct (process_issue (JObj fields)) as [ls |] eqn:E; [| reflexivity].
    unfold process_issue in E. apply bind_Ok in E as (ts & Hts & _).
    unfold all_triples_of in Hts.
    apply bind_Ok in Hts as (iid & _ & Hts).
    apply bind_Ok in Hts as (pub & _ & Hts).
    apply bind_Ok in Hts as (imp & _ & Hts).
    apply bind_Ok in Hts as (ser & Hser & _).
    unfold series_of, has_key, subscript in Hser. rewrite Hs in Hser.
    cbn [bind truthy] in Hser.
    destruct sf as [| f sf']; [discriminate H |]. cbn [bind] in Hser.
    apply bind_Ok in Hser as (sid & _ & Hser).
    specialize (G sid). rewrite Hser in G. discriminate G.
Qed.

(** X11 at a series with a name and a null description. *)
Lemma null_description_breaks_the_series_witness :
  infer_tone (JObj [("id", JInt 3); ("name", JStr "Saga"); ("desc", JNull)])
  = Raise AttributeError
  /\ succeeds
       (process_issue
          (JObj [("id", JInt 1);
                 ("series", JObj [("id", JInt 3); ("name", JStr "Saga");
                                  ("desc", JNull)])])) = false.
Proof.
  destruct (null_description_breaks_the_series
              [("id", JInt 3); ("name", JStr "Saga"); ("desc", JNull)] eq_refl)
    as (H1 & _ & H3).
  split; [exact (H1 "Saga" eq_refl) |].
  exact (H3 [("id", JInt 1);
             ("series", JObj [("id", JInt 3); ("name", JStr "Saga");
                              ("desc", JNull)])] eq_refl).
Defined.

(** * Further properties: long texts *)

Lemma length_substring_le (n : nat) (s : string) :
  (length (substring 0 n s) <= n)%nat.
Proof.
  revert s. induction n as [| n IH]; intros [| c s]; cbn [substring length];
    try lia.
  specialize (IH s). lia.
Qed.

(** X12: a description, synopsis, origin, powers or biography that is a
    non-empty string is cut to its first [n] characters before it is escaped
    and not after: the literal body is a whole number of escapes, ends on no
    dangling backslash, holds no raw newline, and is at most [2 * n] long.
    An absent, null or empty text adds nothing. *)
Theorem long_text_is_cut_before_it_is_escaped {R : PyRuntime}
    (fields : list (string * json)) (k : string) (n : nat)
    (mk : string -> string) :
  (forall c d,
      lookup k fields = Some (JStr (String c d)) ->
      opt_text (JObj fields) k n mk
      = Ok [mk (escape_text (substring 0 n (String c d)))]
      /\ strbody (escape_text (substring 0 n (String c d)))
      /\ has_char newline_char (escape_text (substring 0 n (String c d)))
         = false
      /\ (length (escape_text (substring 0 n (String c d))) <= 2 * n)%nat)
  /\ (match lookup k fields with
      | None | Some JNull | Some (JStr EmptyString) => True
      | _ => False
      end -> opt_text (JObj fields) k n mk = Ok []).
Proof.
  split.
  - intros c d H.
    destruct (escape_text_safe (substring 0 n (String c d)))
      as (H1 & H2 & _ & H4).
    pose proof (length_substring_le n (String c d)).
    repeat split; try assumption; [| lia].
    unfold opt_text, get, get_default. now rewrite H.
  - unfold opt_text, get, get_default.
    destruct (lookup k fields) as [[| | | | [|] | |] |]; intros H;
      try destruct H; reflexivity.
Qed.

(** X12 at a text cut in front of a double quote. *)
Lemma long_text_is_cut_before_it_is_escaped_witness :
  opt_text (JObj [("desc", JStr ("ab" ++ DQ ++ "cd"))]) "desc" 3 lit
  = Ok [lit (escape_text (substring 0 3 ("ab" ++ DQ ++ "cd")))]
  /\ escape_text (substring 0 3 ("ab" ++ DQ ++ "cd"))
     = "ab" ++ String backslash_char DQ.
Proof.
  split.
  - apply (proj1 (long_text_is_cut_before_it_is_escaped
                    [("desc", JStr ("ab" ++ DQ ++ "cd"))] "desc" 3 lit)
             "a"%char ("b" ++ DQ ++ "cd") eq_refl).
  - reflexivity.
Defined.

(** * Further properties: identifiers *)

(** X13: what stands in for an identifier differs between the generators.
    A character without ["id"], or with one that tests false, is named after
    its name; a group takes the name only when the key is absent and writes
    a present ["id"] as it is, null included; a universe whose ["id"] is
    present and tests false is dropped, name or not. *)
Theorem identifier_fallbacks_differ {R : PyRuntime}
    (fields : list (string * json)) (nm : string) :
  lookup "name" fields = Some (JStr nm) ->
  (forall series_id issue_id ts,
      id_absent_or_false fields = true ->
      generate_character_triples (JObj fields) series_id issue_id = Ok ts ->
      hd "" ts = triple (data ("character/" ++ safe_uri nm)) "a" (ns "Character"))
  /\ (forall ts,
         generate_group_triples (JObj fields) = Ok ts ->
         hd "" ts
         = triple (data ("group/" ++ match lookup "id" fields with
                                     | Some v => py_str v
                                     | None => safe_uri nm
                                     end)) "a" (ns "Group"))
  /\ (forall v,
         lookup "id" fields = Some v -> truthy v = false ->
         generate_universe_triples (JObj fields) = Ok []).
Proof.
  intros Hn. split; [| split].
  - intros sid iid ts Hid H. unfold id_absent_or_false in Hid.
    unfold generate_character_triples in H.
    unfold get_default at 1 in H. unfold subscript at 1 2 in H.
    rewrite Hn in H.
    assert (H' : exists rest,
               ts = (triple (data ("character/" ++ safe_uri nm)) "a"
                       (ns "Character") :: rest)).
    { destruct (lookup "id" fields) as [v |]; cbn [bind] in H.
      - apply negb_true_iff in Hid. rewrite Hid in H. cbn [bind py_str] in H.
        invert_binds H. apply Ok_inj in H. subst ts. eexists. reflexivity.
      - cbn [truthy is_empty negb bind py_str] in H.
        invert_binds H. apply Ok_inj in H. subst ts. eexists. reflexivity. }
    destruct H' as (rest & ->). reflexivity.
  - intros ts H. unfold generate_group_triples in H.
    unfold get, get_default, subscript in H. rewrite Hn in H.
    destruct (lookup "id" fields) as [v |]; cbn [bind py_str] in H;
      invert_binds H; apply Ok_inj in H; subst ts; reflexivity.
  - intros v Hv Ht. unfold generate_universe_triples, get, get_default.
    rewrite Hn, Hv. cbn [bind]. now rewrite Ht.
Qed.

(** X13 at a record whose identifier is null. *)
Lemma identifier_fallbacks_differ_witness :
  hd "" (triples_of
           (generate_character_triples
              (JObj [("id", JNull); ("name", JStr "X Men")]) JNull JNull))
  = triple (data "character/X_Men") "a" (ns "Character")
  /\ hd "" (triples_of
              (generate_group_triples
                 (JObj [("id", JNull); ("name", JStr "X Men")])))
     = triple (data "group/None") "a" (ns "Group")
  /\ generate_universe_triples (JObj [("id", JNull); ("name", JStr "X Men")])
     = Ok [].
Proof.
  destruct (identifier_fallbacks_differ
              [("id", JNull); ("name", JStr "X Men")] "X Men" eq_refl)
    as (H1 & H2 & H3).
  split; [| split].
  - apply (H1 JNull JNull); [reflexivity |].
    apply Ok_triples_of. vm_compute. reflexivity.
  - apply H2. apply Ok_triples_of. vm_compute. reflexivity.
  - exact (H3 JNull eq_refl eq_refl).
Defined.

(** * Further properties: the links of an issue *)

Lemma org_of_described {R : PyRuntime} (fields : list (string * json))
    (k org_type : string) (p pid : json) (ts : list string) :
  lookup k fields = Some p -> truthy p = true -> subscript p "id" = Ok pid ->
  org_of (JObj fields) k org_type = Ok ts ->
  In (triple (data ("org/" ++ py_str pid)) "a" (ns "Org")) ts.
Proof.
  intros Hk Ht Hid H. unfold org_of, has_key in H.
  unfold subscript at 1 in H. rewrite Hk in H. cbn [bind] in H.
  rewrite Ht, Hid in H. cbn [bind] in H.
  apply bind_Ok in H as (oname & _ & H). apply Ok_inj in H. subst ts.
  left. reflexivity.
Qed.

(** X14: what an issue links to is described in the same block.  When the
    issue is converted and its publisher (its series) is present and true,
    the triples of the block hold the link from the expression to the
    organisation (to the work, and back) and the type triple of that
    organisation (of that work), on the same URI. *)
Theorem issue_links_are_described {R : PyRuntime}
    (fields : list (string * json)) (iid : json) (ts : list string) :
  lookup "id" fields = Some iid ->
  all_triples_of (JObj fields) = Ok ts ->
  let expr_uri := data ("expression/issue_" ++ py_str iid) in
  (forall p pid,
      lookup "publisher" fields = Some p -> truthy p = true ->
      subscript p "id" = Ok pid ->
      In (triple expr_uri (ns "publishedBy") (data ("org/" ++ py_str pid))) ts
      /\ In (triple (data ("org/" ++ py_str pid)) "a" (ns "Org")) ts)
  /\ (forall s sid,
         lookup "series" fields = Some s -> truthy s = true ->
         subscript s "id" = Ok sid ->
         let work_uri := data ("work/series_" ++ py_str sid) in
         In (triple expr_uri (ns "expressionOf") work_uri) ts
         /\ In (triple work_uri (ns "hasExpression") expr_uri) ts
         /\ In (triple work_uri "a" (ns "StoryWork")) ts).
Proof.
  intros Hid H expr_uri. unfold all_triples_of in H.
  apply bind_Ok in H as (iid' & _ & H).
  apply bind_Ok in H as (pub & Hpub & H).
  apply bind_Ok in H as (imp & _ & H).
  apply bind_Ok in H as (ser & Hser & H).
  apply bind_Ok in H as (expression & Hexpr & H).
  invert_binds H. apply Ok_inj in H. subst ts.
  unfold generate_issue_triples in Hexpr. unfold subscript at 1 in Hexpr.
  rewrite Hid in Hexpr. cbn [bind] in Hexpr. invert_binds Hexpr.
  apply Ok_inj in Hexpr. subst expression. fold expr_uri.
  split.
  - intros p pid Hp Ht Hpid. split.
    + match goal with
      | E : bind (has_key "publisher" (JObj fields)) _ = Ok ?v |- _ =>
          unfold has_key, subscript at 1 in E; rewrite Hp in E;
          cbn [bind] in E; rewrite Ht, Hpid in E; cbn [bind] in E;
          apply Ok_inj in E; subst v
      end.
      rewrite !in_app_iff. cbn [In]. tauto.
    + pose proof (org_of_described _ _ _ _ _ _ Hp Ht Hpid Hpub).
      rewrite !in_app_iff. tauto.
  - intros s sid Hs Ht Hsid work_uri.
    match goal with
    | E : bind (has_key "series" (JObj fields)) _ = Ok ?v |- _ =>
        unfold has_key, subscript at 1 in E; rewrite Hs in E;
        cbn [bind] in E; rewrite Ht, Hsid in E; cbn [bind] in E;
        apply Ok_inj in E; subst v
    end.
    unfold series_of, has_key, subscript at 1 in Hser. rewrite Hs in Hser.
    cbn [bind] in Hser. rewrite Ht, Hsid in Hser. cbn [bind] in Hser.
    unfold generate_series_triples in Hser. invert_binds Hser.
    apply Ok_inj in Hser. subst ser. fold work_uri.
    repeat split; rewrite !in_app_iff; cbn [In]; tauto.
Qed.

(** X14 at an issue with a publisher and a series. *)
Lemma issue_links_are_described_witness :
  let issue :=
    [("id", JInt 7);
     ("publisher", JObj [("id", JInt 2); ("name", JStr "Image")]);
     ("series", JObj [("id", JInt 3); ("name", JStr "Saga")])] in
  In (triple (data "expression/issue_7") (ns "publishedBy") (data "org/2"))
     (triples_of (all_triples_of (JObj issue)))
  /\ In (triple (data "org/2") "a" (ns "Org"))
        (triples_of (all_triples_of (JObj issue))).
Proof.
  intros issue.
  assert (H : all_triples_of (JObj issue)
              = Ok (triples_of (all_triples_of (JObj issue))))
    by (apply Ok_triples_of; vm_compute; reflexivity).
  exact (proj1 (issue_links_are_described issue (JInt 7) _ eq_refl H)
           (JObj [("id", JInt 2); ("name", JStr "Image")]) (JInt 2)
           eq_refl eq_refl eq_refl).
Defined.

(** * Further properties: the credits of an issue *)

Lemma flat_mapM_idx_nth {A B : Type} (f : nat -> A -> result (list B))
    (xs : list A) :
  forall (i : nat) (out : list B),
    flat_mapM_idx f i xs = Ok out ->
    forall (k : nat) (x : A),
      nth_error xs k = Some x ->
      exists ys, f (i + k)%nat x = Ok ys /\ incl ys out.
Proof.
  induction xs as [| a xs IH]; intros i out H k x Hk.
  - destruct k; discriminate Hk.
  - cbn [flat_mapM_idx] in H.
    apply bind_Ok in H as (ys & Hys & H).
    apply bind_Ok in H as (zs & Hzs & H).
    apply Ok_inj in H. subst out.
    destruct k as [| k]; cbn [nth_error] in Hk.
    + injection Hk as <-. exists ys. rewrite Nat.add_0_r.
      split; [exact Hys | apply incl_appl, incl_refl].
    + destruct (IH (S i) zs Hzs k x Hk) as (ws & Hws & Hin).
      exists ws. replace (i + S k)%nat with (S i + k)%nat by lia.
      split; [exact Hws | apply incl_appr, Hin].
Qed.

(** X15: every credit of a converted issue is attached to a described
    person.  For the credit at position [idx] of the list ["credits"]
    (positions start at zero), the block holds the type triple of the person
    named by the credit's ["id"], the link from that person to the credit,
    whose URI is made of the issue's id, the credit's id and the position,
    and the position as the credit's billing order. *)
Theorem credits_are_attached_to_described_persons {R : PyRuntime}
    (fields : list (string * json)) (iid : json) (cl : list json)
    (ts : list string) :
  lookup "id" fields = Some iid ->
  lookup "credits" fields = Some (JArr cl) ->
  all_triples_of (JObj fields) = Ok ts ->
  forall (idx : nat) (credit : json),
    nth_error cl idx = Some credit ->
    exists cid,
      subscript credit "id" = Ok cid
      /\ let person_uri := data ("person/" ++ py_str cid) in
         let credit_uri :=
           data ("credit/" ++ py_str iid ++ "_" ++ py_str cid ++ "_"
                   ++ Z_to_string (Z.of_nat idx)) in
         In (triple person_uri "a" (ns "Person")) ts
         /\ In (triple person_uri (ns "hasCreditRelationship") credit_uri) ts
         /\ In (triple credit_uri (ns "billingOrder")
                  (typed_lit (Z_to_string (Z.of_nat idx)) "int")) ts.
Proof.
  intros Hid Hcl H idx credit Hnth. unfold all_triples_of in H.
  unfold subscript at 1 in H. rewrite Hid in H. cbn [bind] in H.
  apply bind_Ok in H as (pub & _ & H).
  apply bind_Ok in H as (imp & _ & H).
  apply bind_Ok in H as (ser & _ & H).
  apply bind_Ok in H as (expression & _ & H).
  unfold get_default at 1 in H. rewrite Hcl in H. cbn [bind py_iter] in H.
  apply bind_Ok in H as (credits & Hcredits & H).
  invert_binds H. apply Ok_inj in H. subst ts.
  destruct (flat_mapM_idx_nth _ _ _ _ Hcredits idx credit Hnth)
    as (ys & Hys & Hin).
  cbn [Nat.add] in Hys.
  apply bind_Ok in Hys as (cid & Hcid & Hys).
  apply bind_Ok in Hys as (creator & Hcreator & Hys).
  apply bind_Ok in Hys as (ct & Hct & Hys).
  apply Ok_inj in Hys. subst ys.
  unfold generate_credit_triples in Hct. rewrite Hcid, Hcreator in Hct.
  cbn [bind] in Hct. invert_binds Hct. apply Ok_inj in Hct. subst ct.
  exists cid. split; [exact Hcid |]. cbv zeta.
  repeat split; rewrite !in_app_iff; right; right; right; right; left;
    apply Hin; rewrite !in_app_iff; cbn [In generate_person_triples];
    tauto.
Qed.

(** X15 at an issue with two credits of the same creator. *)
Lemma credits_are_attached_to_described_persons_witness :
  let issue :=
    [("id", JInt 7);
     ("credits", JArr [JObj [("id", JInt 4); ("creator", JStr "Ann")];
                       JObj [("id", JInt 4); ("creator", JStr "Ann")]])] in
  exists cid,
    subscript (JObj [("id", JInt 4); ("creator", JStr "Ann")]) "id" = Ok cid
    /\ In (triple (data ("person/" ++ py_str cid)) "a" (ns "Person"))
          (triples_of (all_triples_of (JObj issue)))
    /\ In (triple (data ("person/" ++ py_str cid))
             (ns "hasCreditRelationship")
             (data ("credit/7_" ++ py_str cid ++ "_1")))
          (triples_of (all_triples_of (JObj issue))).
Proof.
  intros issue.
  assert (H : all_triples_of (JObj issue)
              = Ok (triples_of (all_triples_of (JObj issue))))
    by (apply Ok_triples_of; vm_compute; reflexivity).
  destruct (credits_are_attached_to_described_persons
              issue (JInt 7) _ _ eq_refl eq_refl H 1%nat
              (JObj [("id", JInt 4); ("creator", JStr "Ann")]) eq_refl)
    as (cid & H1 & H2 & H3 & _).
  exists cid. split; [exact H1 |]. split; [exact H2 | exact H3].
Defined.
